(** * Flash-card deck

    A shallow embedding of [flash_cards_app_v3_with_choices (6).py]: the
    classes [Flashcard] and [FlashcardDeck] with the file helpers
    [read_file] and [write_file], the quiz loop [ask_questions], the
    mutations [add_question] and [delete_question], [shuffle], and the
    menu [flashcard_app].

    Python state is passed explicitly.  A [World] holds what lives outside
    the deck object: the file system, the lines still to be read from
    standard input, what has been printed, the allocator of object
    identities and the random generator.  A method [m(self, args)] becomes
    a function of [args], the deck and the world that returns the new world
    (and the new deck when [self] is mutated).

    Text is modelled by [string] whose characters stand for the code points
    0..255; [lower] and [isspace] are Python's [str.lower] and
    [str.isspace] on that range.

    The file system is the one of a POSIX system on which this program
    alone is at work, with regular files and directories.  A path leads
    to an entry of some directory, which holds a regular file or is free;
    or below such an entry; or to a directory; or nowhere.  Two paths can
    lead to the same entry.  A file has a content, which is text or is
    not, and may or may not be read and written; a free entry may or may
    not take a new file.  What the program can change is which entries
    hold a file, and the content of the files.  Text files are in an
    encoding that holds every string (UTF-8).  Opening a file fails or
    succeeds; a file that is open for writing takes what is written (the
    device has room and does not fail). *)

From Stdlib Require Import ZArith Ascii List Lia.
From Stdlib Require String.
From stdpp Require Import base list gmap strings.

(** ** Characters and strings *)

(** Line feed and carriage return. *)
Definition LF : ascii := "010"%char.
Definition CR : ascii := "013"%char.

(** [str.isspace] for one character: TAB..CR, FS..US, space, NEL, NBSP. *)
Definition isspace (c : ascii) : bool :=
  let n := N_of_ascii c in
  ((9 <=? n) && (n <=? 13) || (28 <=? n) && (n <=? 32)
   || (n =? 133) || (n =? 160))%N.

(** [str.lower] for one character: A..Z and the capital letters of
    0xC0..0xDE (the multiplication sign 0xD7 apart) move up by 32. *)
Definition lower_char (c : ascii) : ascii :=
  let n := N_of_ascii c in
  if ((65 <=? n) && (n <=? 90)
      || (192 <=? n) && (n <=? 222) && negb (n =? 215))%N
  then ascii_of_N (n + 32) else c.

(** [s.lower()] *)
Fixpoint lower (s : string) : string :=
  match s with
  | EmptyString => EmptyString
  | String c r => String (lower_char c) (lower r)
  end.

(** [s.lstrip()] *)
Fixpoint lstrip (s : string) : string :=
  match s with
  | EmptyString => EmptyString
  | String c r => if isspace c then lstrip r else s
  end.

(** [s.rstrip()] *)
Fixpoint rstrip (s : string) : string :=
  match s with
  | EmptyString => EmptyString
  | String c r =>
      match rstrip r with
      | EmptyString => if isspace c then EmptyString else String c EmptyString
      | r' => String c r'
      end
  end.

(** [s.strip()]: without argument it removes whitespace at both ends. *)
Definition strip (s : string) : string := rstrip (lstrip s).

(** What [open(filename, 'r')] does to line ends (universal newlines):
    a CR LF pair and a lone CR are both read as LF. *)
Fixpoint universal_newlines (s : string) : string :=
  match s with
  | EmptyString => EmptyString
  | String c r =>
      if Ascii.eqb c CR then
        String LF
          match r with
          | String c' r' =>
              if Ascii.eqb c' LF then universal_newlines r'
              else universal_newlines r
          | EmptyString => EmptyString
          end
      else String c (universal_newlines r)
  end.

(** The lines of a text, each with its LF when it has one, as
    [f.readlines()] cuts them. *)
Fixpoint split_lines (s : string) : list string :=
  match s with
  | EmptyString => []
  | String c r =>
      if Ascii.eqb c LF then String c EmptyString :: split_lines r
      else match split_lines r with
           | [] => [String c EmptyString]
           | l :: ls => String c l :: ls
           end
  end.

(** [f.readlines()] on a file opened in text mode with this content. *)
Definition readlines (content : string) : list string :=
  split_lines (universal_newlines content).

(** What the loop [for line in data: f.write(line + "\n")] leaves in the
    file. *)
Fixpoint written (data : list string) : string :=
  match data with
  | [] => EmptyString
  | line :: rest => (line +:+ String LF EmptyString) +:+ written rest
  end.

(** Characters at the ends of a string and line breaks inside it. *)
Definition starts_with_space (s : string) : bool :=
  match s with
  | EmptyString => false
  | String c _ => isspace c
  end.

Fixpoint ends_with_space (s : string) : bool :=
  match s with
  | EmptyString => false
  | String c EmptyString => isspace c
  | String _ r => ends_with_space r
  end.

Fixpoint all_space (s : string) : bool :=
  match s with
  | EmptyString => true
  | String c r => isspace c && all_space r
  end.

Fixpoint has_line_break (s : string) : bool :=
  match s with
  | EmptyString => false
  | String c r => Ascii.eqb c LF || Ascii.eqb c CR || has_line_break r
  end.

Fixpoint has_CR (s : string) : bool :=
  match s with
  | EmptyString => false
  | String c r => Ascii.eqb c CR || has_CR r
  end.

(** No line break stands before the last character. *)
Fixpoint break_only_last (s : string) : bool :=
  match s with
  | EmptyString => true
  | String c EmptyString => true
  | String c r =>
      negb (Ascii.eqb c LF || Ascii.eqb c CR) && break_only_last r
  end.

(** The string ends with a line feed. *)
Fixpoint ends_with_LF (s : string) : bool :=
  match s with
  | EmptyString => false
  | String c EmptyString => Ascii.eqb c LF
  | String _ r => ends_with_LF r
  end.

(** One line of a text: it is not empty and holds no line feed before its
    last character. *)
Fixpoint one_line (s : string) : bool :=
  match s with
  | EmptyString => false
  | String c EmptyString => true
  | String c r => negb (Ascii.eqb c LF) && one_line r
  end.

(** A text cut into lines: every piece is one line, and every piece but
    the last ends with a line feed. *)
Fixpoint cut_in_lines (ls : list string) : Prop :=
  match ls with
  | [] => True
  | [l] => one_line l = true
  | l :: ls' => one_line l = true /\ ends_with_LF l = true /\ cut_in_lines ls'
  end.

(** A string that a line of a file can hold and give back: nothing for
    [strip] to remove and no line break. *)
Definition plain (s : string) : bool :=
  negb (starts_with_space s) && negb (ends_with_space s)
  && negb (has_line_break s).

(** ** The world around a deck *)

(** Error numbers of the operating system: no such file or directory, not
    a directory, is a directory, permission denied, and any other. *)
Inductive Errno :=
  | ENOENT
  | ENOTDIR
  | EISDIR
  | EACCES
  | EOTHER (code : nat).

(** The exceptions that can leave the modelled methods.  An [OSError]
    carries its error number and the path it is about; Python gives it
    the class that goes with the number. *)
Inductive Exn :=
  | ValueError (msg : string)
  | IndexError
  | EOFError
  | OSError (errno : Errno) (filename : string)
  | UnicodeDecodeError.

Abbreviation FileNotFoundError := (OSError ENOENT).
Abbreviation NotADirectoryError := (OSError ENOTDIR).
Abbreviation IsADirectoryError := (OSError EISDIR).
Abbreviation PermissionError := (OSError EACCES).

Inductive Outcome (A : Type) :=
  | Return (a : A)
  | Raise (e : Exn).
Arguments Return {A} a.
Arguments Raise {A} e.

(** What the program prints, with the values interpolated in each
    message. *)
Inductive Msg :=
  | MsgFileNotFound (filename : string)
      (* Error: File '{filename}' not found. *)
  | MsgWriteError (e : Exn)
      (* Error writing to file: {e} *)
  | MsgPrompt (question : string)
      (* {flashcard.question} (type 'q' to quit) *)
  | MsgQuit (score attempted_questions : Z)
      (* Quitting the test. Your final score is {score} out of
         {attempted_questions}. *)
  | MsgCorrect
      (* Correct! *)
  | MsgSorry (answer : string)
      (* Sorry, the correct answer is {flashcard.answer}. *)
  | MsgFinal (score total : Z)
      (* Your final score is {score} out of {len(self.flashcards)}. *)
  | MsgNotFound.
      (* Question not found. *)

(** Where a path leads. *)
Inductive Place :=
  | At (k : nat)
      (* to the entry [k] of a directory: the regular file there, or the
         place where a file of that name would be *)
  | Below (k : nat)
      (* through the entry [k] to a name below it, as [k/x] does: there is
         nothing, be the entry free or a regular file *)
  | Folder
      (* to a directory *)
  | Unreachable (e : Exn).
      (* nowhere: the operating system refuses the path with [e] (a
         directory on the way is missing or may not be searched, the path
         is too long or holds a NUL, ...) *)

(** The content of a regular file: text in the encoding in use, or bytes
    that are no such text. *)
Inductive Content :=
  | Text (s : string)
  | Undecodable.

Record File := mkFile {
  content : Content;
  readable : bool;      (* the program may open it for reading *)
  writable : bool       (* the program may open it for writing *)
}.

Record FileSystem := mkFS {
  place : string -> Place;     (* where each path but the empty leads *)
  creatable : nat -> bool;     (* a free entry may take a new file *)
  nodes : gmap nat File        (* the regular files, by entry *)
}.

(** Where a path leads; the empty path leads nowhere. *)
Definition locate (path : string) (fs : FileSystem) : Place :=
  if String.eqb path EmptyString
  then Unreachable (FileNotFoundError EmptyString)
  else place fs path.

(** [open(path, 'r')] and reading the file to its end: the text the file
    holds, before line ends are translated, or the exception raised. *)
Definition open_r (path : string) (fs : FileSystem) : Outcome string :=
  match locate path fs with
  | At k =>
      match nodes fs !! k with
      | Some f =>
          if readable f then
            match content f with
            | Text s => Return s
            | Undecodable => Raise UnicodeDecodeError
            end
          else Raise (PermissionError path)
      | None => Raise (FileNotFoundError path)
      end
  | Below k =>
      match nodes fs !! k with
      | Some _ => Raise (NotADirectoryError path)
      | None => Raise (FileNotFoundError path)
      end
  | Folder => Raise (IsADirectoryError path)
  | Unreachable e => Raise e
  end.

(** [open(path, 'w')]: the entry whose file is now open, empty, for
    writing - a file that was there, or a new one - or the exception
    raised. *)
Definition open_w (path : string) (fs : FileSystem) : Outcome nat :=
  match locate path fs with
  | At k =>
      match nodes fs !! k with
      | Some f =>
          if writable f then Return k else Raise (PermissionError path)
      | None =>
          if creatable fs k then Return k else Raise (PermissionError path)
      end
  | Below k =>
      match nodes fs !! k with
      | Some _ => Raise (NotADirectoryError path)
      | None => Raise (FileNotFoundError path)
      end
  | Folder => Raise (IsADirectoryError path)
  | Unreachable e => Raise e
  end.

(** The file system once [text] has been written to the file opened at
    the entry [k] and the file is closed: a file that was there keeps its
    permissions, a new file can be read and written. *)
Definition put (k : nat) (text : string) (fs : FileSystem) : FileSystem :=
  mkFS (place fs) (creatable fs)
    (<[k := match nodes fs !! k with
            | Some f => mkFile (Text text) (readable f) (writable f)
            | None => mkFile (Text text) true true
            end]> (nodes fs)).

(** The entry that [open(path, 'w')] opens, if it opens one. *)
Definition write_entry (path : string) (fs : FileSystem) : option nat :=
  match open_w path fs with
  | Return k => Some k
  | Raise _ => None
  end.

(** The content of the regular file that a path leads to, if it leads to
    one. *)
Definition file_content (path : string) (fs : FileSystem) : option Content :=
  match locate path fs with
  | At k => content <$> nodes fs !! k
  | _ => None
  end.

(** The entry a path leads to when the program can keep a file there: a
    file that it may read and write, or a free entry that may take a
    file. *)
Definition own_file (path : string) (fs : FileSystem) : option nat :=
  match locate path fs with
  | At k =>
      match nodes fs !! k with
      | Some f => if readable f && writable f then Some k else None
      | None => if creatable fs k then Some k else None
      end
  | _ => None
  end.

(** From [fs] to [fs'] the paths lead where they led, free entries take
    files as they did, and no entry has changed but those that the paths
    [p1] and [p2] lead to. *)
Definition only_written (p1 p2 : string) (fs fs' : FileSystem) : Prop :=
  place fs' = place fs
  /\ creatable fs' = creatable fs
  /\ forall k, locate p1 fs <> At k -> locate p2 fs <> At k ->
       nodes fs' !! k = nodes fs !! k.

Record World := mkWorld {
  files : FileSystem;           (* the file system *)
  stdin : list string;          (* lines that input() will return *)
  stdout : list Msg;            (* messages printed so far, oldest first *)
  next_id : nat;                (* identity of the next object created *)
  rng : nat -> nat              (* draws the random generator will make *)
}.

Definition set_files (f : FileSystem) (w : World) : World :=
  mkWorld f (stdin w) (stdout w) (next_id w) (rng w).

(** [print(...)] *)
Definition print (m : Msg) (w : World) : World :=
  mkWorld (files w) (stdin w) (stdout w ++ [m]) (next_id w) (rng w).

(** [input(prompt)]: the prompt is printed, then a line is read; at the
    end of the input [EOFError] is raised. *)
Definition input (prompt : Msg) (w : World) : World * Outcome string :=
  let w1 := print prompt w in
  match stdin w1 with
  | [] => (w1, Raise EOFError)
  | line :: rest =>
      (mkWorld (files w1) rest (stdout w1) (next_id w1) (rng w1), Return line)
  end.

(** The world after [input(prompt)] has returned a line, [rest] being the
    lines after it. *)
Definition answered (prompt : Msg) (rest : list string) (w : World) : World :=
  mkWorld (files w) rest (stdout w ++ [prompt]) (next_id w) (rng w).

(** [random]'s [_randbelow(n)]: the next draw, brought below [n]. *)
Definition randbelow (n : nat) (w : World) : World * nat :=
  (mkWorld (files w) (stdin w) (stdout w) (next_id w) (fun k => rng w (S k)),
   rng w 0 mod n).

(** ** Flashcard and FlashcardDeck *)

(** A [Flashcard] object.  The class defines no [__eq__], so two flashcards
    are equal for [list.index] only when they are the same object: [oid] is
    the object's identity, given by the allocator when it is created. *)
Record Flashcard := mkFlashcard {
  oid : nat;
  question : string;
  answer : string
}.

(** [Flashcard(question, answer)]: a new object. *)
Definition Flashcard_new (q a : string) (w : World) : World * Flashcard :=
  (mkWorld (files w) (stdin w) (stdout w) (S (next_id w)) (rng w),
   mkFlashcard (next_id w) q a).

(** [[Flashcard(q, a) for q, a in pairs]] *)
Fixpoint build_flashcards (pairs : list (string * string)) (w : World)
  : World * list Flashcard :=
  match pairs with
  | [] => (w, [])
  | (q, a) :: rest =>
      let '(w1, c) := Flashcard_new q a w in
      let '(w2, cs) := build_flashcards rest w1 in
      (w2, c :: cs)
  end.

(** The text on a card, without its identity. *)
Definition card_text (c : Flashcard) : string * string :=
  (question c, answer c).

Record FlashcardDeck := mkDeck {
  ques_file : string;
  ans_file : string;
  questions : list string;
  answers : list string;
  flashcards : list Flashcard
}.

(** [FlashcardDeck.read_file(filename)]: the handler of the [try] takes
    [FileNotFoundError] and no other exception. *)
Definition read_file (filename : string) (w : World)
  : World * Outcome (list string) :=
  match open_r filename (files w) with
  | Return text => (w, Return (map strip (readlines text)))
  | Raise (FileNotFoundError _) =>
      (print (MsgFileNotFound filename) w, Return [])
  | Raise e => (w, Raise e)
  end.

(** [FlashcardDeck.write_file(filename, data)]: the handler of the [try]
    takes every exception and prints it. *)
Definition write_file (filename : string) (data : list string) (w : World)
  : World :=
  match open_w filename (files w) with
  | Return k => set_files (put k (written data) (files w)) w
  | Raise e => print (MsgWriteError e) w
  end.

(** [FlashcardDeck.__init__(question_file, answer_file)] *)
Definition deck_init (question_file answer_file : string) (w : World)
  : World * Outcome FlashcardDeck :=
  match read_file question_file w with
  | (w1, Raise e) => (w1, Raise e)
  | (w1, Return qs) =>
      match read_file answer_file w1 with
      | (w2, Raise e) => (w2, Raise e)
      | (w2, Return ans) =>
          if negb (length qs =? length ans) then
            (w2,
             Raise (ValueError
                      "Number of questions and answers must be the same"))
          else
            let '(w3, cards) := build_flashcards (zip qs ans) w2 in
            (w3, Return (mkDeck question_file answer_file qs ans cards))
      end
  end.

(** [x[i], x[j] = x[j], x[i]] *)
Definition swap {A : Type} (i j : nat) (x : list A) : list A :=
  match x !! j, x !! i with
  | Some xj, Some xi => <[j := xi]> (<[i := xj]> x)
  | _, _ => x
  end.

(** [random.shuffle(x)], the loop of the standard library:
    [for i in reversed(range(1, len(x))): j = randbelow(i + 1);
     x[i], x[j] = x[j], x[i]].  The first argument is the number of values
    of [i] still to be visited. *)
Fixpoint shuffle_loop {A : Type} (i : nat) (x : list A) (w : World)
  : World * list A :=
  match i with
  | 0 => (w, x)
  | S i' =>
      let '(w1, j) := randbelow (i + 1) w in
      shuffle_loop i' (swap i j x) w1
  end.

Definition random_shuffle {A : Type} (x : list A) (w : World)
  : World * list A :=
  shuffle_loop (length x - 1) x w.

(** [FlashcardDeck.shuffle()] *)
Definition shuffle (d : FlashcardDeck) (w : World) : World * FlashcardDeck :=
  let '(w1, cards) := random_shuffle (flashcards d) w in
  (w1, mkDeck (ques_file d) (ans_file d) (questions d) (answers d) cards).

(** [self.flashcards.index(flashcard)]: the first position that holds this
    very object. *)
Fixpoint index_obj (x : Flashcard) (l : list Flashcard) : option nat :=
  match l with
  | [] => None
  | y :: r => if oid y =? oid x then Some 0 else S <$> index_obj x r
  end.

(** The body of [for flashcard in self.flashcards] in [ask_questions], from
    the cards [todo] on, with the score so far; [cards] is
    [self.flashcards]. *)
Fixpoint ask_loop (cards todo : list Flashcard) (score : Z) (w : World)
  : World * Outcome unit :=
  match todo with
  | [] => (print (MsgFinal score (Z.of_nat (length cards))) w, Return tt)
  | flashcard :: rest =>
      match input (MsgPrompt (question flashcard)) w with
      | (w1, Raise e) => (w1, Raise e)
      | (w1, Return user_answer) =>
          if String.eqb (lower user_answer) "q" then
            match index_obj flashcard cards with
            | None => (w1, Raise (ValueError "flashcard is not in list"))
            | Some idx =>
                let attempted_questions :=
                  (Z.of_nat (length cards)
                   - (Z.of_nat (length cards) - Z.of_nat idx - 1))%Z in
                (print (MsgQuit score attempted_questions) w1, Return tt)
            end
          else if String.eqb (lower user_answer) (lower (answer flashcard))
          then ask_loop cards rest (score + 1)%Z (print MsgCorrect w1)
          else ask_loop cards rest score
                 (print (MsgSorry (answer flashcard)) w1)
      end
  end.

(** [FlashcardDeck.ask_questions()] *)
Definition ask_questions (d : FlashcardDeck) (w : World)
  : World * Outcome unit :=
  ask_loop (flashcards d) (flashcards d) 0%Z w.

(** What the quiz reported last: the score and the number of questions it
    is out of. *)
Definition quiz_report (w : World) : option (Z * Z) :=
  match last (stdout w) with
  | Some (MsgQuit score attempted) => Some (score, attempted)
  | Some (MsgFinal score total) => Some (score, total)
  | _ => None
  end.

(** A message that reports a score. *)
Definition is_report (m : Msg) : bool :=
  match m with
  | MsgQuit _ _ | MsgFinal _ _ => true
  | _ => false
  end.

(** What has been printed between the world [w] and the later world
    [w']. *)
Definition printed (w w' : World) : list Msg :=
  drop (length (stdout w)) (stdout w').

(** [FlashcardDeck.add_question(question, answer)] *)
Definition add_question (q a : string) (d : FlashcardDeck) (w : World)
  : World * FlashcardDeck :=
  let qs := questions d ++ [q] in
  let ans := answers d ++ [a] in
  let '(w1, c) := Flashcard_new q a w in
  let cards := flashcards d ++ [c] in
  let w2 := write_file (ques_file d) qs w1 in
  let w3 := write_file (ans_file d) ans w2 in
  (w3, mkDeck (ques_file d) (ans_file d) qs ans cards).

(** [x in l] and [l.index(x)] on a list of strings. *)
Definition contains (x : string) (l : list string) : bool :=
  existsb (fun y => String.eqb y x) l.

Fixpoint index (x : string) (l : list string) : option nat :=
  match l with
  | [] => None
  | y :: r => if String.eqb y x then Some 0 else S <$> index x r
  end.

(** [FlashcardDeck.delete_question(question)].  [del l[index]] raises
    [IndexError] when [index] is not a position of [l]; the deck it leaves
    has lost the question already. *)
Definition delete_question (q : string) (d : FlashcardDeck) (w : World)
  : World * FlashcardDeck * Outcome unit :=
  if contains q (questions d) then
    match index q (questions d) with
    | None => (w, d, Raise (ValueError "question is not in list"))
    | Some idx =>
        let qs := delete idx (questions d) in
        if idx <? length (answers d) then
          let ans := delete idx (answers d) in
          let '(w1, cards) := build_flashcards (zip qs ans) w in
          let w2 := write_file (ques_file d) qs w1 in
          let w3 := write_file (ans_file d) ans w2 in
          (w3, mkDeck (ques_file d) (ans_file d) qs ans cards, Return tt)
        else
          (w,
           mkDeck (ques_file d) (ans_file d) qs (answers d) (flashcards d),
           Raise IndexError)
    end
  else (print MsgNotFound w, d, Return tt).

(** Saving a deck: the two calls of [write_file] that end [add_question]
    and [delete_question], the questions file first. *)
Definition save (d : FlashcardDeck) (w : World) : World :=
  write_file (ans_file d) (answers d)
    (write_file (ques_file d) (questions d) w).

(** ** Properties of decks *)

(** The three sequences of a deck have one length. *)
Definition deck_inv (d : FlashcardDeck) : Prop :=
  length (questions d) = length (answers d)
  /\ length (answers d) = length (flashcards d).

(** The cards are different objects, all created already. *)
Definition distinct_cards (w : World) (d : FlashcardDeck) : Prop :=
  NoDup (oid <$> flashcards d)
  /\ Forall (fun c => oid c < next_id w) (flashcards d).

(** The cards stand in the order of the two files (no shuffle since they
    were last built). *)
Definition in_file_order (d : FlashcardDeck) : Prop :=
  card_text <$> flashcards d = zip (questions d) (answers d).

(** The cards carry the questions with their answers, in some order. *)
Definition cards_of_files (d : FlashcardDeck) : Prop :=
  card_text <$> flashcards d ≡ₚ zip (questions d) (answers d).

(** The decks the program builds, each with a world it can be in: a deck
    comes from the constructor and goes through the methods, while the
    world may move on for other reasons (other objects are created, other
    text is printed or read, files change). *)
Inductive built : World -> FlashcardDeck -> Prop :=
  | built_init question_file answer_file w w' d :
      deck_init question_file answer_file w = (w', Return d) -> built w' d
  | built_shuffle w d :
      built w d -> built (shuffle d w).1 (shuffle d w).2
  | built_ask w d :
      built w d -> built (ask_questions d w).1 d
  | built_add q a w d :
      built w d -> built (add_question q a d w).1 (add_question q a d w).2
  | built_delete q w d :
      built w d ->
      built (delete_question q d w).1.1 (delete_question q d w).1.2
  | built_world w w' d :
      built w d -> next_id w <= next_id w' -> built w' d.

(** The score the answers [responses] earn on [cards], card by card. *)
Fixpoint count_correct (cards : list Flashcard) (responses : list string) : Z :=
  match cards, responses with
  | c :: cs, r :: rs =>
      ((if String.eqb (lower r) (lower (answer c)) then 1 else 0)
       + count_correct cs rs)%Z
  | _, _ => 0%Z
  end.

(** A response that asks to quit. *)
Definition is_quit (r : string) : bool := String.eqb (lower r) "q".

(** Spec: [load] strips trailing whitespace and the newline from each line
    and leaves the rest of the line as it is. *)
Definition spec_load (content : string) : list string :=
  map rstrip (readlines content).

(** Spec: with duplicate cards, the position of the card at which the
    user quits is the first index that holds a card with the same text, and
    the attempted count is that position plus one. *)
Fixpoint spec_first_matching_index (c : Flashcard) (l : list Flashcard)
  : option nat :=
  match l with
  | [] => None
  | y :: r =>
      if String.eqb (question y) (question c)
         && String.eqb (answer y) (answer c)
      then Some 0 else S <$> spec_first_matching_index c r
  end.

Definition spec_attempted (c : Flashcard) (l : list Flashcard) : option Z :=
  (fun i => (Z.of_nat i + 1)%Z) <$> spec_first_matching_index c l.

(** ** Sample decks *)

(** A small directory.  The names [questions], [answers], [cards] and
    [notes] lead to four entries; [./cards] is another name of [cards];
    [notes/x] leads through [notes]; [.] is the directory itself; no other
    name leads anywhere. *)
Definition sample_place (path : string) : Place :=
  if String.eqb path "questions" then At 0
  else if String.eqb path "answers" then At 1
  else if String.eqb path "cards" then At 2
  else if String.eqb path "./cards" then At 2
  else if String.eqb path "notes" then At 3
  else if String.eqb path "notes/x" then Below 3
  else if String.eqb path "." then Folder
  else Unreachable (FileNotFoundError path).

(** A file with this text that can be read and written, and one that can
    only be read. *)
Definition text_file (s : string) : File := mkFile (Text s) true true.

Definition read_only_file (s : string) : File := mkFile (Text s) true false.

(** The directory with the given files, in which new files can be
    made. *)
Definition sample_fs (nodes : gmap nat File) : FileSystem :=
  mkFS sample_place (fun _ => true) nodes.

(** A file system with the two files of the deck
    [("2+2","4"), ("3+3","6"), ("5+5","10")], the given lines on standard
    input, nothing printed and no object created yet. *)
Definition sample_world (responses : list string) : World :=
  mkWorld
    (sample_fs (<[0 := text_file (written ["2+2"; "3+3"; "5+5"])]>
                  (<[1 := text_file (written ["4"; "6"; "10"])]> ∅)))
    responses [] 0 (fun k => k).

(** The deck that [FlashcardDeck("questions", "answers")] builds there. *)
Definition sample_deck : FlashcardDeck :=
  mkDeck "questions" "answers" ["2+2"; "3+3"; "5+5"] ["4"; "6"; "10"]
    [mkFlashcard 0 "2+2" "4"; mkFlashcard 1 "3+3" "6";
     mkFlashcard 2 "5+5" "10"].

(** The world once that deck is built. *)
Definition sample_world_built (responses : list string) : World :=
  mkWorld (files (sample_world responses)) responses [] 3 (fun k => k).

(** The same files, the questions file being one that may not be
    written. *)
Definition locked_world : World :=
  mkWorld
    (sample_fs (<[0 := read_only_file (written ["2+2"; "3+3"; "5+5"])]>
                  (<[1 := text_file (written ["4"; "6"; "10"])]> ∅)))
    [] [] 3 (fun k => k).

(** A deck whose questions and answers are kept in one and the same file
    under two names, as [FlashcardDeck("cards", "./cards")] builds it from
    a file with the single line [x], and the world once it is built. *)
Definition one_file_world : World :=
  mkWorld (sample_fs (<[2 := text_file (written ["x"])]> ∅))
    [] [] 0 (fun k => k).

Definition one_file_deck : FlashcardDeck :=
  mkDeck "cards" "./cards" ["x"] ["x"] [mkFlashcard 0 "x" "x"].

Definition one_file_world_built : World :=
  mkWorld (files one_file_world) [] [] 1 (fun k => k).

(** A deck with the same card text twice, as
    [FlashcardDeck("questions", "answers")] builds it from files that hold
    the line [a] twice and the line [1] twice, and the world once it is
    built. *)
Definition twin_deck : FlashcardDeck :=
  mkDeck "questions" "answers" ["a"; "a"] ["1"; "1"]
    [mkFlashcard 0 "a" "1"; mkFlashcard 1 "a" "1"].

Definition twin_world (responses : list string) : World :=
  mkWorld
    (sample_fs (<[0 := text_file (written ["a"; "a"])]>
                  (<[1 := text_file (written ["1"; "1"])]> ∅)))
    responses [] 0 (fun k => k).

Definition twin_world_built (responses : list string) : World :=
  mkWorld (files (twin_world responses)) responses [] 2 (fun k => k).

(** A deck whose answers have capital letters, and a world in which it
    is built. *)
Definition capital_deck : FlashcardDeck :=
  mkDeck "questions" "answers" ["France"; "Italy"] ["Paris"; "ROME"]
    [mkFlashcard 0 "France" "Paris"; mkFlashcard 1 "Italy" "ROME"].

Definition capital_world_built (responses : list string) : World :=
  mkWorld
    (sample_fs (<[0 := text_file (written ["France"; "Italy"])]>
                  (<[1 := text_file (written ["Paris"; "ROME"])]> ∅)))
    responses [] 2 (fun k => k).

(** A questions file and an answers file whose only lines have blanks
    around them. *)
Definition padded_world (responses : list string) : World :=
  mkWorld
    (sample_fs (<[0 := text_file (written ["  2+2 "])]>
                  (<[1 := text_file (written [" 4"])]> ∅)))
    responses [] 0 (fun k => k).

(** The deck built from two empty files, and the world once it is built. *)
Definition empty_world : World :=
  mkWorld
    (sample_fs (<[0 := text_file EmptyString]>
                  (<[1 := text_file EmptyString]> ∅)))
    [] [] 0 (fun k => k).

Definition empty_deck : FlashcardDeck :=
  mkDeck "questions" "answers" [] [] [].

(** The directory with the one file [notes]. *)
Definition notes_world (responses : list string) : World :=
  mkWorld (sample_fs (<[3 := text_file (written ["x"])]> ∅))
    responses [] 0 (fun k => k).

(** The directory without any file. *)
Definition bare_world (responses : list string) : World :=
  mkWorld (sample_fs ∅) responses [] 0 (fun k => k).

(** Two files out of step: two questions and one answer. *)
Definition uneven_world (responses : list string) : World :=
  mkWorld
    (sample_fs (<[0 := text_file (written ["2+2"; "3+3"])]>
                  (<[1 := text_file (written ["4"])]> ∅)))
    responses [] 0 (fun k => k).

(** ** The menu: flashcard_app *)

(** What [flashcard_app] prints itself. *)
Inductive AppMsg :=
  | AskQuestionFile       (* Enter the question file: *)
  | AskAnswerFile         (* Enter the answer file: *)
  | BothRequired          (* Both question and answer files are required. *)
  | CreatingFiles         (* No existing question and answer files found.
                             ...Creating new question and answer files... *)
  | OptionsAvailable      (* Options Available: *)
  | Option1               (* 1. Take the test *)
  | Option2               (* 2. Add a question *)
  | Option3               (* 3. Delete a question *)
  | Option4               (* 4. Quit *)
  | AskOption             (* Choose an option: *)
  | AskQuestion           (* Enter the question: *)
  | AskAnswer             (* Enter the answer: *)
  | AskDelete             (* Enter the question to delete: *)
  | ThankYou              (* Thank you! *)
  | InvalidOption         (* Invalid option. Please try again. *)
  | ErrorOccurred (e : Exn).   (* An error occurred: {e} *)

(** A line on the screen comes from a method of the deck or from the
    menu. *)
Inductive Line :=
  | FromDeck (m : Msg)
  | FromApp (m : AppMsg).

(** The state of the running application: the world, and the screen with
    the lines of the deck and of the menu in the order they were printed. *)
Record App := mkApp {
  world : World;
  screen : list Line
}.

(** [print(...)] in [flashcard_app]. *)
Definition say (m : AppMsg) (a : App) : App :=
  mkApp (world a) (screen a ++ [FromApp m]).

(** The world after [input(prompt)] of the menu has returned a line,
    [rest] being the lines after it. *)
Definition app_answered (prompt : AppMsg) (rest : list string) (a : App)
  : App :=
  mkApp (mkWorld (files (world a)) rest (stdout (world a))
           (next_id (world a)) (rng (world a)))
    (screen a ++ [FromApp prompt]).

(** [input(prompt)] in [flashcard_app]. *)
Definition app_input (prompt : AppMsg) (a : App) : App * Outcome string :=
  let a1 := say prompt a in
  match stdin (world a1) with
  | [] => (a1, Raise EOFError)
  | line :: rest =>
      (mkApp (mkWorld (files (world a1)) rest (stdout (world a1))
                (next_id (world a1)) (rng (world a1)))
         (screen a1),
       Return line)
  end.

(** What a call that took the world from [w] to [w'] has printed. *)
Definition shown (w w' : World) : list Line :=
  FromDeck <$> drop (length (stdout w)) (stdout w').

(** A call of a method of the deck from the menu: the method runs in the
    world, and what it prints appears on the screen. *)
Definition run {A : Type} (f : World -> World * A) (a : App) : App * A :=
  let '(w', x) := f (world a) in
  (mkApp w' (screen a ++ shown (world a) w'), x).

(** [os.path.exists(path)]: true of a regular file and of a directory. *)
Definition path_exists (path : string) (w : World) : bool :=
  match locate path (files w) with
  | At k =>
      match nodes (files w) !! k with
      | Some _ => true
      | None => false
      end
  | Folder => true
  | _ => false
  end.

(** [with open(path, 'w') as f: f.write("")] *)
Definition create_empty (path : string) (a : App) : App * Outcome unit :=
  match open_w path (files (world a)) with
  | Return k =>
      (mkApp (set_files (put k EmptyString (files (world a))) (world a))
         (screen a),
       Return tt)
  | Raise e => (a, Raise e)
  end.

(** The start of [flashcard_app], up to the loop: the two paths the loop
    will work on. *)
Definition startup (a : App) : App * Outcome (string * string) :=
  match app_input AskQuestionFile a with
  | (a, Raise e) => (a, Raise e)
  | (a, Return question_file) =>
      match app_input AskAnswerFile a with
      | (a, Raise e) => (a, Raise e)
      | (a, Return answer_file) =>
          let a :=
            if String.eqb question_file EmptyString
               || String.eqb answer_file EmptyString
            then say BothRequired a else a in
          if negb (path_exists question_file (world a))
             || negb (path_exists answer_file (world a))
          then
            let a := say CreatingFiles a in
            match create_empty "questions" a with
            | (a, Raise e) => (a, Raise e)
            | (a, Return _) =>
                match create_empty "answers" a with
                | (a, Raise e) => (a, Raise e)
                | (a, Return _) => (a, Return ("questions", "answers"))
                end
            end
          else (a, Return (question_file, answer_file))
      end
  end.

(** How one turn of [while True] ends. *)
Inductive Step :=
  | Continue
  | Break
  | Throw (e : Exn).

(** [deck.delete_question(question)], for its effect and outcome. *)
Definition delete_call (q : string) (d : FlashcardDeck) (w : World)
  : World * Outcome unit :=
  ((delete_question q d w).1.1, (delete_question q d w).2).

(** One turn of the loop of [flashcard_app]. *)
Definition menu_step (question_file answer_file : string) (a : App)
  : App * Step :=
  let a := say OptionsAvailable a in
  match open_r question_file (files (world a)) with
  | Raise e => (a, Throw e)
  | Return text =>
      let is_question_file_empty :=
        String.eqb (universal_newlines text) EmptyString in
      let a := if negb is_question_file_empty then say Option1 a else a in
      let a := say Option4 (say Option3 (say Option2 a)) in
      match app_input AskOption a with
      | (a, Raise e) => (a, Throw e)
      | (a, Return opt) =>
          if String.eqb opt "1" && negb is_question_file_empty then
            match run (deck_init question_file answer_file) a with
            | (a, Raise e) => (a, Throw e)
            | (a, Return deck) =>
                let '(a, deck) := run (shuffle deck) a in
                match run (ask_questions deck) a with
                | (a, Raise e) => (a, Throw e)
                | (a, Return _) => (a, Continue)
                end
            end
          else if String.eqb opt "2" then
            match app_input AskQuestion a with
            | (a, Raise e) => (a, Throw e)
            | (a, Return q) =>
                match app_input AskAnswer a with
                | (a, Raise e) => (a, Throw e)
                | (a, Return ans) =>
                    match run (deck_init question_file answer_file) a with
                    | (a, Raise e) => (a, Throw e)
                    | (a, Return deck) =>
                        let '(a, _) := run (add_question q ans deck) a in
                        (a, Continue)
                    end
                end
            end
          else if String.eqb opt "3" then
            match app_input AskDelete a with
            | (a, Raise e) => (a, Throw e)
            | (a, Return q) =>
                match run (deck_init question_file answer_file) a with
                | (a, Raise e) => (a, Throw e)
                | (a, Return deck) =>
                    match run (delete_call q deck) a with
                    | (a, Raise e) => (a, Throw e)
                    | (a, Return _) => (a, Continue)
                    end
                end
            end
          else if String.eqb opt "4" then (say ThankYou a, Break)
          else (say InvalidOption a, Continue)
      end
  end.

(** The loop [while True], for at most [fuel] turns: the state it ends in
    and the exception that ended it, if one did. *)
Fixpoint menu_loop (fuel : nat) (question_file answer_file : string)
    (a : App) : option (App * option Exn) :=
  match fuel with
  | 0 => None
  | S fuel' =>
      match menu_step question_file answer_file a with
      | (a', Continue) => menu_loop fuel' question_file answer_file a'
      | (a', Break) => Some (a', None)
      | (a', Throw e) => Some (a', Some e)
      end
  end.

(** [flashcard_app()]: every exception of the body is caught and
    reported. *)
Definition flashcard_app (fuel : nat) (w : World) : option App :=
  match startup (mkApp w []) with
  | (a, Raise e) => Some (say (ErrorOccurred e) a)
  | (a, Return (question_file, answer_file)) =>
      match menu_loop fuel question_file answer_file a with
      | None => None
      | Some (a', None) => Some a'
      | Some (a', Some e) => Some (say (ErrorOccurred e) a')
      end
  end.

(** * Lemmas on strings *)

#[local] Arguments String.append : simpl nomatch.

Section Strings.

Implicit Types (s t : string) (c : ascii).

Lemma append_nil_r s : s +:+ EmptyString = s.
Proof. induction s as [|c s IH]; simpl; [done | by rewrite IH]. Qed.

Lemma append_assoc s t u : (s +:+ t) +:+ u = s +:+ (t +:+ u).
Proof. induction s as [|c s IH]; simpl; [done | by rewrite IH]. Qed.

Lemma isspace_LF : isspace LF = true.
Proof. reflexivity. Qed.

(** Only q and Q become q. *)
Lemma lower_char_q c :
  lower_char c = "q"%char -> c = "q"%char \/ c = "Q"%char.
Proof.
  destruct c as [[] [] [] [] [] [] [] []]; vm_compute;
    intros H; first [discriminate H | by left | by right].
Qed.

Lemma lower_q s : lower s = "q" <-> s = "q" \/ s = "Q".
Proof.
  split.
  - destruct s as [|c [|c' s]]; simpl; intros H; try discriminate H.
    injection H as H. destruct (lower_char_q c H) as [-> | ->]; auto.
  - by intros [-> | ->].
Qed.

Lemma is_quit_spec r : is_quit r = true <-> r = "q" \/ r = "Q".
Proof.
  unfold is_quit. rewrite String.eqb_eq. apply lower_q.
Qed.

(** [lstrip] removes a run of whitespace from the front, all of it. *)
Lemma lstrip_spec s :
  exists pre, s = pre +:+ lstrip s /\ all_space pre = true
              /\ starts_with_space (lstrip s) = false.
Proof.
  induction s as [|c s (pre & Hs & Hpre & Hno)]; simpl.
  - by exists EmptyString.
  - destruct (isspace c) eqn:Hc.
    + exists (String c pre). simpl. rewrite Hc, Hpre, <- Hs. done.
    + exists EmptyString. simpl. by rewrite Hc.
Qed.

(** [rstrip] removes a run of whitespace from the back, all of it. *)
Lemma rstrip_spec s :
  exists post, s = rstrip s +:+ post /\ all_space post = true
               /\ ends_with_space (rstrip s) = false.
Proof.
  induction s as [|c s (post & Hs & Hpost & Hno)]; simpl.
  - by exists EmptyString.
  - destruct (rstrip s) as [|c' r'] eqn:Hr.
    + simpl in Hs. subst post. destruct (isspace c) eqn:Hc.
      * exists (String c s). simpl. rewrite Hc, Hpost. done.
      * exists s. simpl. rewrite Hc. done.
    + exists post. simpl in *. rewrite <- Hs. done.
Qed.

Lemma rstrip_keeps_start s :
  starts_with_space s = false -> starts_with_space (rstrip s) = false.
Proof.
  destruct s as [|c s]; simpl; [done |]. intros Hc.
  destruct (rstrip s); [by rewrite Hc | done].
Qed.

(** [strip]: the line is whitespace, then the result, then whitespace,
    and the result neither starts nor ends with whitespace. *)
Lemma strip_spec s :
  exists pre post,
    s = pre +:+ strip s +:+ post
    /\ all_space pre = true /\ all_space post = true
    /\ starts_with_space (strip s) = false
    /\ ends_with_space (strip s) = false.
Proof.
  destruct (lstrip_spec s) as (pre & Hs & Hpre & Hstart).
  destruct (rstrip_spec (lstrip s)) as (post & Hl & Hpost & Hend).
  exists pre, post. unfold strip. rewrite <- Hl.
  repeat split; auto using rstrip_keeps_start.
Qed.

Lemma lstrip_id s : starts_with_space s = false -> lstrip s = s.
Proof. destruct s as [|c s]; simpl; [done |]. by intros ->. Qed.

Lemma rstrip_id s : ends_with_space s = false -> rstrip s = s.
Proof.
  induction s as [|c s IH]; simpl; [done |].
  destruct s as [|c' s']; [by intros -> |].
  intros H. rewrite (IH H). done.
Qed.

Lemma rstrip_app_space s c :
  isspace c = true -> rstrip (s +:+ String c EmptyString) = rstrip s.
Proof.
  intros Hc. induction s as [|c' s IH]; simpl.
  - by rewrite Hc.
  - by rewrite IH.
Qed.

Lemma lstrip_app_space s c :
  starts_with_space s = false -> isspace c = true ->
  lstrip (s +:+ String c EmptyString)
  = match s with
    | EmptyString => EmptyString
    | _ => s +:+ String c EmptyString
    end.
Proof.
  destruct s as [|c' s]; simpl; [by intros _ -> | by intros ->].
Qed.

(** The line break that ends a line goes with the whitespace before it. *)
Lemma strip_line s : strip (s +:+ String LF EmptyString) = strip s.
Proof.
  unfold strip. induction s as [|c s IH]; simpl; [done |].
  destruct (isspace c); [done |].
  change (String c (s +:+ String LF EmptyString))
    with (String c s +:+ String LF EmptyString).
  by rewrite rstrip_app_space.
Qed.

(** The line written for a plain entry strips back to the entry. *)
Lemma strip_written_line s :
  starts_with_space s = false -> ends_with_space s = false ->
  strip (s +:+ String LF EmptyString) = s.
Proof.
  intros H1 H2. unfold strip.
  rewrite lstrip_app_space by auto using isspace_LF.
  destruct s as [|c s]; [done |].
  rewrite rstrip_app_space by apply isspace_LF. by apply rstrip_id.
Qed.

(** A text without CR is read as it is. *)
Lemma universal_newlines_line s t :
  has_line_break s = false ->
  universal_newlines (s +:+ t) = s +:+ universal_newlines t.
Proof.
  induction s as [|c s IH]; simpl; [done |].
  intros H. apply orb_false_elim in H as [H Hs].
  apply orb_false_elim in H as [_ Hc]. rewrite Hc. by rewrite IH.
Qed.

Lemma universal_newlines_written (ls : list string) :
  Forall (fun l => has_line_break l = false) ls ->
  universal_newlines (written ls) = written ls.
Proof.
  induction 1 as [|l ls Hl _ IH]; simpl; [done |].
  rewrite append_assoc, universal_newlines_line by done.
  simpl. by rewrite IH.
Qed.

(** A line without LF, then LF, is cut off as one line. *)
Lemma split_lines_line s t :
  has_line_break s = false ->
  split_lines (s +:+ String LF t)
  = (s +:+ String LF EmptyString) :: split_lines t.
Proof.
  induction s as [|c s IH]; simpl; [done |].
  intros H. apply orb_false_elim in H as [H Hs].
  apply orb_false_elim in H as [Hc _]. rewrite Hc. by rewrite IH.
Qed.

Lemma split_lines_written (ls : list string) :
  Forall (fun l => has_line_break l = false) ls ->
  split_lines (written ls) = map (fun l => l +:+ String LF EmptyString) ls.
Proof.
  induction 1 as [|l ls Hl _ IH]; simpl; [done |].
  rewrite append_assoc. simpl.
  rewrite split_lines_line by done. by rewrite IH.
Qed.

Lemma plain_spec s :
  plain s = true <->
  starts_with_space s = false /\ ends_with_space s = false
  /\ has_line_break s = false.
Proof.
  unfold plain. rewrite !andb_true_iff, !negb_true_iff. tauto.
Qed.

(** Writing plain entries and reading the text back gives the entries. *)
Lemma read_back (ls : list string) :
  Forall (fun l => plain l = true) ls ->
  map strip (readlines (written ls)) = ls.
Proof.
  intros Hplain.
  assert (Forall (fun l => has_line_break l = false) ls) as Hnb.
  { eapply Forall_impl; [exact Hplain |]. intros l Hl.
    by apply plain_spec in Hl as (_ & _ & ?). }
  unfold readlines.
  rewrite universal_newlines_written, split_lines_written by done.
  rewrite map_map. clear Hnb.
  induction Hplain as [|l ls Hl _ IH]; simpl; [done |].
  apply plain_spec in Hl as (H1 & H2 & _).
  by rewrite strip_written_line, IH.
Qed.

(** Text read with universal newlines has no CR left. *)
Lemma universal_newlines_no_CR s : has_CR (universal_newlines s) = false.
Proof.
  cut (has_CR (universal_newlines s) = false
       /\ forall c, has_CR (universal_newlines (String c s)) = false);
    [by intros [? _] |].
  induction s as [|a r [IH1 IH2]].
  - split; [done |]. intros c. simpl.
    by destruct (Ascii.eqb_spec c CR) as [-> | Hc]; simpl;
      [|apply Ascii.eqb_neq in Hc; rewrite Hc].
  - split; [apply IH2 |]. intros c.
    change (universal_newlines (String c (String a r)))
      with (if Ascii.eqb c CR
            then String LF (if Ascii.eqb a LF then universal_newlines r
                            else universal_newlines (String a r))
            else String c (universal_newlines (String a r))).
    destruct (Ascii.eqb c CR) eqn:Hc.
    + cbn [has_CR]. destruct (Ascii.eqb a LF); [exact IH1 | apply IH2].
    + cbn [has_CR]. rewrite Hc. apply IH2.
Qed.

(** The lines cut from such a text have their line break, if any, at the
    end. *)
Lemma split_lines_breaks s :
  has_CR s = false ->
  Forall (fun l => break_only_last l = true) (split_lines s).
Proof.
  induction s as [|c s IH]; simpl; [constructor |].
  intros H. apply orb_false_elim in H as [Hc Hs]. specialize (IH Hs).
  destruct (Ascii.eqb c LF) eqn:Hlf.
  - by constructor.
  - destruct (split_lines s) as [|l ls]; [by repeat constructor |].
    apply Forall_cons in IH as [Hl Hls]. constructor; [|done].
    simpl. rewrite Hlf, Hc, Hl. by destruct l.
Qed.

Lemma lstrip_breaks s :
  break_only_last s = true -> break_only_last (lstrip s) = true.
Proof.
  induction s as [|c s IH]; simpl; [done |].
  destruct (isspace c); [|done].
  destruct s as [|c' s']; [done |].
  intros H. apply andb_true_iff in H as [_ H]. by apply IH.
Qed.

Lemma isspace_break c :
  isspace c = false -> Ascii.eqb c LF || Ascii.eqb c CR = false.
Proof.
  intros H. apply orb_false_iff. split; apply Ascii.eqb_neq; intros ->;
    discriminate H.
Qed.

Lemma rstrip_breaks s :
  break_only_last s = true -> has_line_break (rstrip s) = false.
Proof.
  induction s as [|c s IH]; [done |].
  intros H. cbn [rstrip].
  destruct s as [|c' s'].
  - simpl. destruct (isspace c) eqn:Hc; [done |].
    simpl. by rewrite isspace_break.
  - cbn [break_only_last] in H. apply andb_true_iff in H as [Hc H].
    apply negb_true_iff in Hc. specialize (IH H).
    destruct (rstrip (String c' s')) as [|c'' r''].
    + destruct (isspace c); [done |]. simpl. by rewrite Hc.
    + cbn [has_line_break] in *. by rewrite Hc, IH.
Qed.

(** The lines that [split_lines] cuts are the text, piece by piece. *)
Lemma split_lines_concat s :
  foldr String.append EmptyString (split_lines s) = s.
Proof.
  induction s as [|c s IH]; simpl; [done |].
  destruct (Ascii.eqb c LF); simpl; [by rewrite IH |].
  destruct (split_lines s) as [|l ls]; simpl in *; by rewrite <- IH.
Qed.

(** A new entry is written after the ones before it. *)
Lemma written_snoc (data : list string) (line : string) :
  written (data ++ [line])
  = written data +:+ line +:+ String LF EmptyString.
Proof.
  induction data as [|l data IH]; simpl.
  - by rewrite append_nil_r.
  - by rewrite IH, !append_assoc.
Qed.

End Strings.

(** The lines that [split_lines] cuts: one line starts the text, and the
    rest of the text follows it. *)
Section Cutting.

Implicit Types (s t l : string) (c : ascii).

Lemma ends_with_LF_cons c s :
  s <> EmptyString -> ends_with_LF (String c s) = ends_with_LF s.
Proof. by destruct s. Qed.

Lemma split_lines_one_line l rest :
  one_line l = true ->
  split_lines (l +:+ rest)
  = if ends_with_LF l then l :: split_lines rest
    else match split_lines rest with
         | [] => [l]
         | l' :: ls => (l +:+ l') :: ls
         end.
Proof.
  induction l as [|c l IH]; [done |].
  destruct l as [|c' l'].
  - intros _. simpl. by destruct (Ascii.eqb c LF).
  - intros [Hc Hl]%andb_true_iff. apply negb_true_iff in Hc.
    specialize (IH Hl).
    change (String c (String c' l') +:+ rest)
      with (String c (String c' l' +:+ rest)).
    cbn [split_lines]. rewrite Hc, IH.
    rewrite (ends_with_LF_cons c (String c' l')) by done.
    destruct (ends_with_LF (String c' l')); [done |].
    by destruct (split_lines rest).
Qed.

(** [split_lines] cuts a text into lines. *)
Lemma split_lines_cut s : cut_in_lines (split_lines s).
Proof.
  induction s as [|c s IH]; simpl; [done |].
  destruct (Ascii.eqb c LF) eqn:Hc.
  - destruct (split_lines s) as [|l ls]; [done |].
    split; [done |]. split; [exact Hc | exact IH].
  - destruct (split_lines s) as [|l ls]; [done |].
    assert (one_line l = true) as Hl.
    { destruct ls; [exact IH | exact (proj1 IH)]. }
    assert (one_line (String c l) = true) as H1.
    { destruct l as [|c2 l]; [done |].
      change (negb (Ascii.eqb c LF) && one_line (String c2 l) = true).
      by rewrite Hc, Hl. }
    destruct ls as [|l2 ls]; [exact H1 |].
    destruct IH as (_ & He & Hls).
    split; [exact H1 |]. split; [|exact Hls].
    destruct l as [|c2 l]; [done |].
    by rewrite (ends_with_LF_cons c (String c2 l)).
Qed.

(** There is one way only to cut a text into lines. *)
Lemma cut_in_lines_unique (ls : list string) :
  cut_in_lines ls ->
  split_lines (foldr String.append EmptyString ls) = ls.
Proof.
  induction ls as [|l ls IH]; [done |].
  destruct ls as [|l2 ls].
  - intros Hl. simpl. rewrite (split_lines_one_line l EmptyString Hl).
    by destruct (ends_with_LF l).
  - intros (Hl & He & Hls). specialize (IH Hls).
    change (foldr String.append EmptyString (l :: l2 :: ls))
      with (l +:+ foldr String.append EmptyString (l2 :: ls)).
    by rewrite (split_lines_one_line l _ Hl), He, IH.
Qed.

End Cutting.
(** * Lemmas on the world and on cards *)

Section Worlds.

Implicit Types (w : World) (d : FlashcardDeck) (c : Flashcard).

(** Creating cards touches nothing but the allocator; the cards carry
    the given texts, in order, and new, consecutive identities. *)
Lemma build_flashcards_spec (pairs : list (string * string)) w :
  let r := build_flashcards pairs w in
  r.1 = mkWorld (files w) (stdin w) (stdout w)
          (next_id w + length pairs) (rng w)
  /\ card_text <$> r.2 = pairs
  /\ oid <$> r.2 = seq (next_id w) (length pairs).
Proof.
  revert w. induction pairs as [|[q a] rest IH]; intros w; simpl.
  - rewrite Nat.add_0_r. by destruct w.
  - specialize (IH (Flashcard_new q a w).1). simpl in IH.
    destruct (build_flashcards rest _) as [w2 cs].
    simpl in *. destruct IH as (Hw & Ht & Hi). repeat split.
    + rewrite Hw. f_equal. lia.
    + f_equal. exact Ht.
    + f_equal. exact Hi.
Qed.

Lemma build_flashcards_length (pairs : list (string * string)) w :
  length (build_flashcards pairs w).2 = length pairs.
Proof.
  destruct (build_flashcards_spec pairs w) as (_ & H & _).
  rewrite <- H at 2. by rewrite length_fmap.
Qed.

Lemma seq_lt (a n x : nat) : x ∈ seq a n -> a <= x < a + n.
Proof. rewrite list_elem_of_In, in_seq. done. Qed.

Lemma build_flashcards_distinct (pairs : list (string * string)) w :
  let r := build_flashcards pairs w in
  NoDup (oid <$> r.2) /\ Forall (fun c => oid c < next_id r.1) r.2.
Proof.
  destruct (build_flashcards_spec pairs w) as (Hw & _ & Hid). simpl in *.
  split.
  - rewrite Hid. apply NoDup_ListNoDup, seq_NoDup.
  - rewrite Hw. simpl. apply Forall_forall. intros c Hc.
    assert (oid c ∈ oid <$> (build_flashcards pairs w).2) as Hin
      by (by apply list_elem_of_fmap_2).
    rewrite Hid in Hin. apply seq_lt in Hin. lia.
Qed.

(** The three ways [read_file] can go: the file is read; it is not
    found, which is reported and gives no line; or opening it raises
    another exception, which leaves [read_file]. *)
Lemma read_file_cases (filename : string) w :
  (exists text,
      open_r filename (files w) = Return text
      /\ read_file filename w = (w, Return (map strip (readlines text))))
  \/ (exists p,
        open_r filename (files w) = Raise (FileNotFoundError p)
        /\ read_file filename w
           = (print (MsgFileNotFound filename) w, Return []))
  \/ (exists e,
        open_r filename (files w) = Raise e
        /\ (forall p, e <> FileNotFoundError p)
        /\ read_file filename w = (w, Raise e)).
Proof.
  unfold read_file. destruct (open_r filename (files w)) as [text|e].
  - left. by exists text.
  - destruct e as [msg| | |[| | | |code] p|];
      try (right; right; eexists; by repeat split).
    right. left. by exists p.
Qed.

(** Reading a file leaves the world as it is, a message apart. *)
Lemma read_file_world filename w :
  let r := read_file filename w in
  files r.1 = files w /\ stdin r.1 = stdin w
  /\ next_id r.1 = next_id w /\ rng r.1 = rng w.
Proof.
  destruct (read_file_cases filename w)
    as [(? & _ & ->) | [(? & _ & ->) | (? & _ & _ & ->)]]; done.
Qed.

Lemma read_file_lines filename w w0 :
  files w0 = files w -> (read_file filename w0).2 = (read_file filename w).2.
Proof.
  intros H. unfold read_file. rewrite H.
  destruct (open_r filename (files w)) as [text|e]; [done |].
  by destruct e as [msg| | |[| | | |code] p|].
Qed.

(** What [read_file] prints: nothing, or that the file is not found. *)
Lemma read_file_stdout filename w :
  stdout (read_file filename w).1 = stdout w
  \/ stdout (read_file filename w).1 = stdout w ++ [MsgFileNotFound filename].
Proof.
  destruct (read_file_cases filename w)
    as [(? & _ & ->) | [(? & _ & ->) | (? & _ & _ & ->)]]; auto.
Qed.

(** The cases of the constructor. *)
Lemma deck_init_unfold question_file answer_file w :
  let w1 := (read_file question_file w).1 in
  let w2 := (read_file answer_file w1).1 in
  deck_init question_file answer_file w
  = match (read_file question_file w).2 with
    | Raise e => (w1, Raise e)
    | Return qs =>
        match (read_file answer_file w).2 with
        | Raise e => (w2, Raise e)
        | Return ans =>
            if negb (length qs =? length ans) then
              (w2,
               Raise (ValueError
                        "Number of questions and answers must be the same"))
            else
              ((build_flashcards (zip qs ans) w2).1,
               Return (mkDeck question_file answer_file qs ans
                         (build_flashcards (zip qs ans) w2).2))
        end
    end.
Proof.
  simpl. unfold deck_init.
  pose proof (read_file_world question_file w) as (Hf & _).
  pose proof (read_file_lines answer_file w _ Hf) as Hl.
  destruct (read_file question_file w) as [w1 [qs|e]]; [|done].
  simpl in *.
  destruct (read_file answer_file w1) as [w2 [ans|e]]; simpl in *;
    rewrite <- Hl; [|done].
  destruct (negb _); [done |].
  by destruct (build_flashcards _ w2).
Qed.

(** A deck that the constructor returns. *)
Lemma deck_init_Return question_file answer_file w w' d :
  deck_init question_file answer_file w = (w', Return d) ->
  exists qs ans,
    (read_file question_file w).2 = Return qs
    /\ (read_file answer_file w).2 = Return ans
    /\ length qs = length ans
    /\ w' = (build_flashcards (zip qs ans)
               (read_file answer_file (read_file question_file w).1).1).1
    /\ d = mkDeck question_file answer_file qs ans
             (build_flashcards (zip qs ans)
                (read_file answer_file (read_file question_file w).1).1).2.
Proof.
  rewrite deck_init_unfold. simpl.
  destruct (read_file question_file w).2 as [qs|e]; [|done].
  destruct (read_file answer_file w).2 as [ans|e]; [|done].
  destruct (Nat.eqb_spec (length qs) (length ans)) as [Hlen | _];
    simpl; [|done].
  intros [= <- <-]. by exists qs, ans.
Qed.

Lemma zip_length_eq {A B} (l : list A) (k : list B) :
  length l = length k -> length (zip l k) = length l.
Proof. intros H. rewrite length_zip_with. lia. Qed.

(** [swap] and the shuffle keep the cards, in another order. *)
Lemma swap_perm {A} (i j : nat) (x : list A) : swap i j x ≡ₚ x.
Proof.
  unfold swap. destruct (x !! j) as [xj|] eqn:Hj; [|done].
  destruct (x !! i) as [xi|] eqn:Hi; [|done].
  by apply Permutation_insert_swap.
Qed.

Lemma shuffle_loop_spec {A} (i : nat) (x : list A) w :
  let r := shuffle_loop i x w in
  r.2 ≡ₚ x /\ files r.1 = files w /\ stdin r.1 = stdin w
  /\ stdout r.1 = stdout w /\ next_id r.1 = next_id w.
Proof.
  revert x w. induction i as [|i IH]; intros x w; simpl; [done |].
  destruct (IH (swap (S i) (rng w 0 mod (S i + 1)) x)
              (randbelow (S i + 1) w).1) as (Hp & Hrest).
  split; [|exact Hrest].
  rewrite Hp. apply swap_perm.
Qed.

(** [list.index] on objects finds the position of a card of a deck. *)
Lemma index_obj_lookup (l : list Flashcard) (i : nat) c :
  NoDup (oid <$> l) -> l !! i = Some c -> index_obj c l = Some i.
Proof.
  revert i. induction l as [|y r IH]; intros i Hnd Hi; [done |].
  rewrite fmap_cons in Hnd. apply NoDup_cons in Hnd as [Hy Hr].
  destruct i as [|i]; simpl in *.
  - injection Hi as ->. by rewrite Nat.eqb_refl.
  - destruct (Nat.eqb_spec (oid y) (oid c)) as [Heq | _].
    + exfalso. apply Hy. rewrite Heq.
      apply list_elem_of_fmap_2. by eapply list_elem_of_lookup_2.
    + by rewrite (IH i Hr Hi).
Qed.

(** [x in l] holds exactly when [l.index(x)] finds a position, and that
    position is the first one that holds [x]. *)
Lemma contains_spec (x : string) (l : list string) :
  contains x l = true <-> x ∈ l.
Proof.
  unfold contains. rewrite existsb_exists. split.
  - intros (y & Hy & Heq). apply String.eqb_eq in Heq as ->.
    by apply list_elem_of_In.
  - intros Hx. exists x. split; [by apply list_elem_of_In |].
    apply String.eqb_refl.
Qed.

Lemma index_Some (x : string) (l : list string) (i : nat) :
  index x l = Some i <->
  l !! i = Some x /\ forall j, j < i -> l !! j <> Some x.
Proof.
  revert i. induction l as [|y r IH]; intros i; simpl.
  - split; [done | by intros [? _]].
  - destruct (String.eqb_spec y x) as [-> | Hne].
    + split.
      * intros [= <-]. split; [done |]. lia.
      * intros [Hi Hfirst]. destruct i as [|i]; [done |].
        exfalso. apply (Hfirst 0); [lia | done].
    + destruct i as [|i]; simpl.
      * split; [by destruct (index x r) | intros [[= ?] _]; done].
      * split.
        -- destruct (index x r) as [k|]; [|done]. intros [= <-].
           destruct (proj1 (IH k) eq_refl) as [Hi Hfirst]. split; [done |].
           intros [|j] Hj; simpl; [congruence | apply Hfirst; lia].
        -- intros [Hi Hfirst].
           assert (index x r = Some i) as ->; [|done].
           apply IH. split; [done |].
           intros j Hj. apply (Hfirst (S j)). lia.
Qed.

Lemma index_None (x : string) (l : list string) :
  index x l = None <-> x ∉ l.
Proof.
  induction l as [|y r IH]; simpl.
  - split; [intros _; apply not_elem_of_nil | done].
  - rewrite not_elem_of_cons.
    destruct (String.eqb_spec y x) as [-> | Hne].
    + split; [done | by intros [? _]].
    + destruct (index x r); simpl.
      * split; [done |]. intros [_ H]. by apply IH in H.
      * split; [|done]. intros _. split; [congruence | by apply IH].
Qed.

(** Every line that [read_file] returns is plain. *)
Lemma read_file_plain (filename : string) w (ls : list string) :
  (read_file filename w).2 = Return ls ->
  Forall (fun l => plain l = true) ls.
Proof.
  destruct (read_file_cases filename w)
    as [(text & _ & ->) | [(? & _ & ->) | (? & _ & _ & ->)]]; simpl;
    intros [= <-]; [|constructor].
  apply Forall_fmap, Forall_forall. intros l Hl. simpl.
  pose proof (split_lines_breaks _ (universal_newlines_no_CR text)) as Hb.
  rewrite Forall_forall in Hb. specialize (Hb l Hl).
  destruct (strip_spec l) as (_ & _ & _ & _ & _ & Hstart & Hend).
  apply plain_spec. repeat split; [done.. |].
  unfold strip. by apply rstrip_breaks, lstrip_breaks.
Qed.

End Worlds.

(** * Lemmas on the file system *)

Section FileSystems.

Implicit Types (fs : FileSystem) (k j : nat) (path p q : string).
Implicit Types (w : World) (text t u : string).

Lemma locate_put path k t fs : locate path (put k t fs) = locate path fs.
Proof. reflexivity. Qed.

Lemma nodes_put_eq k t fs :
  nodes (put k t fs) !! k
  = Some match nodes fs !! k with
         | Some f => mkFile (Text t) (readable f) (writable f)
         | None => mkFile (Text t) true true
         end.
Proof. unfold put. simpl. by rewrite lookup_insert_eq. Qed.

Lemma nodes_put_ne k j t fs :
  k <> j -> nodes (put k t fs) !! j = nodes fs !! j.
Proof. intros H. unfold put. simpl. by rewrite lookup_insert_ne. Qed.

(** Writing twice to one entry leaves the second text; writes to two
    entries can be done in either order. *)
Lemma put_put_eq k t u fs : put k t (put k u fs) = put k t fs.
Proof.
  unfold put. simpl. rewrite lookup_insert_eq, insert_insert_eq.
  by destruct (nodes fs !! k).
Qed.

Lemma put_put_comm k j t u fs :
  k <> j -> put k t (put j u fs) = put j u (put k t fs).
Proof.
  intros H. unfold put. simpl.
  rewrite !lookup_insert_ne by done. f_equal.
  by apply insert_insert_ne.
Qed.

(** A path that can be opened for writing leads to the entry opened. *)
Lemma open_w_locate path fs k :
  open_w path fs = Return k -> locate path fs = At k.
Proof.
  unfold open_w. destruct (locate path fs) as [j|j| |e]; try done.
  - destruct (nodes fs !! j) as [f|].
    + destruct (writable f); [by intros [= ->] | done].
    + destruct (creatable fs j); [by intros [= ->] | done].
  - by destruct (nodes fs !! j).
Qed.

Lemma write_entry_Some path fs k :
  write_entry path fs = Some k <-> open_w path fs = Return k.
Proof.
  unfold write_entry. destruct (open_w path fs); split; congruence.
Qed.

Lemma write_entry_None path fs :
  write_entry path fs = None <-> exists e, open_w path fs = Raise e.
Proof.
  unfold write_entry. destruct (open_w path fs) as [k|e]; split;
    try done; [by intros [? ?] | by exists e].
Qed.

Lemma write_entry_locate path fs k :
  write_entry path fs = Some k -> locate path fs = At k.
Proof. intros H. by apply open_w_locate, write_entry_Some. Qed.

(** Whether a path can be opened for writing, and at which entry, is not
    changed by writing a file. *)
Lemma write_entry_put p q k t fs :
  write_entry q fs = Some k ->
  write_entry p (put k t fs) = write_entry p fs.
Proof.
  intros Hq. pose proof (write_entry_locate _ _ _ Hq) as Hloc.
  unfold write_entry, open_w in *. rewrite locate_put. rewrite Hloc in Hq.
  destruct (locate p fs) as [j|j| |e]; try done.
  - destruct (decide (k = j)) as [<- | Hne].
    + rewrite nodes_put_eq. simpl.
      destruct (nodes fs !! k) as [f|]; simpl; [done |].
      by destruct (creatable fs k).
    + by rewrite nodes_put_ne.
  - destruct (nodes (put k t fs) !! j), (nodes fs !! j); done.
Qed.

(** What [write_file] does to the file system, and to the rest of the
    world. *)
Lemma files_write_file p (data : list string) w :
  files (write_file p data w)
  = match write_entry p (files w) with
    | Some k => put k (written data) (files w)
    | None => files w
    end.
Proof.
  unfold write_file, write_entry. by destruct (open_w p (files w)).
Qed.

Lemma write_file_world p (data : list string) w :
  stdin (write_file p data w) = stdin w
  /\ next_id (write_file p data w) = next_id w
  /\ rng (write_file p data w) = rng w.
Proof. unfold write_file. by destruct (open_w p (files w)). Qed.

Lemma write_file_stdout p (data : list string) w :
  stdout (write_file p data w)
  = stdout w ++ match open_w p (files w) with
                | Return _ => []
                | Raise e => [MsgWriteError e]
                end.
Proof.
  unfold write_file. destruct (open_w p (files w)); simpl; [|done].
  by rewrite app_nil_r.
Qed.

(** After a write the paths lead where they led. *)
Lemma locate_write_file path p (data : list string) w :
  locate path (files (write_file p data w)) = locate path (files w).
Proof.
  rewrite files_write_file. by destruct (write_entry p (files w)).
Qed.

Lemma write_entry_write_file path p (data : list string) w :
  write_entry path (files (write_file p data w))
  = write_entry path (files w).
Proof.
  rewrite files_write_file.
  destruct (write_entry p (files w)) as [k|] eqn:Hp; [|done].
  by apply (write_entry_put path p).
Qed.

(** The content of a file after a write. *)
Lemma file_content_put_eq path k t fs :
  locate path fs = At k -> file_content path (put k t fs) = Some (Text t).
Proof.
  intros H. unfold file_content. rewrite locate_put, H, nodes_put_eq.
  simpl. by destruct (nodes fs !! k).
Qed.

Lemma file_content_put_ne path k t fs :
  locate path fs <> At k ->
  file_content path (put k t fs) = file_content path fs.
Proof.
  intros H. unfold file_content. rewrite locate_put.
  destruct (locate path fs) as [j|j| |e]; try done.
  rewrite nodes_put_ne; [done | congruence].
Qed.

Lemma file_content_write_file p (data : list string) w k :
  open_w p (files w) = Return k ->
  file_content p (files (write_file p data w))
  = Some (Text (written data)).
Proof.
  intros H. rewrite files_write_file.
  rewrite (proj2 (write_entry_Some _ _ _) H).
  by apply file_content_put_eq, open_w_locate.
Qed.

Lemma file_content_write_file_ne path p (data : list string) w k :
  locate path (files w) = At k ->
  locate p (files w) <> At k ->
  file_content path (files (write_file p data w))
  = file_content path (files w).
Proof.
  intros H Hne. rewrite files_write_file.
  destruct (write_entry p (files w)) as [j|] eqn:Hp; [|done].
  apply write_entry_locate in Hp.
  apply file_content_put_ne. congruence.
Qed.

(** A file that the program can keep at a path can be opened for
    writing, and is read back as written. *)
Lemma own_file_locate path fs k :
  own_file path fs = Some k -> locate path fs = At k.
Proof.
  unfold own_file. destruct (locate path fs) as [j|j| |e]; try done.
  destruct (nodes fs !! j) as [f|].
  - destruct (readable f && writable f); [by intros [= ->] | done].
  - destruct (creatable fs j); [by intros [= ->] | done].
Qed.

Lemma own_file_open_w path fs k :
  own_file path fs = Some k -> open_w path fs = Return k.
Proof.
  intros H. pose proof (own_file_locate _ _ _ H) as Hloc.
  unfold own_file, open_w in *. rewrite Hloc in *.
  destruct (nodes fs !! k) as [f|].
  - destruct (readable f), (writable f); done.
  - by destruct (creatable fs k).
Qed.

Lemma own_file_put_eq path fs k t :
  own_file path fs = Some k -> open_r path (put k t fs) = Return t.
Proof.
  intros H. pose proof (own_file_locate _ _ _ H) as Hloc.
  unfold own_file, open_r in *. rewrite locate_put, Hloc in *.
  rewrite nodes_put_eq.
  destruct (nodes fs !! k) as [f|]; simpl; [|done].
  by destruct (readable f).
Qed.

Lemma own_file_put path fs k j t :
  own_file path fs = Some k -> own_file path (put j t fs) = Some k.
Proof.
  intros H. pose proof (own_file_locate _ _ _ H) as Hloc.
  unfold own_file in *. rewrite locate_put, Hloc in *.
  destruct (decide (j = k)) as [-> | Hne].
  - rewrite nodes_put_eq.
    destruct (nodes fs !! k) as [f|]; simpl; [|done].
    by destruct (readable f && writable f).
  - by rewrite nodes_put_ne.
Qed.

Lemma open_r_put_ne path fs k j t :
  locate path fs = At k -> j <> k ->
  open_r path (put j t fs) = open_r path fs.
Proof.
  intros H Hne. unfold open_r. rewrite locate_put, H.
  by rewrite nodes_put_ne.
Qed.

(** A file that can be read is there. *)
Lemma open_r_Return path fs text :
  open_r path fs = Return text ->
  exists k f,
    locate path fs = At k /\ nodes fs !! k = Some f
    /\ readable f = true /\ content f = Text text.
Proof.
  unfold open_r. destruct (locate path fs) as [k|k| |e]; try done.
  - destruct (nodes fs !! k) as [f|] eqn:Hf; [|done].
    destruct (readable f) eqn:Hr; [|done].
    destruct (content f) as [s|] eqn:Hc; [|done].
    intros [= ->]. by exists k, f.
  - by destruct (nodes fs !! k).
Qed.

End FileSystems.

(** * The deck *)

Section Deck.

Implicit Types (w : World) (d : FlashcardDeck) (c : Flashcard).

Lemma add_question_unfold (q a : string) d w :
  add_question q a d w
  = (write_file (ans_file d) (answers d ++ [a])
       (write_file (ques_file d) (questions d ++ [q])
          (mkWorld (files w) (stdin w) (stdout w) (S (next_id w)) (rng w))),
     mkDeck (ques_file d) (ans_file d) (questions d ++ [q])
       (answers d ++ [a])
       (flashcards d ++ [mkFlashcard (next_id w) q a])).
Proof. reflexivity. Qed.

(** What [delete_question] does when the question is in the deck and the
    answers are as many as the questions. *)
Lemma delete_question_found (q : string) d w (i : nat) :
  index q (questions d) = Some i ->
  length (questions d) = length (answers d) ->
  let qs := delete i (questions d) in
  let ans := delete i (answers d) in
  let r := build_flashcards (zip qs ans) w in
  delete_question q d w
  = (write_file (ans_file d) ans (write_file (ques_file d) qs r.1),
     mkDeck (ques_file d) (ans_file d) qs ans r.2, Return tt).
Proof.
  intros Hi Hlen. simpl. unfold delete_question.
  assert (contains q (questions d) = true) as ->.
  { apply contains_spec. apply index_Some in Hi as [Hi _].
    by eapply list_elem_of_lookup_2. }
  rewrite Hi.
  assert (i < length (answers d)) as Hlt.
  { rewrite <- Hlen. apply index_Some in Hi as [Hi _].
    by eapply lookup_lt_Some. }
  apply Nat.ltb_lt in Hlt as ->.
  by destruct (build_flashcards _ w).
Qed.

Lemma delete_question_missing (q : string) d w :
  q ∉ questions d ->
  delete_question q d w = (print MsgNotFound w, d, Return tt).
Proof.
  intros Hq. unfold delete_question.
  destruct (contains q (questions d)) eqn:Hc; [|done].
  by apply contains_spec in Hc.
Qed.

Lemma deck_inv_init question_file answer_file w w' d :
  deck_init question_file answer_file w = (w', Return d) -> deck_inv d.
Proof.
  intros (qs & ans & _ & _ & Hlen & _ & ->)%deck_init_Return.
  unfold deck_inv. simpl.
  rewrite build_flashcards_length, zip_length_eq; done.
Qed.

Lemma deck_inv_add (q a : string) d w :
  deck_inv d -> deck_inv (add_question q a d w).2.
Proof.
  intros [H1 H2]. rewrite add_question_unfold. unfold deck_inv. simpl.
  rewrite !length_app. simpl. lia.
Qed.

Lemma deck_inv_delete (q : string) d w :
  deck_inv d -> deck_inv (delete_question q d w).1.2.
Proof.
  intros [H1 H2].
  destruct (index q (questions d)) as [i|] eqn:Hi.
  - rewrite (delete_question_found q d w i Hi H1). unfold deck_inv. simpl.
    rewrite build_flashcards_length.
    apply index_Some in Hi as [Hi _]. apply lookup_lt_Some in Hi.
    assert (is_Some (questions d !! i)) as Hq
      by (apply lookup_lt_is_Some; lia).
    assert (is_Some (answers d !! i)) as Ha
      by (apply lookup_lt_is_Some; lia).
    rewrite zip_length_eq; rewrite !length_delete by done; lia.
  - rewrite delete_question_missing by (by apply index_None). done.
Qed.

Lemma shuffle_spec d w :
  flashcards (shuffle d w).2 ≡ₚ flashcards d
  /\ questions (shuffle d w).2 = questions d
  /\ answers (shuffle d w).2 = answers d
  /\ ques_file (shuffle d w).2 = ques_file d
  /\ ans_file (shuffle d w).2 = ans_file d
  /\ files (shuffle d w).1 = files w
  /\ stdin (shuffle d w).1 = stdin w
  /\ stdout (shuffle d w).1 = stdout w
  /\ next_id (shuffle d w).1 = next_id w.
Proof.
  unfold shuffle, random_shuffle.
  pose proof (shuffle_loop_spec (length (flashcards d) - 1)
                (flashcards d) w) as H.
  destruct (shuffle_loop _ _ w) as [w1 cards]. simpl in *. tauto.
Qed.

Lemma deck_inv_shuffle d w : deck_inv d -> deck_inv (shuffle d w).2.
Proof.
  intros [H1 H2]. destruct (shuffle_spec d w) as (Hp & Hq & Ha & _).
  unfold deck_inv. rewrite Hq, Ha, Hp. done.
Qed.

(** C1. Length invariant: the questions, the answers and the cards of a
    deck have the same length after a successful construction, and every
    mutation ([add_question], [delete_question], [shuffle]) of a deck in
    which they have keeps it so. *)
Theorem length_invariant :
  (forall question_file answer_file w w' d,
      deck_init question_file answer_file w = (w', Return d) -> deck_inv d)
  /\ (forall q a d w, deck_inv d -> deck_inv (add_question q a d w).2)
  /\ (forall q d w, deck_inv d -> deck_inv (delete_question q d w).1.2)
  /\ (forall d w, deck_inv d -> deck_inv (shuffle d w).2).
Proof.
  split; [exact deck_inv_init |].
  split; [exact deck_inv_add |].
  split; [exact deck_inv_delete | exact deck_inv_shuffle].
Qed.

(** The length invariant, kept by deleting from the sample deck. *)
Lemma length_invariant_witness :
  deck_inv (delete_question "3+3" sample_deck (sample_world_built [])).1.2.
Proof.
  apply (proj1 (proj2 (proj2 length_invariant)) "3+3" sample_deck
           (sample_world_built [])).
  split; reflexivity.
Defined.

(** C2. Construction: [FlashcardDeck(question_file, answer_file)], the
    two files being loaded to the sequences [qs] and [ans], succeeds
    exactly when these have the same length.  Then the deck holds the two
    sequences and as many cards, the card at each position carrying the
    question and the answer of that position.  When the lengths differ it
    raises [ValueError] (the length mismatch) and there is no deck.  There
    is no deck either when loading a file raises an exception: the
    constructor raises it. *)
Theorem construction (question_file answer_file : string) w :
  (forall qs ans : list string,
      (read_file question_file w).2 = Return qs ->
      (read_file answer_file w).2 = Return ans ->
      (length qs = length ans ->
       exists w' d,
         deck_init question_file answer_file w = (w', Return d)
         /\ questions d = qs /\ answers d = ans
         /\ length (flashcards d) = length qs
         /\ length (flashcards d) = length ans
         /\ forall i, i < length qs ->
              exists c, flashcards d !! i = Some c
                        /\ qs !! i = Some (question c)
                        /\ ans !! i = Some (answer c))
      /\ (length qs <> length ans ->
          exists w',
            deck_init question_file answer_file w
            = (w', Raise (ValueError
                           "Number of questions and answers must be the same")))
      /\ (forall w' d,
            deck_init question_file answer_file w = (w', Return d) ->
            length qs = length ans))
  /\ (forall e,
        (read_file question_file w).2 = Raise e
        \/ (exists qs, (read_file question_file w).2 = Return qs)
           /\ (read_file answer_file w).2 = Raise e ->
        exists w', deck_init question_file answer_file w = (w', Raise e)).
Proof.
  rewrite deck_init_unfold. simpl.
  set (w2 := (read_file answer_file (read_file question_file w).1).1).
  split.
  - intros qs ans -> ->.
    destruct (Nat.eqb_spec (length qs) (length ans)) as [Hlen | Hlen]; simpl.
    + split; [|split; [done | by intros _ _ _]]. intros _.
      destruct (build_flashcards_spec (zip qs ans) w2) as (_ & Htext & _).
      pose proof (build_flashcards_length (zip qs ans) w2) as Hcards.
      rewrite zip_length_eq in Hcards by done.
      eexists _, _. split; [reflexivity |]. simpl.
      split; [done |]. split; [done |]. split; [done |].
      split; [by rewrite Hcards |].
      intros i Hi.
      destruct (lookup_lt_is_Some_2 (build_flashcards (zip qs ans) w2).2 i)
        as [c Hc]; [by rewrite Hcards |].
      exists c. split; [done |].
      apply lookup_zip_Some. rewrite <- Htext, list_lookup_fmap, Hc. done.
    + split; [done |]. split; [by eexists | done].
  - intros e [-> | [[qs ->] ->]]; by eexists.
Qed.

(** The sample files have three lines each, so the deck is built. *)
Lemma construction_witness :
  exists w' d,
    deck_init "questions" "answers" (sample_world []) = (w', Return d)
    /\ questions d = ["2+2"; "3+3"; "5+5"]
    /\ answers d = ["4"; "6"; "10"]
    /\ length (flashcards d) = length ["2+2"; "3+3"; "5+5"]
    /\ length (flashcards d) = length ["4"; "6"; "10"]
    /\ forall i,
         i < length ["2+2"; "3+3"; "5+5"] ->
         exists c,
           flashcards d !! i = Some c
           /\ ["2+2"; "3+3"; "5+5"] !! i = Some (question c)
           /\ ["4"; "6"; "10"] !! i = Some (answer c).
Proof.
  apply (proj1 (proj1 (construction "questions" "answers" (sample_world []))
                  ["2+2"; "3+3"; "5+5"] ["4"; "6"; "10"]
                  eq_refl eq_refl)).
  reflexivity.
Defined.

(** C7. [shuffle()] permutes the cards and nothing else: the deck holds
    the same cards (the same objects, each as often as before), and the
    questions, the answers, the two paths and the files are the ones from
    before. *)
Theorem shuffle_frame d w :
  flashcards (shuffle d w).2 ≡ₚ flashcards d
  /\ questions (shuffle d w).2 = questions d
  /\ answers (shuffle d w).2 = answers d
  /\ ques_file (shuffle d w).2 = ques_file d
  /\ ans_file (shuffle d w).2 = ans_file d
  /\ files (shuffle d w).1 = files w.
Proof.
  destruct (shuffle_spec d w) as (H1 & H2 & H3 & H4 & H5 & H6 & _).
  auto 10.
Qed.

End Deck.


(** * Adding and deleting *)

Section Mutations.

Implicit Types (w : World) (d : FlashcardDeck) (c : Flashcard).
Implicit Types (fs : FileSystem) (k : nat).

(** Entries without line break, written one a line, are read as so many
    lines. *)
Lemma readlines_written (data : list string) :
  Forall (fun l => has_line_break l = false) data ->
  readlines (written data) = map (fun l => l +:+ String LF EmptyString) data.
Proof.
  intros H. unfold readlines.
  by rewrite universal_newlines_written, split_lines_written.
Qed.

Lemma printed_app w w' (out : list Msg) :
  stdout w' = stdout w ++ out -> printed w w' = out.
Proof. intros H. unfold printed. by rewrite H, drop_app_length. Qed.

(** The two calls of [write_file] that end [add_question] and
    [delete_question]: what they leave in the two files, what they print,
    and what they leave alone. *)
Lemma two_writes (qf af : string) (qs ans : list string) w :
  let w' := write_file af ans (write_file qf qs w) in
  (forall ka, open_w af (files w) = Return ka ->
      file_content af (files w') = Some (Text (written ans)))
  /\ (forall kq, open_w qf (files w) = Return kq ->
        locate af (files w) <> At kq ->
        file_content qf (files w') = Some (Text (written qs)))
  /\ (forall e, open_w qf (files w) = Raise e ->
        MsgWriteError e ∈ printed w w')
  /\ (forall e, open_w af (files w) = Raise e ->
        exists e', last (stdout w') = Some (MsgWriteError e'))
  /\ (forall k,
        (forall kq, open_w qf (files w) = Return kq -> kq <> k) ->
        (forall ka, open_w af (files w) = Return ka -> ka <> k) ->
        nodes (files w') !! k = nodes (files w) !! k)
  /\ place (files w') = place (files w)
  /\ creatable (files w') = creatable (files w)
  /\ stdin w' = stdin w /\ next_id w' = next_id w /\ rng w' = rng w.
Proof.
  simpl. set (w1 := write_file qf qs w).
  assert (forall p, write_entry p (files w1) = write_entry p (files w))
    as Hentry by (intros p; apply write_entry_write_file).
  assert (forall p, locate p (files w1) = locate p (files w))
    as Hloc by (intros p; apply locate_write_file).
  split; [|split; [|split; [|split; [|split]]]].
  - intros ka Ha. apply (file_content_write_file _ _ _ ka).
    apply write_entry_Some. rewrite Hentry. by apply write_entry_Some.
  - intros kq Hq Hne.
    rewrite (file_content_write_file_ne qf af ans w1 kq).
    + by apply (file_content_write_file _ _ _ kq).
    + rewrite Hloc. by apply open_w_locate.
    + by rewrite Hloc.
  - intros e Hq.
    rewrite (printed_app w _
               ([MsgWriteError e]
                ++ match open_w af (files w1) with
                   | Return _ => []
                   | Raise e' => [MsgWriteError e']
                   end)).
    + apply elem_of_app. left. apply list_elem_of_here.
    + rewrite write_file_stdout. unfold w1.
      by rewrite write_file_stdout, Hq, <- app_assoc.
  - intros e Ha.
    assert (write_entry af (files w1) = None) as Hnone.
    { rewrite Hentry. apply write_entry_None. by exists e. }
    apply write_entry_None in Hnone as [e' He'].
    exists e'. rewrite write_file_stdout, He'. apply last_snoc.
  - intros k Hq Ha. rewrite !files_write_file. fold w1.
    rewrite Hentry.
    destruct (write_entry af (files w)) as [ka|] eqn:Hka.
    + rewrite nodes_put_ne by (by apply Ha, write_entry_Some).
      fold w1. unfold w1. rewrite files_write_file.
      destruct (write_entry qf (files w)) as [kq|] eqn:Hkq; [|done].
      by rewrite nodes_put_ne by (by apply Hq, write_entry_Some).
    + unfold w1. rewrite files_write_file.
      destruct (write_entry qf (files w)) as [kq|] eqn:Hkq; [|done].
      by rewrite nodes_put_ne by (by apply Hq, write_entry_Some).
  - destruct (write_file_world af ans w1) as (-> & -> & ->).
    destruct (write_file_world qf qs w) as (Hs & Hn & Hr).
    fold w1 in Hs, Hn, Hr. rewrite Hs, Hn, Hr.
    rewrite !files_write_file. fold w1.
    assert (place (files w1) = place (files w)
            /\ creatable (files w1) = creatable (files w)) as [Hp Hc].
    { unfold w1. rewrite files_write_file.
      by destruct (write_entry qf (files w)). }
    destruct (write_entry af (files w1)); simpl; by rewrite ?Hp, ?Hc.
Qed.

Example one_file_deck_built :
  deck_init "cards" "./cards" one_file_world
  = (one_file_world_built, Return one_file_deck).
Proof. vm_compute. reflexivity. Qed.

(** C6, as the spec states it, fails in three ways.  For a deck that
    keeps questions and answers in one file, be it under two names: after
    [add_question("q", "a")] that file holds the answers, and its last
    line is not the new question.  For a question with a line break in
    it: the questions file then has two lines more, the last of them not
    the new question.  And for a questions file that may not be written:
    it holds afterwards what it held before. *)
Lemma add_question_one_file :
  (ques_file one_file_deck <> ans_file one_file_deck
   /\ file_content (ques_file one_file_deck)
        (files (add_question "q" "a" one_file_deck one_file_world_built).1)
      = Some (Text ("x" +:+ String LF ("a" +:+ String LF EmptyString)))
   /\ questions (add_question "q" "a" one_file_deck one_file_world_built).2
      = ["x"; "q"])
  /\ (exists text,
        file_content "questions"
          (files (add_question ("a" +:+ String LF "b") "c" sample_deck
                    (sample_world_built [])).1)
        = Some (Text text)
        /\ length (questions sample_deck) = 3
        /\ length (readlines text) = 5
        /\ last (readlines text) = Some ("b" +:+ String LF EmptyString))
  /\ (file_content "questions"
        (files (add_question "7+7" "14" sample_deck locked_world).1)
      = file_content "questions" (files locked_world)
      /\ questions (add_question "7+7" "14" sample_deck locked_world).2
         = ["2+2"; "3+3"; "5+5"; "7+7"]
      /\ stdout (add_question "7+7" "14" sample_deck locked_world).1
         = [MsgWriteError (PermissionError "questions")]).
Proof.
  split; [|split].
  - split; [discriminate |]. split; reflexivity.
  - eexists. split; [reflexivity |]. split; [reflexivity |].
    split; reflexivity.
  - split; [reflexivity |]. split; reflexivity.
Qed.

(** C6. [add_question(q, a)] appends [q] to the questions, [a] to the
    answers and a new card with the text [(q, a)] to the cards: each of
    the three is longer by one and the new entry is last.  Nothing is
    asked of [q], so a question the deck has already is added again.
    Then the questions are written to the questions file and the answers
    to the answers file, one entry a line, the new entry last.  The
    answers file, when it can be opened for writing, then holds the
    answers; so does the questions file with the questions when it can be
    opened for writing and is another file than the answers file; and
    when no entry has a line break in it, the file has one line more than
    there were entries, each entry a line and the new one last.  A file
    that cannot be opened for writing is reported by a message; no entry
    of the file system changes but those that the two paths open. *)
Theorem add_question_spec (q a : string) d w :
  questions (add_question q a d w).2 = questions d ++ [q]
  /\ answers (add_question q a d w).2 = answers d ++ [a]
  /\ (exists c, flashcards (add_question q a d w).2 = flashcards d ++ [c]
                /\ card_text c = (q, a))
  /\ length (questions (add_question q a d w).2) = S (length (questions d))
  /\ length (answers (add_question q a d w).2) = S (length (answers d))
  /\ length (flashcards (add_question q a d w).2)
     = S (length (flashcards d))
  /\ (forall ka, open_w (ans_file d) (files w) = Return ka ->
        exists text,
          file_content (ans_file d) (files (add_question q a d w).1)
          = Some (Text text)
          /\ text = written (answers d) +:+ a +:+ String LF EmptyString
          /\ (Forall (fun l => has_line_break l = false) (answers d ++ [a]) ->
              readlines text
              = map (fun l => l +:+ String LF EmptyString) (answers d)
                  ++ [a +:+ String LF EmptyString]))
  /\ (forall kq, open_w (ques_file d) (files w) = Return kq ->
        locate (ans_file d) (files w) <> At kq ->
        exists text,
          file_content (ques_file d) (files (add_question q a d w).1)
          = Some (Text text)
          /\ text = written (questions d) +:+ q +:+ String LF EmptyString
          /\ (Forall (fun l => has_line_break l = false)
                (questions d ++ [q]) ->
              readlines text
              = map (fun l => l +:+ String LF EmptyString) (questions d)
                  ++ [q +:+ String LF EmptyString]))
  /\ (forall e, open_w (ques_file d) (files w) = Raise e ->
        MsgWriteError e ∈ printed w (add_question q a d w).1)
  /\ (forall e, open_w (ans_file d) (files w) = Raise e ->
        exists e',
          last (stdout (add_question q a d w).1) = Some (MsgWriteError e'))
  /\ (forall k,
        (forall kq, open_w (ques_file d) (files w) = Return kq -> kq <> k) ->
        (forall ka, open_w (ans_file d) (files w) = Return ka -> ka <> k) ->
        nodes (files (add_question q a d w).1) !! k = nodes (files w) !! k).
Proof.
  rewrite add_question_unfold. cbn [fst snd questions answers flashcards].
  split; [done |]. split; [done |].
  split; [by eexists |].
  rewrite !length_app. simpl.
  split; [lia |]. split; [lia |]. split; [lia |].
  destruct (two_writes (ques_file d) (ans_file d) (questions d ++ [q])
              (answers d ++ [a])
              (mkWorld (files w) (stdin w) (stdout w) (S (next_id w))
                 (rng w)))
    as (Hans & Hques & Heq & Hea & Hframe & _).
  cbn [files] in *.
  split; [|split; [|split; [|split]]].
  - intros ka Hka. eexists. split; [by apply (Hans ka) |].
    split; [apply written_snoc |].
    intros Hnb. rewrite readlines_written by done.
    by rewrite map_app.
  - intros kq Hkq Hne. eexists. split; [by apply (Hques kq) |].
    split; [apply written_snoc |].
    intros Hnb. rewrite readlines_written by done.
    by rewrite map_app.
  - exact Heq.
  - exact Hea.
  - exact Hframe.
Qed.

(** Adding to the sample deck: its two files can be written and are two,
    so both hold the new entry on a fourth line.  And adding to it when
    the questions file may not be written: that is reported. *)
Lemma add_question_spec_witness :
  (exists text,
      file_content (ques_file sample_deck)
        (files (add_question "7+7" "14" sample_deck
                  (sample_world_built [])).1)
      = Some (Text text)
      /\ text = "2+2" +:+ String LF ("3+3" +:+ String LF ("5+5" +:+ String LF
                  ("7+7" +:+ String LF EmptyString)))
      /\ length (readlines text) = 4
      /\ last (readlines text) = Some ("7+7" +:+ String LF EmptyString))
  /\ MsgWriteError (PermissionError "questions")
     ∈ printed locked_world
         (add_question "7+7" "14" sample_deck locked_world).1.
Proof.
  split.
  - destruct (add_question_spec "7+7" "14" sample_deck
                (sample_world_built []))
      as (_ & _ & _ & _ & _ & _ & _ & Hques & _).
    destruct (Hques 0) as (text & Hfile & -> & Hlines).
    + reflexivity.
    + discriminate.
    + exists (written (questions sample_deck)
              +:+ "7+7" +:+ String LF EmptyString).
      split; [exact Hfile |]. split; [reflexivity |].
      rewrite Hlines by (repeat constructor). split; reflexivity.
  - apply (proj1 (proj2 (proj2 (proj2 (proj2 (proj2 (proj2 (proj2 (proj2
             (add_question_spec "7+7" "14" sample_deck
                locked_world)))))))))
             (PermissionError "questions")).
    reflexivity.
Defined.

(** C5, as the spec states it, fails when the questions file may not be
    written: the question is deleted from the deck and stays in the
    file. *)
Lemma delete_question_read_only :
  (delete_question "3+3" sample_deck locked_world).2 = Return tt
  /\ questions (delete_question "3+3" sample_deck locked_world).1.2
     = ["2+2"; "5+5"]
  /\ file_content "questions"
       (files (delete_question "3+3" sample_deck locked_world).1.1)
     = Some (Text ("2+2" +:+ String LF ("3+3" +:+ String LF
                     ("5+5" +:+ String LF EmptyString))))
  /\ file_content "questions"
       (files (delete_question "3+3" sample_deck locked_world).1.1)
     = file_content "questions" (files locked_world).
Proof. repeat split; reflexivity. Qed.

(** C5. [delete_question(q)] on a deck with as many answers as
    questions.  When [q] is one of the questions (the very string), the
    first position that holds it is removed from the questions and from
    the answers, which get shorter by one; the cards are built anew from
    the two sequences left, whatever their order was; and the questions
    are written to the questions file, then the answers to the answers
    file, one entry a line.  The answers file, when it can be opened for
    writing, then holds the answers left; so does the questions file with
    the questions left when it can be opened for writing and is another
    file than the answers file.  A file that cannot be opened for writing
    is reported by a message and stays as it was, the deck having changed
    all the same; no entry of the file system changes but those that the
    two paths open.  When [q] is not one of the questions,
    [Question not found.] is printed and the deck and the files stay as
    they are.  In particular, deleting [3+3] from the sample deck leaves
    the lines [2+2] and [5+5] in the questions file and the lines [4] and
    [10] in the answers file. *)
Theorem delete_question_spec (q : string) d w :
  (length (questions d) = length (answers d) ->
   (q ∈ questions d ->
    exists i,
      questions d !! i = Some q
      /\ (forall j, j < i -> questions d !! j <> Some q)
      /\ (delete_question q d w).2 = Return tt
      /\ questions (delete_question q d w).1.2 = delete i (questions d)
      /\ answers (delete_question q d w).1.2 = delete i (answers d)
      /\ S (length (questions (delete_question q d w).1.2))
         = length (questions d)
      /\ S (length (answers (delete_question q d w).1.2))
         = length (answers d)
      /\ card_text <$> flashcards (delete_question q d w).1.2
         = zip (delete i (questions d)) (delete i (answers d))
      /\ Forall (fun c => next_id w <= oid c)
           (flashcards (delete_question q d w).1.2)
      /\ (forall ka, open_w (ans_file d) (files w) = Return ka ->
            exists text,
              file_content (ans_file d) (files (delete_question q d w).1.1)
              = Some (Text text)
              /\ text = written (delete i (answers d))
              /\ (Forall (fun l => has_line_break l = false) (answers d) ->
                  readlines text
                  = map (fun l => l +:+ String LF EmptyString)
                      (delete i (answers d))))
      /\ (forall kq, open_w (ques_file d) (files w) = Return kq ->
            locate (ans_file d) (files w) <> At kq ->
            exists text,
              file_content (ques_file d) (files (delete_question q d w).1.1)
              = Some (Text text)
              /\ text = written (delete i (questions d))
              /\ (Forall (fun l => has_line_break l = false) (questions d) ->
                  readlines text
                  = map (fun l => l +:+ String LF EmptyString)
                      (delete i (questions d))))
      /\ (forall e, open_w (ques_file d) (files w) = Raise e ->
            MsgWriteError e ∈ printed w (delete_question q d w).1.1)
      /\ (forall e, open_w (ans_file d) (files w) = Raise e ->
            exists e',
              last (stdout (delete_question q d w).1.1)
              = Some (MsgWriteError e'))
      /\ (forall k,
            (forall kq,
                open_w (ques_file d) (files w) = Return kq -> kq <> k) ->
            (forall ka,
                open_w (ans_file d) (files w) = Return ka -> ka <> k) ->
            nodes (files (delete_question q d w).1.1) !! k
            = nodes (files w) !! k))
   /\ (q ∉ questions d ->
       delete_question q d w = (print MsgNotFound w, d, Return tt)
       /\ files (delete_question q d w).1.1 = files w
       /\ stdout (delete_question q d w).1.1 = stdout w ++ [MsgNotFound]))
  /\ file_content "questions"
       (files (delete_question "3+3" sample_deck (sample_world_built [])).1.1)
     = Some (Text ("2+2" +:+ String LF ("5+5" +:+ String LF EmptyString)))
  /\ file_content "answers"
       (files (delete_question "3+3" sample_deck (sample_world_built [])).1.1)
     = Some (Text ("4" +:+ String LF ("10" +:+ String LF EmptyString))).
Proof.
  split; [|split; reflexivity].
  intros Hlen. split.
  - intros Hq. destruct (index q (questions d)) as [i|] eqn:Hi;
      [|by apply index_None in Hi].
    exists i. rewrite (delete_question_found q d w i Hi Hlen).
    apply index_Some in Hi as [Hi Hfirst]. cbn [fst snd].
    cbn [questions answers flashcards].
    assert (is_Some (questions d !! i)) as Hqi by done.
    assert (is_Some (answers d !! i)) as Hai.
    { apply lookup_lt_is_Some. rewrite <- Hlen.
      by apply lookup_lt_is_Some. }
    pose proof (lookup_lt_Some _ _ _ Hi) as Hlt.
    destruct (build_flashcards_spec
                (zip (delete i (questions d)) (delete i (answers d))) w)
      as (Hw & Htext & Hid).
    simpl in Hw, Htext, Hid.
    split; [done |]. split; [done |]. split; [done |].
    split; [done |]. split; [done |].
    split; [rewrite length_delete by done; lia |].
    split; [rewrite length_delete by done; lia |].
    split; [done |].
    split.
    { apply Forall_forall. intros c Hc.
      assert (oid c ∈ oid <$> (build_flashcards
                (zip (delete i (questions d)) (delete i (answers d))) w).2)
        as Hin by (by apply list_elem_of_fmap_2).
      rewrite Hid in Hin. apply seq_lt in Hin. lia. }
    rewrite Hw.
    destruct (two_writes (ques_file d) (ans_file d) (delete i (questions d))
                (delete i (answers d))
                (mkWorld (files w) (stdin w) (stdout w)
                   (next_id w
                    + length (zip (delete i (questions d))
                                (delete i (answers d)))) (rng w)))
      as (Hans & Hques & Heq & Hea & Hframe & _).
    cbn [files] in *.
    assert (forall (l : list string),
               Forall (fun l => has_line_break l = false) l ->
               Forall (fun l => has_line_break l = false) (delete i l))
      as Hdel.
    { intros l Hl. apply Forall_forall. intros x Hx.
      rewrite Forall_forall in Hl. apply Hl.
      by eapply list_elem_of_delete_inv. }
    split; [|split; [|split; [|split]]].
    + intros ka Hka. eexists. split; [by apply (Hans ka) |].
      split; [done |]. intros Hnb. apply readlines_written. by apply Hdel.
    + intros kq Hkq Hne. eexists. split; [by apply (Hques kq) |].
      split; [done |]. intros Hnb. apply readlines_written. by apply Hdel.
    + exact Heq.
    + exact Hea.
    + exact Hframe.
  - intros Hq. by rewrite delete_question_missing.
Qed.

(** Deleting from the sample deck, whose two files can be written; and
    deleting from it when the questions file may not be written. *)
Lemma delete_question_spec_witness :
  (exists i text,
      questions sample_deck !! i = Some "3+3"
      /\ questions (delete_question "3+3" sample_deck
                     (sample_world_built [])).1.2
         = ["2+2"; "5+5"]
      /\ file_content "questions"
           (files (delete_question "3+3" sample_deck
                     (sample_world_built [])).1.1)
         = Some (Text text)
      /\ readlines text
         = ["2+2" +:+ String LF EmptyString;
            "5+5" +:+ String LF EmptyString])
  /\ exists i,
       questions sample_deck !! i = Some "3+3"
       /\ MsgWriteError (PermissionError "questions")
          ∈ printed locked_world
              (delete_question "3+3" sample_deck locked_world).1.1.
Proof.
  split.
  - destruct (proj1 (proj1 (delete_question_spec "3+3" sample_deck
                              (sample_world_built [])) eq_refl))
      as (i & Hi & Hfirst & _ & Hqs & _ & _ & _ & _ & _ & _ & Hques & _).
    + apply contains_spec. reflexivity.
    + destruct (Hques 0) as (text & Hfile & -> & Hlines).
      * reflexivity.
      * discriminate.
      * assert (i = 1) as ->.
        { destruct i as [|[|[|i]]]; try done. }
        exists 1, (written (delete 1 (questions sample_deck))).
        split; [exact Hi |]. split; [exact Hqs |].
        split; [exact Hfile |].
        rewrite Hlines by (repeat constructor). reflexivity.
  - destruct (proj1 (proj1 (delete_question_spec "3+3" sample_deck
                              locked_world) eq_refl))
      as (i & Hi & _ & _ & _ & _ & _ & _ & _ & _ & _ & _ & Herr & _).
    + apply contains_spec. reflexivity.
    + exists i. split; [exact Hi |].
      apply (Herr (PermissionError "questions")). reflexivity.
Defined.

End Mutations.
(** * Cards are different objects *)

Section Identity.

Implicit Types (w : World) (d : FlashcardDeck) (c : Flashcard).

Lemma distinct_cards_init question_file answer_file w w' d :
  deck_init question_file answer_file w = (w', Return d) ->
  distinct_cards w' d.
Proof.
  intros (qs & ans & _ & _ & _ & -> & ->)%deck_init_Return.
  apply build_flashcards_distinct.
Qed.

Lemma distinct_cards_add (q a : string) d w :
  distinct_cards w d ->
  distinct_cards (add_question q a d w).1 (add_question q a d w).2.
Proof.
  intros [Hnd Hlt]. rewrite add_question_unfold. unfold distinct_cards.
  cbn [fst snd flashcards].
  destruct (write_file_world (ans_file d) (answers d ++ [a])
              (write_file (ques_file d) (questions d ++ [q])
                 (mkWorld (files w) (stdin w) (stdout w) (S (next_id w))
                    (rng w)))) as (_ & -> & _).
  destruct (write_file_world (ques_file d) (questions d ++ [q])
              (mkWorld (files w) (stdin w) (stdout w) (S (next_id w))
                 (rng w))) as (_ & -> & _).
  simpl. split.
  - rewrite fmap_app. simpl. apply NoDup_app. split; [done |].
    split; [|apply NoDup_singleton].
    intros x Hx ->%list_elem_of_singleton.
    apply list_elem_of_fmap in Hx as (c & Hid & Hc).
    rewrite Forall_forall in Hlt. specialize (Hlt c Hc). lia.
  - apply Forall_app. split.
    + eapply Forall_impl; [exact Hlt |]. simpl. lia.
    + repeat constructor.
Qed.

Lemma distinct_cards_delete (q : string) d w :
  distinct_cards w d ->
  distinct_cards (delete_question q d w).1.1 (delete_question q d w).1.2.
Proof.
  intros Hd. unfold delete_question.
  destruct (contains q (questions d)); [|exact Hd].
  destruct (index q (questions d)) as [i|]; [|exact Hd].
  destruct (i <? length (answers d)); [|exact Hd].
  pose proof (build_flashcards_distinct
                (zip (delete i (questions d)) (delete i (answers d))) w)
    as H.
  destruct (build_flashcards _ w) as [w1 cards]. unfold distinct_cards.
  cbn [fst snd flashcards].
  destruct (write_file_world (ans_file d) (delete i (answers d))
              (write_file (ques_file d) (delete i (questions d)) w1))
    as (_ & -> & _).
  destruct (write_file_world (ques_file d) (delete i (questions d)) w1)
    as (_ & -> & _).
  exact H.
Qed.

Lemma distinct_cards_shuffle d w :
  distinct_cards w d ->
  distinct_cards (shuffle d w).1 (shuffle d w).2.
Proof.
  intros [Hnd Hlt].
  destruct (shuffle_spec d w) as (Hp & _ & _ & _ & _ & _ & _ & _ & Hid).
  unfold distinct_cards. rewrite Hp, Hid. done.
Qed.

(** [list.index] finds every card of the deck. *)
Lemma index_obj_elem (l : list Flashcard) c :
  c ∈ l -> exists idx, index_obj c l = Some idx.
Proof.
  induction 1 as [c l | c y l _ [idx IH]]; simpl.
  - rewrite Nat.eqb_refl. by eexists.
  - destruct (oid y =? oid c); [by eexists |]. rewrite IH. by eexists.
Qed.

End Identity.

(** * The quiz *)

Section Quiz.

Implicit Types (w : World) (d : FlashcardDeck) (c : Flashcard).
Implicit Types (cards todo : list Flashcard) (score : Z).

Lemma input_line (prompt : Msg) w (line : string) (rest : list string) :
  stdin w = line :: rest ->
  input prompt w = (answered prompt rest w, Return line).
Proof. intros H. unfold input. simpl. by rewrite H. Qed.

Lemma quiz_report_quit w score (n : Z) :
  quiz_report (print (MsgQuit score n) w) = Some (score, n).
Proof. unfold quiz_report. simpl. by rewrite last_snoc. Qed.

Lemma quiz_report_final w score (n : Z) :
  quiz_report (print (MsgFinal score n) w) = Some (score, n).
Proof. unfold quiz_report. simpl. by rewrite last_snoc. Qed.

(** One turn of the loop on a response that asks to quit: the quiz ends
    at this card, with the score as it was. *)
Lemma ask_loop_quit_now cards c todo score w (r : string)
    (rest : list string) (idx : nat) :
  stdin w = r :: rest ->
  is_quit r = true ->
  index_obj c cards = Some idx ->
  ask_loop cards (c :: todo) score w
  = (print (MsgQuit score (Z.of_nat idx + 1))
       (answered (MsgPrompt (question c)) rest w),
     Return tt).
Proof.
  intros Hin Hq Hidx. simpl. rewrite (input_line _ _ _ _ Hin).
  unfold is_quit in Hq. rewrite Hq, Hidx.
  do 3 f_equal. ring.
Qed.

(** One turn of the loop on any other response. *)
Lemma ask_loop_answer cards c todo score w (r : string)
    (rest : list string) :
  stdin w = r :: rest ->
  is_quit r = false ->
  ask_loop cards (c :: todo) score w
  = if String.eqb (lower r) (lower (answer c))
    then ask_loop cards todo (score + 1)
           (print MsgCorrect (answered (MsgPrompt (question c)) rest w))
    else ask_loop cards todo score
           (print (MsgSorry (answer c))
              (answered (MsgPrompt (question c)) rest w)).
Proof.
  intros Hin Hq. simpl. rewrite (input_line _ _ _ _ Hin).
  unfold is_quit in Hq. by rewrite Hq.
Qed.

(** A quiz in which no response asks to quit. *)
Lemma ask_loop_complete todo : forall cards score w,
  length todo <= length (stdin w) ->
  Forall (fun r => is_quit r = false) (take (length todo) (stdin w)) ->
  exists w',
    ask_loop cards todo score w = (w', Return tt)
    /\ quiz_report w'
       = Some ((score + count_correct todo (stdin w))%Z,
               Z.of_nat (length cards))
    /\ stdin w' = drop (length todo) (stdin w)
    /\ files w' = files w.
Proof.
  induction todo as [|c todo IH]; intros cards score w Hlen Hnq.
  - eexists. split; [reflexivity |]. rewrite quiz_report_final.
    simpl. by rewrite Z.add_0_r.
  - destruct (stdin w) as [|r rest] eqn:Hin; simpl in Hlen; [lia |].
    simpl in Hnq. apply Forall_cons in Hnq as [Hr Hrest].
    rewrite (ask_loop_answer _ _ _ _ _ _ _ Hin Hr).
    cbn [count_correct length drop].
    destruct (String.eqb (lower r) (lower (answer c))).
    + destruct (IH cards (score + 1)%Z
                  (print MsgCorrect
                     (answered (MsgPrompt (question c)) rest w)))
        as (w' & Hrun & Hrep & Hstdin & Hfiles); simpl; [lia | done |].
      exists w'. rewrite Hrun, Hrep. simpl in *.
      repeat split; try done. do 2 f_equal. lia.
    + destruct (IH cards score
                  (print (MsgSorry (answer c))
                     (answered (MsgPrompt (question c)) rest w)))
        as (w' & Hrun & Hrep & Hstdin & Hfiles); simpl; [lia | done |].
      exists w'. rewrite Hrun, Hrep. simpl in *.
      repeat split; done.
Qed.

(** A quiz in which the response to the card at position [i] of [todo] is
    the first to ask to quit. *)
Lemma ask_loop_quit todo : forall cards score w (i : nat) c (r : string)
    (idx : nat),
  todo !! i = Some c ->
  stdin w !! i = Some r ->
  is_quit r = true ->
  Forall (fun r => is_quit r = false) (take i (stdin w)) ->
  index_obj c cards = Some idx ->
  exists w',
    ask_loop cards todo score w = (w', Return tt)
    /\ quiz_report w'
       = Some ((score + count_correct (take i todo) (stdin w))%Z,
               (Z.of_nat idx + 1)%Z)
    /\ stdin w' = drop (S i) (stdin w)
    /\ files w' = files w.
Proof.
  induction todo as [|c0 todo IH];
    intros cards score w i c r idx Hc Hr Hq Hnq Hidx; [done |].
  destruct (stdin w) as [|r0 rest] eqn:Hin; [done |].
  destruct i as [|i]; simpl in Hc, Hr.
  - injection Hc as ->. injection Hr as ->.
    rewrite (ask_loop_quit_now _ _ _ _ _ _ _ _ Hin Hq Hidx).
    eexists. split; [reflexivity |]. rewrite quiz_report_quit.
    simpl. by rewrite Z.add_0_r.
  - simpl in Hnq. apply Forall_cons in Hnq as [Hr0 Hrest].
    rewrite (ask_loop_answer _ _ _ _ _ _ _ Hin Hr0).
    cbn [count_correct take drop].
    destruct (String.eqb (lower r0) (lower (answer c0))).
    + destruct (IH cards (score + 1)%Z
                  (print MsgCorrect
                     (answered (MsgPrompt (question c0)) rest w))
                  i c r idx Hc Hr Hq Hrest Hidx)
        as (w' & Hrun & Hrep & Hstdin & Hfiles).
      exists w'. rewrite Hrun, Hrep. simpl in *.
      repeat split; try done. do 2 f_equal. lia.
    + destruct (IH cards score
                  (print (MsgSorry (answer c0))
                     (answered (MsgPrompt (question c0)) rest w))
                  i c r idx Hc Hr Hq Hrest Hidx)
        as (w' & Hrun & Hrep & Hstdin & Hfiles).
      exists w'. rewrite Hrun, Hrep. simpl in *.
      repeat split; done.
Qed.

(** A quiz whose input ends before a card is reached, no response having
    asked to quit: the question of that card is the last thing printed,
    and no score is among what has been printed. *)
Lemma ask_loop_eof todo : forall cards score w,
  Forall (fun r => is_quit r = false) (stdin w) ->
  length (stdin w) < length todo ->
  exists w' c (out : list Msg),
    ask_loop cards todo score w = (w', Raise EOFError)
    /\ todo !! length (stdin w) = Some c
    /\ stdout w' = stdout w ++ out
    /\ Forall (fun m => is_report m = false) out
    /\ last out = Some (MsgPrompt (question c))
    /\ stdin w' = []
    /\ files w' = files w.
Proof.
  induction todo as [|c todo IH]; intros cards score w Hnq Hlen;
    [simpl in Hlen; lia |].
  destruct (stdin w) as [|r rest] eqn:Hin.
  - exists (print (MsgPrompt (question c)) w), c, [MsgPrompt (question c)].
    simpl. unfold input. simpl. rewrite Hin. repeat split.
    by repeat constructor.
  - apply Forall_cons in Hnq as [Hr Hrest]. simpl in Hlen.
    rewrite (ask_loop_answer _ _ _ _ _ _ _ Hin Hr). simpl.
    destruct (String.eqb (lower r) (lower (answer c))).
    + destruct (IH cards (score + 1)%Z
                  (print MsgCorrect
                     (answered (MsgPrompt (question c)) rest w)))
        as (w' & c' & out & Hrun & Hc & Hout & Hrep & Hlast & Hs & Hf);
        simpl; [done | lia |].
      exists w', c', (MsgPrompt (question c) :: MsgCorrect :: out).
      simpl in *. rewrite Hrun, Hout, <- !app_assoc.
      repeat split; try done.
      * by repeat constructor.
      * destruct out; [done | by rewrite !last_cons_cons].
    + destruct (IH cards score
                  (print (MsgSorry (answer c))
                     (answered (MsgPrompt (question c)) rest w)))
        as (w' & c' & out & Hrun & Hc & Hout & Hrep & Hlast & Hs & Hf);
        simpl; [done | lia |].
      exists w', c', (MsgPrompt (question c) :: MsgSorry (answer c) :: out).
      simpl in *. rewrite Hrun, Hout, <- !app_assoc.
      repeat split; try done.
      * by repeat constructor.
      * destruct out; [done | by rewrite !last_cons_cons].
Qed.

Lemma not_quit (r : string) : lower r <> "q" -> is_quit r = false.
Proof. intros H. unfold is_quit. by apply String.eqb_neq. Qed.

Lemma Forall_not_quit (rs : list string) :
  Forall (fun r => lower r <> "q") rs ->
  Forall (fun r => is_quit r = false) rs.
Proof. intros H. eapply Forall_impl; [exact H | exact not_quit]. Qed.

(** The score counts the positions at which response and answer agree
    once both are in lower case. *)
Lemma count_correct_filter cards (responses : list string) :
  count_correct cards responses
  = Z.of_nat (length (filter (fun cr => lower cr.2 = lower (answer cr.1))
                        (zip cards responses))).
Proof.
  revert responses. induction cards as [|c cards IH]; intros [|r rs];
    try done.
  cbn [count_correct]. rewrite IH.
  change (zip (c :: cards) (r :: rs)) with ((c, r) :: zip cards rs).
  rewrite filter_cons. simpl.
  destruct (String.eqb_spec (lower r) (lower (answer c))) as [Heq | Hne].
  - rewrite decide_True by done. simpl. lia.
  - rewrite decide_False by done. lia.
Qed.

Example sample_deck_built (responses : list string) :
  deck_init "questions" "answers" (sample_world responses)
  = (sample_world_built responses, Return sample_deck).
Proof. vm_compute. reflexivity. Qed.

Example twin_deck_built (responses : list string) :
  deck_init "questions" "answers" (twin_world responses)
  = (twin_world_built responses, Return twin_deck).
Proof. vm_compute. reflexivity. Qed.

(** C3, as the spec states it, fails on a deck with the same text on two
    cards.  Quitting at the second card, whose text is first found at
    index 0, reports 2 attempted questions, not 1: [list.index] looks for
    the card object, and finds it where it is. *)
Lemma attempted_twin_cards :
  exists c,
    flashcards twin_deck !! 1 = Some c
    /\ quiz_report (ask_questions twin_deck
                      (twin_world_built ["1"; "q"])).1
       = Some (1, 2)%Z
    /\ spec_attempted c (flashcards twin_deck) = Some 1%Z.
Proof. eexists. repeat split; reflexivity. Qed.

(** C3. Attempted count on early quit.  When the cards of the deck are
    different objects, as they are in every deck the program builds, and
    the response to the card at position [i] is the first that reads [q]
    in lower case, [ask_questions] stops at that card, reads no more, and
    reports as attempted [i + 1], the position of that card plus one -
    also when another card before it carries the same text - with the
    score earned on the cards before it.  On the deck
    [("2+2","4"), ("3+3","6"), ("5+5","10")] the responses
    [4], [wrong], [q] give 3 attempted and score 1. *)
Theorem attempted_on_quit :
  (forall d w (i : nat) (r : string),
      NoDup (oid <$> flashcards d) ->
      i < length (flashcards d) ->
      stdin w !! i = Some r ->
      lower r = "q" ->
      Forall (fun r' => lower r' <> "q") (take i (stdin w)) ->
      exists w',
        ask_questions d w = (w', Return tt)
        /\ quiz_report w'
           = Some (count_correct (take i (flashcards d)) (stdin w),
                   (Z.of_nat i + 1)%Z)
        /\ stdin w' = drop (S i) (stdin w))
  /\ quiz_report (ask_questions sample_deck
                    (sample_world_built ["4"; "wrong"; "q"])).1
     = Some (1, 3)%Z
  /\ stdin (ask_questions sample_deck
              (sample_world_built ["4"; "wrong"; "q"])).1 = [].
Proof.
  split; [|split; reflexivity].
  intros d w i r Hnd Hi Hr Hq Hbefore.
  destruct (lookup_lt_is_Some_2 (flashcards d) i Hi) as [c Hc].
  destruct (ask_loop_quit (flashcards d) (flashcards d) 0%Z w i c r i)
    as (w' & Hrun & Hrep & Hstdin & _); try done.
  - unfold is_quit. by apply String.eqb_eq.
  - by apply Forall_not_quit.
  - by apply index_obj_lookup.
  - exists w'. unfold ask_questions. by rewrite Hrun, Hrep, Hstdin.
Qed.

(** On the deck with twin cards, quitting at the second card. *)
Lemma attempted_on_quit_witness :
  exists w',
    ask_questions twin_deck (twin_world_built ["1"; "Q"]) = (w', Return tt)
    /\ quiz_report w'
       = Some (count_correct (take 1 (flashcards twin_deck)) ["1"; "Q"],
               (Z.of_nat 1 + 1)%Z)
    /\ stdin w' = [].
Proof.
  apply (proj1 attempted_on_quit twin_deck
           (twin_world_built ["1"; "Q"]) 1 "Q").
  - by apply (bool_decide_unpack _).
  - simpl. lia.
  - reflexivity.
  - reflexivity.
  - repeat constructor. discriminate.
Defined.

(** C4, as the spec states it, fails for a response sequence without
    quit sentinel that is shorter than the deck: the quiz raises
    [EOFError] at the card for which there is no response, and reports
    no score. *)
Lemma quiz_scoring_short_input :
  Forall (fun r => lower r <> "q") ["4"; "6"]
  /\ (ask_questions sample_deck (sample_world_built ["4"; "6"])).2
     = Raise EOFError
  /\ stdout (ask_questions sample_deck (sample_world_built ["4"; "6"])).1
     = [MsgPrompt "2+2"; MsgCorrect; MsgPrompt "3+3"; MsgCorrect;
        MsgPrompt "5+5"].
Proof.
  split; [repeat constructor; discriminate |]. split; reflexivity.
Qed.

(** C4. Quiz scoring.  Let no response read [q] in lower case.  When
    there is a response for every card, [ask_questions] goes through the
    whole deck and reports as score the number of positions at which the
    response equals the answer of the card once both are in lower case,
    out of the number of cards.  When there are fewer responses than
    cards, it raises [EOFError] and has printed no score.  On the deck
    [("2+2","4"), ("3+3","6"), ("5+5","10")] the responses [4], [6], [10]
    give 3 attempted and score 3; on the deck
    [("France","Paris"), ("Italy","ROME")] the responses [PARIS] and
    [rome] with a blank after it give 2 attempted and score 1. *)
Theorem quiz_scoring :
  (forall d w,
      Forall (fun r => lower r <> "q") (stdin w) ->
      (length (flashcards d) <= length (stdin w) ->
       exists w',
         ask_questions d w = (w', Return tt)
         /\ quiz_report w'
            = Some (Z.of_nat
                      (length
                         (filter
                            (fun cr => lower cr.2 = lower (answer cr.1))
                            (zip (flashcards d) (stdin w)))),
                    Z.of_nat (length (flashcards d))))
      /\ (length (stdin w) < length (flashcards d) ->
          exists w',
            ask_questions d w = (w', Raise EOFError)
            /\ Forall (fun m => is_report m = false) (printed w w')))
  /\ quiz_report (ask_questions sample_deck
                    (sample_world_built ["4"; "6"; "10"])).1
     = Some (3, 3)%Z
  /\ quiz_report (ask_questions capital_deck
                    (capital_world_built ["PARIS"; "rome "])).1
     = Some (1, 2)%Z.
Proof.
  split; [|split; reflexivity].
  intros d w Hnq. split.
  - intros Hlen.
    destruct (ask_loop_complete (flashcards d) (flashcards d) 0%Z w Hlen)
      as (w' & Hrun & Hrep & _).
    + apply Forall_take. by apply Forall_not_quit.
    + exists w'. split; [exact Hrun |].
      rewrite Hrep, Z.add_0_l. by rewrite count_correct_filter.
  - intros Hlen.
    destruct (ask_loop_eof (flashcards d) (flashcards d) 0%Z w
                (Forall_not_quit _ Hnq) Hlen)
      as (w' & c & out & Hrun & _ & Hout & Hrep & _).
    exists w'. split; [exact Hrun |].
    unfold printed. by rewrite Hout, drop_app_length.
Qed.

(** Upper case counts as lower case, and nothing else does: of the two
    answers one is right. *)
Lemma quiz_scoring_witness :
  exists w',
    ask_questions capital_deck (capital_world_built ["pARIS"; " Rome"])
    = (w', Return tt)
    /\ quiz_report w' = Some (1, 2)%Z.
Proof.
  destruct (proj1 (proj1 quiz_scoring capital_deck
                     (capital_world_built ["pARIS"; " Rome"])
                     ltac:(repeat constructor; discriminate))
              ltac:(simpl; lia))
    as (w' & Hrun & Hrep).
  exists w'. split; [exact Hrun |]. rewrite Hrep. reflexivity.
Defined.

End Quiz.

(** * Quitting comes before checking the answer *)

Section QuitFirst.

Implicit Types (w : World) (d : FlashcardDeck) (c : Flashcard).
Implicit Types (cards todo : list Flashcard) (score : Z).

(** With answers that all read [q] in lower case, a quiz that comes to
    an end reports the score it started with. *)
Lemma ask_loop_q_answers todo : forall cards score w w',
  Forall (fun c => lower (answer c) = "q") todo ->
  ask_loop cards todo score w = (w', Return tt) ->
  exists n, quiz_report w' = Some (score, n).
Proof.
  induction todo as [|c todo IH]; intros cards score w w' Hq; simpl.
  - intros [= <-]. rewrite quiz_report_final. by eexists.
  - apply Forall_cons in Hq as [Hc Htodo].
    unfold input. simpl. destruct (stdin w) as [|r rest]; [done |].
    rewrite Hc. simpl.
    destruct (String.eqb (lower r) "q").
    + destruct (index_obj c cards) as [idx|]; [|done].
      intros [= <-]. rewrite quiz_report_quit. by eexists.
    + by apply IH.
Qed.

(** C10. The quit check comes before the answer is compared.  At any
    card of the deck, with any score so far, a response that reads [q]
    in lower case ends the quiz there: the quit message with the score
    so far is the only thing printed after the prompt, whatever the
    answer of the card is.  So at a card whose answer reads [q] in lower
    case a response either ends the quiz or is told wrong, the score
    staying as it is; and a deck of such cards never reports a score
    other than 0. *)
Theorem quit_before_compare :
  (forall cards c todo score w (r : string) (rest : list string),
      c ∈ cards ->
      stdin w = r :: rest ->
      lower r = "q" ->
      exists idx,
        index_obj c cards = Some idx
        /\ ask_loop cards (c :: todo) score w
           = (print (MsgQuit score (Z.of_nat idx + 1))
                (answered (MsgPrompt (question c)) rest w),
              Return tt))
  /\ (forall cards c todo score w (r : string) (rest : list string),
        lower (answer c) = "q" ->
        stdin w = r :: rest ->
        lower r <> "q" ->
        ask_loop cards (c :: todo) score w
        = ask_loop cards todo score
            (print (MsgSorry (answer c))
               (answered (MsgPrompt (question c)) rest w)))
  /\ (forall d w w',
        Forall (fun c => lower (answer c) = "q") (flashcards d) ->
        ask_questions d w = (w', Return tt) ->
        exists n, quiz_report w' = Some (0%Z, n)).
Proof.
  split; [|split].
  - intros cards c todo score w r rest Hc Hin Hq.
    destruct (index_obj_elem cards c Hc) as [idx Hidx].
    exists idx. split; [done |].
    apply (ask_loop_quit_now _ _ _ _ _ r rest idx Hin); [|done].
    unfold is_quit. by apply String.eqb_eq.
  - intros cards c todo score w r rest Hc Hin Hr.
    rewrite (ask_loop_answer _ _ _ _ _ _ _ Hin (not_quit r Hr)).
    rewrite Hc. apply String.eqb_neq in Hr. by rewrite Hr.
  - intros d w w' Hq Hrun. by eapply ask_loop_q_answers.
Qed.

(** A card whose answer is [Q], asked with the response [q]. *)
Lemma quit_before_compare_witness :
  exists idx,
    index_obj (mkFlashcard 0 "17th letter" "Q")
      [mkFlashcard 0 "17th letter" "Q"] = Some idx
    /\ ask_loop [mkFlashcard 0 "17th letter" "Q"]
         [mkFlashcard 0 "17th letter" "Q"] 0%Z
         (mkWorld (sample_fs ∅) ["q"] [] 1 (fun k => k))
       = (print (MsgQuit 0%Z (Z.of_nat idx + 1))
            (answered (MsgPrompt "17th letter") []
               (mkWorld (sample_fs ∅) ["q"] [] 1 (fun k => k))),
          Return tt).
Proof.
  apply (proj1 quit_before_compare [mkFlashcard 0 "17th letter" "Q"]
           (mkFlashcard 0 "17th letter" "Q") [] 0%Z
           (mkWorld (sample_fs ∅) ["q"] [] 1 (fun k => k)) "q" []).
  - apply list_elem_of_here.
  - reflexivity.
  - reflexivity.
Defined.

End QuitFirst.

(** * Loading and the round trip *)

Section Files.

Implicit Types (w : World) (d : FlashcardDeck) (s : string).
Implicit Types (fs : FileSystem) (k : nat).

Example empty_deck_built :
  deck_init "questions" "answers" empty_world
  = (empty_world, Return empty_deck).
Proof. vm_compute. reflexivity. Qed.

(** A text without CR is read as it is. *)
Lemma universal_newlines_id s : has_CR s = false -> universal_newlines s = s.
Proof.
  induction s as [|c s IH]; simpl; [done |].
  intros [Hc Hs]%orb_false_elim. rewrite Hc. by rewrite IH.
Qed.

(** [strip] gives the one middle part of a line that has only
    whitespace before and after it and none at its own ends. *)
Lemma lstrip_all_space s t : all_space s = true -> lstrip (s +:+ t) = lstrip t.
Proof.
  induction s as [|c s IH]; simpl; [done |].
  intros [Hc Hs]%andb_true_iff. by rewrite Hc, IH.
Qed.

Lemma rstrip_all_space s : all_space s = true -> rstrip s = EmptyString.
Proof.
  induction s as [|c s IH]; simpl; [done |].
  intros [Hc Hs]%andb_true_iff. by rewrite IH, Hc.
Qed.

Lemma rstrip_app_all_space s t :
  all_space t = true -> rstrip (s +:+ t) = rstrip s.
Proof.
  intros Ht. induction s as [|c s IH]; simpl.
  - by apply rstrip_all_space.
  - by rewrite IH.
Qed.

Lemma strip_unique (line pre mid post : string) :
  line = pre +:+ mid +:+ post ->
  all_space pre = true -> all_space post = true ->
  starts_with_space mid = false -> ends_with_space mid = false ->
  mid = strip line.
Proof.
  intros -> Hpre Hpost Hstart Hend. unfold strip.
  rewrite lstrip_all_space by done.
  destruct mid as [|c mid].
  - simpl. rewrite <- (append_nil_r (lstrip post)).
    destruct (lstrip_spec post) as (pre' & Hp & Hpre' & _).
    symmetry. apply rstrip_all_space.
    rewrite append_nil_r. clear -Hpost.
    induction post as [|c post IH]; simpl in *; [done |].
    apply andb_true_iff in Hpost as [-> Hpost]. by apply IH.
  - simpl in Hstart. simpl. rewrite Hstart.
    change (String c (mid +:+ post)) with (String c mid +:+ post).
    rewrite rstrip_app_all_space by done. symmetry. by apply rstrip_id.
Qed.

(** C8, as the spec states it, fails in two ways.  On a line that starts
    with blanks: [read_file] removes them too.  And for a file that does
    not exist because its path leads through a regular file: [read_file]
    raises [NotADirectoryError]. *)
Lemma read_file_leading_blanks :
  (open_r "questions" (files (padded_world [])) = Return (written ["  2+2 "])
   /\ (read_file "questions" (padded_world [])).2 = Return ["2+2"]
   /\ spec_load (written ["  2+2 "]) = ["  2+2"]
   /\ (read_file "questions" (padded_world [])).2
      <> Return (spec_load (written ["  2+2 "])))
  /\ (path_exists "notes/x" (notes_world []) = false
      /\ read_file "notes/x" (notes_world [])
         = (notes_world [], Raise (NotADirectoryError "notes/x"))).
Proof.
  split.
  - repeat split; [by vm_compute.. | vm_compute; discriminate].
  - split; reflexivity.
Qed.

(** C8. [read_file(filename)] of a file that can be read returns its
    lines in the order of the file, each without the whitespace at its
    two ends, line break included, and otherwise as it is; the world
    stays as it was.  The lines are the text of the file, with CR LF and
    CR read as LF, cut after every LF; what is returned for a line is
    its only part that has whitespace alone before and after it and none
    at its own two ends.  When opening the file raises
    [FileNotFoundError], [read_file] returns the empty list and prints
    [Error: File ... not found.]; no exception is raised.  Any other
    exception raised by opening or reading the file is raised by
    [read_file], and nothing is printed.  By the state of the file
    system: a free entry, and a path through a free entry, are not found;
    a path through a regular file raises [NotADirectoryError], a
    directory [IsADirectoryError], a file that may not be read
    [PermissionError], and a file that is no text
    [UnicodeDecodeError]. *)
Theorem read_file_spec (filename : string) w :
  (forall text,
      open_r filename (files w) = Return text ->
      exists lines,
        read_file filename w = (w, Return (map strip lines))
        /\ foldr String.append EmptyString lines = universal_newlines text
        /\ cut_in_lines lines
        /\ (forall lines' : list string,
              foldr String.append EmptyString lines'
              = universal_newlines text ->
              cut_in_lines lines' -> lines' = lines)
        /\ has_CR (universal_newlines text) = false
        /\ (has_CR text = false -> universal_newlines text = text))
  /\ (forall lines : list string,
        Forall (fun l => has_line_break l = false) lines ->
        open_r filename (files w) = Return (written lines) ->
        read_file filename w = (w, Return (map strip lines)))
  /\ (forall line,
        (exists pre post,
            line = pre +:+ strip line +:+ post
            /\ all_space pre = true /\ all_space post = true
            /\ starts_with_space (strip line) = false
            /\ ends_with_space (strip line) = false)
        /\ (forall pre mid post,
              line = pre +:+ mid +:+ post ->
              all_space pre = true -> all_space post = true ->
              starts_with_space mid = false -> ends_with_space mid = false ->
              mid = strip line))
  /\ (forall p,
        open_r filename (files w) = Raise (FileNotFoundError p) ->
        read_file filename w = (print (MsgFileNotFound filename) w, Return []))
  /\ (forall e,
        open_r filename (files w) = Raise e ->
        (forall p, e <> FileNotFoundError p) ->
        read_file filename w = (w, Raise e))
  /\ (forall k,
        locate filename (files w) = At k ->
        match nodes (files w) !! k with
        | None =>
            read_file filename w
            = (print (MsgFileNotFound filename) w, Return [])
        | Some f =>
            read_file filename w
            = (w,
               if readable f then
                 match content f with
                 | Text text => Return (map strip (readlines text))
                 | Undecodable => Raise UnicodeDecodeError
                 end
               else Raise (PermissionError filename))
        end)
  /\ (forall k,
        locate filename (files w) = Below k ->
        match nodes (files w) !! k with
        | None =>
            read_file filename w
            = (print (MsgFileNotFound filename) w, Return [])
        | Some _ =>
            read_file filename w = (w, Raise (NotADirectoryError filename))
        end)
  /\ (locate filename (files w) = Folder ->
      read_file filename w = (w, Raise (IsADirectoryError filename))).
Proof.
  split; [|split; [|split; [|split; [|split; [|split; [|split]]]]]].
  - intros text Hf. exists (readlines text). unfold read_file. rewrite Hf.
    split; [done |]. split; [apply split_lines_concat |].
    split; [apply split_lines_cut |].
    split; [|split; [apply universal_newlines_no_CR
                    | apply universal_newlines_id]].
    intros lines' Hcat Hcut. unfold readlines. rewrite <- Hcat.
    symmetry. by apply cut_in_lines_unique.
  - intros lines Hnb Hf. unfold read_file, readlines. rewrite Hf.
    rewrite universal_newlines_written, split_lines_written by done.
    rewrite map_map. do 2 f_equal. apply map_ext. intros l. apply strip_line.
  - intros line. split; [apply strip_spec | apply strip_unique].
  - intros p Hf. unfold read_file. by rewrite Hf.
  - intros e Hf Hne. unfold read_file. rewrite Hf.
    destruct e as [msg| | |[| | | |code] p|]; try done.
    by destruct (Hne p).
  - intros k Hloc. unfold read_file, open_r. rewrite Hloc.
    destruct (nodes (files w) !! k) as [f|]; [|done].
    destruct (readable f); [|done]. by destruct (content f).
  - intros k Hloc. unfold read_file, open_r. rewrite Hloc.
    by destruct (nodes (files w) !! k).
  - intros Hloc. unfold read_file, open_r. by rewrite Hloc.
Qed.

(** The sample questions file, and a path that leads nowhere. *)
Lemma read_file_spec_witness :
  read_file "questions" (sample_world [])
  = (sample_world [], Return ["2+2"; "3+3"; "5+5"])
  /\ read_file "nowhere" (sample_world [])
     = (print (MsgFileNotFound "nowhere") (sample_world []), Return [])
  /\ read_file "." (sample_world [])
     = (sample_world [], Raise (IsADirectoryError ".")).
Proof.
  split; [|split].
  - apply (proj1 (proj2 (read_file_spec "questions" (sample_world [])))
             ["2+2"; "3+3"; "5+5"]).
    + repeat constructor.
    + reflexivity.
  - apply (proj1 (proj2 (proj2 (proj2
             (read_file_spec "nowhere" (sample_world [])))))
             "nowhere").
    reflexivity.
  - apply (proj1 (proj2 (proj2 (proj2 (proj2
             (read_file_spec "." (sample_world []))))))
             (IsADirectoryError ".")).
    + reflexivity.
    + discriminate.
Defined.

(** A file that can be read is read by [read_file]. *)
Lemma read_file_open (filename : string) w (text : string) :
  open_r filename (files w) = Return text ->
  read_file filename w = (w, Return (map strip (readlines text))).
Proof. intros H. unfold read_file. by rewrite H. Qed.

(** The lines of a text are plain. *)
Lemma lines_plain (text : string) :
  Forall (fun l => plain l = true) (map strip (readlines text)).
Proof.
  apply Forall_fmap, Forall_forall. intros l Hl. simpl.
  pose proof (split_lines_breaks _ (universal_newlines_no_CR text)) as Hb.
  rewrite Forall_forall in Hb. specialize (Hb l Hl).
  destruct (strip_spec l) as (_ & _ & _ & _ & _ & Hstart & Hend).
  apply plain_spec. repeat split; [done.. |].
  unfold strip. by apply rstrip_breaks, lstrip_breaks.
Qed.

(** The constructor on two files that can be read and have equally many
    lines. *)
Lemma deck_init_read (question_file answer_file : string) w
    (cq ca : string) :
  open_r question_file (files w) = Return cq ->
  open_r answer_file (files w) = Return ca ->
  length (map strip (readlines cq)) = length (map strip (readlines ca)) ->
  deck_init question_file answer_file w
  = ((build_flashcards
        (zip (map strip (readlines cq)) (map strip (readlines ca))) w).1,
     Return (mkDeck question_file answer_file
               (map strip (readlines cq)) (map strip (readlines ca))
               (build_flashcards
                  (zip (map strip (readlines cq))
                     (map strip (readlines ca))) w).2)).
Proof.
  intros Hq Ha Hlen. rewrite deck_init_unfold. simpl.
  rewrite (read_file_open _ _ _ Hq), (read_file_open _ _ _ Ha). simpl.
  rewrite (read_file_open _ _ _ Ha). simpl.
  by rewrite Hlen, Nat.eqb_refl.
Qed.

(** What is read at a path after a file has been written. *)
Lemma open_r_put (path : string) k (t : string) fs (c : string) :
  open_r path fs = Return c ->
  (locate path fs = At k /\ open_r path (put k t fs) = Return t)
  \/ (locate path fs <> At k /\ open_r path (put k t fs) = Return c).
Proof.
  intros (j & f & Hloc & Hf & Hr & Hc)%open_r_Return.
  unfold open_r. rewrite locate_put, Hloc.
  destruct (decide (j = k)) as [-> | Hne].
  - left. split; [done |]. rewrite nodes_put_eq, Hf. simpl. by rewrite Hr.
  - right. split; [congruence |].
    rewrite nodes_put_ne by congruence. by rewrite Hf, Hr, Hc.
Qed.

Lemma open_r_same_place (p p' : string) fs (c : string) :
  locate p fs = locate p' fs ->
  open_r p fs = Return c -> open_r p' fs = Return c.
Proof.
  intros Hloc (j & f & Hj & Hf & Hr & Hc)%open_r_Return.
  unfold open_r. rewrite <- Hloc, Hj, Hf, Hr, Hc. done.
Qed.

(** Writing to a file the lines it is read as, or writing another file,
    leaves the lines read at a path as they were. *)
Lemma lines_after_write (path p : string) (data : list string) w
    (c : string) :
  open_r path (files w) = Return c ->
  Forall (fun l => plain l = true) data ->
  (locate path (files w) = locate p (files w) ->
   map strip (readlines c) = data) ->
  exists c',
    open_r path (files (write_file p data w)) = Return c'
    /\ map strip (readlines c') = map strip (readlines c).
Proof.
  intros Hc Hplain Hsame. rewrite files_write_file.
  destruct (write_entry p (files w)) as [k|] eqn:Hk; [|by exists c].
  apply write_entry_locate in Hk.
  destruct (open_r_put path k (written data) _ _ Hc)
    as [[Heq ->] | [_ ->]]; [|by exists c].
  exists (written data). split; [done |].
  rewrite read_back by done. symmetry. apply Hsame. congruence.
Qed.

(** Two different files that the program can keep hold, after the two
    writes, what was written, and the program can still keep them. *)
Lemma two_writes_read (qf af : string) (qs ans : list string) w
    (kq ka : nat) :
  own_file qf (files w) = Some kq ->
  own_file af (files w) = Some ka ->
  kq <> ka ->
  open_r qf (files (write_file af ans (write_file qf qs w)))
  = Return (written qs)
  /\ open_r af (files (write_file af ans (write_file qf qs w)))
     = Return (written ans)
  /\ own_file qf (files (write_file af ans (write_file qf qs w))) = Some kq
  /\ own_file af (files (write_file af ans (write_file qf qs w))) = Some ka.
Proof.
  intros Hq Ha Hne.
  pose proof (own_file_open_w _ _ _ Hq) as Hwq.
  pose proof (own_file_open_w _ _ _ Ha) as Hwa.
  apply write_entry_Some in Hwq, Hwa.
  rewrite !files_write_file, Hwq.
  rewrite (write_entry_put _ _ _ _ _ Hwq), Hwa.
  split; [|split; [|split]].
  - rewrite (open_r_put_ne qf _ kq ka).
    + by apply own_file_put_eq.
    + rewrite locate_put. by apply own_file_locate.
    + congruence.
  - apply own_file_put_eq. by apply own_file_put.
  - by apply own_file_put, own_file_put.
  - by apply own_file_put, own_file_put.
Qed.

(** Plain entries, saved in two different files that the program can
    keep, are in the files. *)
Lemma read_file_saved d w (kq ka : nat) :
  own_file (ques_file d) (files w) = Some kq ->
  own_file (ans_file d) (files w) = Some ka ->
  kq <> ka ->
  open_r (ques_file d) (files (save d w)) = Return (written (questions d))
  /\ open_r (ans_file d) (files (save d w)) = Return (written (answers d)).
Proof.
  intros Hq Ha Hne. unfold save.
  by destruct (two_writes_read (ques_file d) (ans_file d) (questions d)
                 (answers d) w kq ka Hq Ha Hne) as (? & ? & _).
Qed.

(** C9, as the spec states it, fails in three ways.  A question with a
    blank in front ([add_question] takes any string) comes back without
    it.  When one file serves as questions file and answers file, be it
    under two names, the questions come back as the answers.  And when
    the questions file may not be written, what comes back is what the
    file held, here one line less than the answers file, so that no deck
    is built. *)
Lemma round_trip_fails :
  (card_text <$> flashcards (add_question " x" "y" empty_deck empty_world).2
   = [(" x", "y")]
   /\ exists w' d',
       deck_init "questions" "answers"
         (save (add_question " x" "y" empty_deck empty_world).2
            (add_question " x" "y" empty_deck empty_world).1)
       = (w', Return d')
       /\ card_text <$> flashcards d' = [("x", "y")])
  /\ (card_text <$> flashcards
        (add_question "q" "a" one_file_deck one_file_world_built).2
      = [("x", "x"); ("q", "a")]
      /\ exists w' d',
          deck_init "cards" "./cards"
            (save (add_question "q" "a" one_file_deck
                     one_file_world_built).2
               (add_question "q" "a" one_file_deck
                  one_file_world_built).1)
          = (w', Return d')
          /\ card_text <$> flashcards d' = [("x", "x"); ("a", "a")])
  /\ (card_text <$> flashcards (add_question "7+7" "14" sample_deck
                                  locked_world).2
      = [("2+2", "4"); ("3+3", "6"); ("5+5", "10"); ("7+7", "14")]
      /\ (deck_init "questions" "answers"
            (save (add_question "7+7" "14" sample_deck locked_world).2
               (add_question "7+7" "14" sample_deck locked_world).1)).2
         = Raise (ValueError
                    "Number of questions and answers must be the same")).
Proof.
  split; [|split].
  - split; [reflexivity |]. eexists _, _.
    split; [vm_compute; reflexivity | reflexivity].
  - split; [reflexivity |]. eexists _, _.
    split; [vm_compute; reflexivity | reflexivity].
  - split; [reflexivity | vm_compute; reflexivity].
Qed.

(** C9. Round trip.  Take a deck with as many answers as questions,
    whose two paths lead to two different files that the program can
    keep - files it may write and read, or free entries that may take a
    file - and whose questions and answers are plain: no whitespace at
    either end and no line break inside.  Saving it and building a deck
    from the same two paths succeeds and gives the same questions and
    answers, with the cards in their order; these are the cards of the
    deck that was saved, taken as texts, unless it was shuffled since its
    cards were built. *)
Theorem round_trip d w (kq ka : nat) :
  own_file (ques_file d) (files w) = Some kq ->
  own_file (ans_file d) (files w) = Some ka ->
  kq <> ka ->
  length (questions d) = length (answers d) ->
  Forall (fun l => plain l = true) (questions d) ->
  Forall (fun l => plain l = true) (answers d) ->
  exists w' d',
    deck_init (ques_file d) (ans_file d) (save d w) = (w', Return d')
    /\ questions d' = questions d
    /\ answers d' = answers d
    /\ card_text <$> flashcards d' = zip (questions d) (answers d)
    /\ (in_file_order d ->
        card_text <$> flashcards d' = card_text <$> flashcards d)
    /\ (cards_of_files d ->
        card_text <$> flashcards d' ≡ₚ card_text <$> flashcards d).
Proof.
  intros Hkq Hka Hne Hlen Hq Ha.
  destruct (read_file_saved d w kq ka Hkq Hka Hne) as [Hrq Hra].
  rewrite (deck_init_read _ _ _ _ _ Hrq Hra);
    rewrite !read_back by done; [|done].
  eexists _, _. split; [reflexivity |]. simpl.
  destruct (build_flashcards_spec (zip (questions d) (answers d))
              (save d w)) as (_ & Htext & _).
  repeat split; [done | |].
  - intros Hord. by rewrite Hord.
  - intros Hp. unfold cards_of_files in Hp. by rewrite Hp, Htext.
Qed.

Lemma round_trip_witness :
  exists w' d',
    deck_init "questions" "answers" (save sample_deck (bare_world []))
    = (w', Return d')
    /\ questions d' = ["2+2"; "3+3"; "5+5"]
    /\ answers d' = ["4"; "6"; "10"]
    /\ card_text <$> flashcards d'
       = [("2+2", "4"); ("3+3", "6"); ("5+5", "10")]
    /\ (in_file_order sample_deck ->
        card_text <$> flashcards d' = card_text <$> flashcards sample_deck)
    /\ (cards_of_files sample_deck ->
        card_text <$> flashcards d' ≡ₚ card_text <$> flashcards sample_deck).
Proof.
  apply (round_trip sample_deck (bare_world []) 0 1).
  - reflexivity.
  - reflexivity.
  - discriminate.
  - reflexivity.
  - repeat constructor.
  - repeat constructor.
Defined.

End Files.

(** * Decks built from files *)

Section Loaded.

Implicit Types (w : World) (d : FlashcardDeck) (s : string).

(** Each method keeps the cards the questions with their answers. *)
Lemma cards_of_files_init question_file answer_file w w' d :
  deck_init question_file answer_file w = (w', Return d) ->
  in_file_order d.
Proof.
  intros (qs & ans & _ & _ & _ & _ & ->)%deck_init_Return.
  unfold in_file_order. simpl.
  by destruct (build_flashcards_spec (zip qs ans)
                 (read_file answer_file (read_file question_file w).1).1)
    as (_ & -> & _).
Qed.

Lemma cards_of_files_add (q a : string) d w :
  deck_inv d -> cards_of_files d -> cards_of_files (add_question q a d w).2.
Proof.
  intros [Hlen _] Hp. rewrite add_question_unfold.
  unfold cards_of_files in *. simpl.
  rewrite fmap_app, zip_with_app by done. simpl. by rewrite Hp.
Qed.

Lemma cards_of_files_delete (q : string) d w :
  deck_inv d -> cards_of_files d ->
  cards_of_files (delete_question q d w).1.2.
Proof.
  intros [Hlen _] Hp.
  destruct (index q (questions d)) as [i|] eqn:Hi.
  - rewrite (delete_question_found q d w i Hi Hlen).
    unfold cards_of_files. simpl.
    by destruct (build_flashcards_spec
                   (zip (delete i (questions d)) (delete i (answers d))) w)
      as (_ & -> & _).
  - rewrite delete_question_missing by (by apply index_None). done.
Qed.

Lemma ask_loop_next_id todo : forall cards score w,
  next_id (ask_loop cards todo score w).1 = next_id w.
Proof.
  induction todo as [|c todo IH]; intros cards score w; simpl; [done |].
  unfold input. simpl. destruct (stdin w) as [|r rest]; simpl; [done |].
  destruct (String.eqb (lower r) "q").
  - by destruct (index_obj c cards).
  - destruct (String.eqb (lower r) (lower (answer c))); by rewrite IH.
Qed.

(** X1. Through any sequence of calls of its methods, a deck made by the
    constructor keeps three things: its questions, answers and cards are
    equally many; its cards are different objects, all created already;
    and its cards carry exactly the questions paired with their answers,
    in some order. *)
Lemma built_inv w d :
  built w d -> deck_inv d /\ distinct_cards w d /\ cards_of_files d.
Proof.
  induction 1 as [qf af w w' d Hinit | w d _ (Hi & Hd & Hp)
                 | w d _ (Hi & Hd & Hp) | q a w d _ (Hi & Hd & Hp)
                 | q w d _ (Hi & Hd & Hp) | w w' d _ (Hi & Hd & Hp) Hle].
  - split; [by eapply deck_inv_init |].
    split; [by eapply distinct_cards_init |].
    apply cards_of_files_init in Hinit. unfold cards_of_files.
    by rewrite Hinit.
  - split; [by apply deck_inv_shuffle |].
    split; [by apply distinct_cards_shuffle |].
    destruct (shuffle_spec d w) as (Hperm & Hq & Ha & _).
    unfold cards_of_files. by rewrite Hperm, Hq, Ha.
  - split; [done |]. split; [|done].
    unfold distinct_cards, ask_questions. by rewrite ask_loop_next_id.
  - auto using deck_inv_add, distinct_cards_add, cards_of_files_add.
  - auto using deck_inv_delete, distinct_cards_delete,
      cards_of_files_delete.
  - split; [done |]. split; [|done].
    destruct Hd as [Hnd Hlt]. split; [done |].
    eapply Forall_impl; [exact Hlt |]. simpl. lia.
Qed.

(** A deck built from files that were not found need not come back:
    when the questions path leads through the place of the answers file,
    saving the empty deck makes the answers file, and the constructor then
    raises [NotADirectoryError] for the questions path. *)
Example round_trip_loaded_missing :
  exists w1,
    deck_init "notes/x" "notes" (bare_world [])
    = (w1, Return (mkDeck "notes/x" "notes" [] [] []))
    /\ (deck_init "notes/x" "notes"
          (save (mkDeck "notes/x" "notes" [] [] []) w1)).2
       = Raise (NotADirectoryError "notes/x").
Proof. eexists. split; vm_compute; reflexivity. Qed.

(** X2. A deck that the constructor has just built from two files that
    it found comes back as it is when it is saved and built again from the
    same paths: the same questions, the same answers, the same cards in
    the same order.  This is so whether or not the files can be written,
    and whether the two paths lead to two files or to one. *)
Lemma round_trip_loaded (question_file answer_file : string) w w1 d
    (cq ca : string) :
  open_r question_file (files w) = Return cq ->
  open_r answer_file (files w) = Return ca ->
  deck_init question_file answer_file w = (w1, Return d) ->
  exists w2 d2,
    deck_init question_file answer_file (save d w1) = (w2, Return d2)
    /\ questions d2 = questions d
    /\ answers d2 = answers d
    /\ card_text <$> flashcards d2 = card_text <$> flashcards d.
Proof.
  intros Hq Ha Hinit.
  pose proof (deck_inv_init _ _ _ _ _ Hinit) as [Hlen _].
  pose proof (cards_of_files_init _ _ _ _ _ Hinit) as Hord.
  apply deck_init_Return in Hinit as (qs & ans & Hqs & Hans & _ & Hw1 & Hd).
  rewrite (read_file_open _ _ _ Hq) in Hqs, Hw1, Hd.
  cbn [fst snd] in Hqs, Hw1, Hd.
  rewrite (read_file_open _ _ _ Ha) in Hans, Hw1, Hd.
  cbn [fst snd] in Hans, Hw1, Hd.
  injection Hqs as <-. injection Hans as <-.
  assert (files w1 = files w) as Hf.
  { rewrite Hw1.
    by destruct (build_flashcards_spec
                   (zip (map strip (readlines cq)) (map strip (readlines ca)))
                   w) as (-> & _). }
  assert (questions d = map strip (readlines cq)) as Hdq by (by rewrite Hd).
  assert (answers d = map strip (readlines ca)) as Hda by (by rewrite Hd).
  assert (ques_file d = question_file) as Hqf by (by rewrite Hd).
  assert (ans_file d = answer_file) as Haf by (by rewrite Hd).
  clear Hw1 Hd. rewrite <- Hf in Hq, Ha.
  assert (locate question_file (files w1) = locate answer_file (files w1) ->
          questions d = answers d) as Hsame.
  { intros Hloc. rewrite Hdq, Hda.
    pose proof (open_r_same_place _ _ _ _ Hloc Hq) as Ha'.
    rewrite Ha in Ha'. by injection Ha' as ->. }
  (* the questions are written *)
  unfold save. rewrite Hqf, Haf.
  set (wq := write_file question_file (questions d) w1).
  destruct (lines_after_write question_file question_file (questions d)
              w1 cq Hq) as (cq1 & Hq1 & Hlq1);
    [rewrite Hdq; apply lines_plain | done |].
  destruct (lines_after_write answer_file question_file (questions d)
              w1 ca Ha) as (ca1 & Ha1 & Hla1);
    [rewrite Hdq; apply lines_plain
    | intros Hloc; symmetry in Hloc; rewrite (Hsame Hloc); done |].
  fold wq in Hq1, Ha1.
  (* the answers are written *)
  assert (forall p, locate p (files wq) = locate p (files w1)) as Hloc
    by (intros p; apply locate_write_file).
  destruct (lines_after_write question_file answer_file (answers d)
              wq cq1 Hq1) as (cq2 & Hq2 & Hlq2);
    [rewrite Hda; apply lines_plain
    | rewrite !Hloc; intros Hl; rewrite Hlq1, <- Hdq; by apply Hsame |].
  destruct (lines_after_write answer_file answer_file (answers d)
              wq ca1 Ha1) as (ca2 & Ha2 & Hla2);
    [rewrite Hda; apply lines_plain | intros _; by rewrite Hla1 |].
  rewrite (deck_init_read _ _ _ _ _ Hq2 Ha2);
    rewrite Hlq2, Hlq1, Hla2, Hla1, <- Hdq, <- Hda; [|done].
  eexists _, _. split; [reflexivity |]. simpl.
  repeat split.
  destruct (build_flashcards_spec (zip (questions d) (answers d))
              (write_file answer_file (answers d) wq)) as (_ & -> & _).
  by rewrite Hord.
Qed.

End Loaded.

(** * More on the quiz *)

Section QuizRuns.

Implicit Types (w : World) (d : FlashcardDeck) (c : Flashcard).
Implicit Types (cards todo : list Flashcard) (score : Z).

(** X6. When the input holds fewer lines than the deck has cards and none
    of them asks to quit, [ask_questions] raises [EOFError]: the question
    of the first card without a response is the last thing it has
    printed, nothing it has printed is a score, it has read all the input
    and has left the files alone. *)
Theorem ask_questions_eof d w :
  Forall (fun r => lower r <> "q") (stdin w) ->
  length (stdin w) < length (flashcards d) ->
  exists w' c (out : list Msg),
    ask_questions d w = (w', Raise EOFError)
    /\ flashcards d !! length (stdin w) = Some c
    /\ stdout w' = stdout w ++ out
    /\ last out = Some (MsgPrompt (question c))
    /\ Forall (fun m => is_report m = false) out
    /\ stdin w' = []
    /\ files w' = files w.
Proof.
  intros Hnq Hlen.
  destruct (ask_loop_eof (flashcards d) (flashcards d) 0%Z w
              (Forall_not_quit _ Hnq) Hlen)
    as (w' & c & out & Hrun & Hc & Hout & Hrep & Hlast & Hin & Hfiles).
  by exists w', c, out.
Qed.

Lemma ask_questions_eof_witness :
  exists w' c (out : list Msg),
    ask_questions sample_deck (sample_world_built ["4"; "six"])
    = (w', Raise EOFError)
    /\ flashcards sample_deck !! 2 = Some c
    /\ stdout w' = [] ++ out
    /\ last out = Some (MsgPrompt (question c))
    /\ Forall (fun m => is_report m = false) out
    /\ stdin w' = []
    /\ files w' = files (sample_world_built ["4"; "six"]).
Proof.
  apply (ask_questions_eof sample_deck (sample_world_built ["4"; "six"])).
  - repeat constructor; discriminate.
  - simpl. lia.
Defined.

(** Whatever is typed, the loop leaves the files and the allocator alone,
    reads at most one line a card, and ends with a report whose score lies
    between 0 and the number of questions it is out of, or with [EOFError]
    at the end of the input. *)
Lemma ask_loop_outcome todo : forall done cards score w,
  cards = done ++ todo ->
  NoDup (oid <$> cards) ->
  (0 <= score <= Z.of_nat (length done))%Z ->
  files (ask_loop cards todo score w).1 = files w
  /\ next_id (ask_loop cards todo score w).1 = next_id w
  /\ (exists k, k <= length todo
                /\ stdin (ask_loop cards todo score w).1 = drop k (stdin w))
  /\ (((ask_loop cards todo score w).2 = Return tt
       /\ exists s n,
           quiz_report (ask_loop cards todo score w).1 = Some (s, n)
           /\ (0 <= s <= n)%Z /\ (n <= Z.of_nat (length cards))%Z)
      \/ ((ask_loop cards todo score w).2 = Raise EOFError
          /\ stdin (ask_loop cards todo score w).1 = [])).
Proof.
  induction todo as [|c todo IH]; intros done cards score w Hcards Hnd Hs.
  - simpl. rewrite quiz_report_final. repeat split.
    + exists 0. by rewrite drop_0.
    + left. split; [done |]. exists score, (Z.of_nat (length cards)).
      split; [done |]. rewrite Hcards, app_nil_r. lia.
  - assert (length cards = length done + S (length todo)) as Hlen.
    { rewrite Hcards, length_app. done. }
    destruct (stdin w) as [|r rest] eqn:Hin.
    + simpl. unfold input. simpl. rewrite Hin. repeat split.
      * exists 0. simpl. rewrite Hin. split; [lia | done].
      * right. simpl. by rewrite Hin.
    + destruct (is_quit r) eqn:Hq.
      * assert (index_obj c cards = Some (length done)) as Hidx.
        { apply index_obj_lookup; [done |].
          rewrite Hcards. by rewrite list_lookup_middle. }
        rewrite (ask_loop_quit_now _ _ _ _ _ _ _ _ Hin Hq Hidx).
        simpl. rewrite quiz_report_quit. repeat split.
        -- exists 1. split; [simpl; lia | done].
        -- left. split; [done |]. eexists _, _. split; [reflexivity |]. lia.
      * rewrite (ask_loop_answer _ _ _ _ _ _ _ Hin Hq).
        assert (cards = (done ++ [c]) ++ todo) as Hcards'.
        { by rewrite <- app_assoc. }
        assert (length (done ++ [c]) = S (length done)) as Hdone.
        { rewrite length_app. simpl. lia. }
        destruct (String.eqb (lower r) (lower (answer c))).
        -- destruct (IH (done ++ [c]) cards (score + 1)%Z
                       (print MsgCorrect
                          (answered (MsgPrompt (question c)) rest w))
                       Hcards' Hnd) as (Hf & Hn & (k & Hk & Hdrop) & Hres);
             [lia |].
           rewrite Hf, Hn. simpl in *. repeat split; [|exact Hres].
           exists (S k). split; [lia | done].
        -- destruct (IH (done ++ [c]) cards score
                       (print (MsgSorry (answer c))
                          (answered (MsgPrompt (question c)) rest w))
                       Hcards' Hnd) as (Hf & Hn & (k & Hk & Hdrop) & Hres);
             [lia |].
           rewrite Hf, Hn. simpl in *. repeat split; [|exact Hres].
           exists (S k). split; [lia | done].
Qed.

(** X7. On a deck whose cards are different objects, whatever is typed,
    [ask_questions] changes no file, reads at most one line for each card,
    and ends in one of two ways: it returns after a report of a score
    between 0 and the number of questions it is out of, which is at most
    the size of the deck; or it raises [EOFError], the input being used
    up.  No other exception leaves it. *)
Theorem ask_questions_outcome d w :
  NoDup (oid <$> flashcards d) ->
  files (ask_questions d w).1 = files w
  /\ (exists k, k <= length (flashcards d)
                /\ stdin (ask_questions d w).1 = drop k (stdin w))
  /\ (((ask_questions d w).2 = Return tt
       /\ exists s n,
           quiz_report (ask_questions d w).1 = Some (s, n)
           /\ (0 <= s <= n)%Z
           /\ (n <= Z.of_nat (length (flashcards d)))%Z)
      \/ ((ask_questions d w).2 = Raise EOFError
          /\ stdin (ask_questions d w).1 = [])).
Proof.
  intros Hnd.
  destruct (ask_loop_outcome (flashcards d) [] (flashcards d) 0%Z w
              eq_refl Hnd) as (Hf & _ & Hk & Hres); [simpl; lia |].
  done.
Qed.

Lemma ask_questions_outcome_witness :
  files (ask_questions twin_deck (twin_world_built ["1"])).1
  = files (twin_world_built ["1"])
  /\ (exists k, k <= length (flashcards twin_deck)
                /\ stdin (ask_questions twin_deck
                            (twin_world_built ["1"])).1
                   = drop k (stdin (twin_world_built ["1"])))
  /\ (((ask_questions twin_deck (twin_world_built ["1"])).2 = Return tt
       /\ exists s n,
           quiz_report (ask_questions twin_deck
                          (twin_world_built ["1"])).1 = Some (s, n)
           /\ (0 <= s <= n)%Z
           /\ (n <= Z.of_nat (length (flashcards twin_deck)))%Z)
      \/ ((ask_questions twin_deck (twin_world_built ["1"])).2
          = Raise EOFError
          /\ stdin (ask_questions twin_deck
                      (twin_world_built ["1"])).1 = [])).
Proof.
  apply (ask_questions_outcome twin_deck (twin_world_built ["1"])).
  by apply (bool_decide_unpack _).
Defined.

(** X5. At any card of the deck the only responses that end the quiz are
    [q] and [Q]: they end it at once, and every other response - [quit],
    or [q] with a blank before it - is checked against the answer of the
    card, counted when it equals the answer in lower case, and followed by
    the next card. *)
Theorem quit_only_on_q cards c todo score w (r : string)
    (rest : list string) :
  c ∈ cards ->
  stdin w = r :: rest ->
  ((r = "q" \/ r = "Q") ->
   exists idx,
     ask_loop cards (c :: todo) score w
     = (print (MsgQuit score (Z.of_nat idx + 1))
          (answered (MsgPrompt (question c)) rest w),
        Return tt))
  /\ (r <> "q" -> r <> "Q" ->
      ask_loop cards (c :: todo) score w
      = if String.eqb (lower r) (lower (answer c))
        then ask_loop cards todo (score + 1)
               (print MsgCorrect (answered (MsgPrompt (question c)) rest w))
        else ask_loop cards todo score
               (print (MsgSorry (answer c))
                  (answered (MsgPrompt (question c)) rest w))).
Proof.
  intros Hc Hin. split.
  - intros Hq. apply is_quit_spec in Hq.
    destruct (index_obj_elem cards c Hc) as [idx Hidx].
    exists idx. by apply (ask_loop_quit_now _ _ _ _ _ r rest idx).
  - intros H1 H2. apply ask_loop_answer; [done |].
    destruct (is_quit r) eqn:Hq; [|done].
    apply is_quit_spec in Hq as [-> | ->]; done.
Qed.

Lemma quit_only_on_q_witness :
  ask_loop (flashcards sample_deck) (flashcards sample_deck) 0%Z
    (sample_world_built [" q"])
  = if String.eqb (lower " q") (lower "4")
    then ask_loop (flashcards sample_deck)
           [mkFlashcard 1 "3+3" "6"; mkFlashcard 2 "5+5" "10"] (0 + 1)
           (print MsgCorrect
              (answered (MsgPrompt "2+2") [] (sample_world_built [" q"])))
    else ask_loop (flashcards sample_deck)
           [mkFlashcard 1 "3+3" "6"; mkFlashcard 2 "5+5" "10"] 0
           (print (MsgSorry "4")
              (answered (MsgPrompt "2+2") [] (sample_world_built [" q"]))).
Proof.
  apply (quit_only_on_q (flashcards sample_deck) (mkFlashcard 0 "2+2" "4")
           [mkFlashcard 1 "3+3" "6"; mkFlashcard 2 "5+5" "10"] 0%Z
           (sample_world_built [" q"]) " q" []).
  - apply list_elem_of_here.
  - reflexivity.
  - discriminate.
  - discriminate.
Defined.

End QuizRuns.

(** * More on the deck *)

Section DeckMore.

Implicit Types (w : World) (d : FlashcardDeck) (c : Flashcard).

Lemma built_inv_witness :
  deck_inv (shuffle (add_question "7+7" "14" sample_deck
                       (sample_world_built [])).2
              (add_question "7+7" "14" sample_deck
                 (sample_world_built [])).1).2
  /\ distinct_cards
       (shuffle (add_question "7+7" "14" sample_deck
                   (sample_world_built [])).2
          (add_question "7+7" "14" sample_deck
             (sample_world_built [])).1).1
       (shuffle (add_question "7+7" "14" sample_deck
                   (sample_world_built [])).2
          (add_question "7+7" "14" sample_deck
             (sample_world_built [])).1).2
  /\ cards_of_files
       (shuffle (add_question "7+7" "14" sample_deck
                   (sample_world_built [])).2
          (add_question "7+7" "14" sample_deck
             (sample_world_built [])).1).2.
Proof.
  apply built_inv.
  apply built_shuffle, built_add.
  apply (built_init "questions" "answers" (sample_world [])).
  reflexivity.
Defined.

(** The deck built from one file under two names. *)
Lemma round_trip_loaded_witness :
  exists w2 d2,
    deck_init "cards" "./cards" (save one_file_deck one_file_world_built)
    = (w2, Return d2)
    /\ questions d2 = questions one_file_deck
    /\ answers d2 = answers one_file_deck
    /\ card_text <$> flashcards d2 = card_text <$> flashcards one_file_deck.
Proof.
  apply (round_trip_loaded "cards" "./cards" one_file_world
           one_file_world_built one_file_deck (written ["x"])
           (written ["x"])).
  - reflexivity.
  - reflexivity.
  - reflexivity.
Defined.

(** X3. Every line that [read_file] returns is free of whitespace at both
    ends and of line breaks, whatever the file holds: stripping it again
    changes nothing. *)
Theorem read_file_lines_stripped (filename : string) w (ls : list string) :
  (read_file filename w).2 = Return ls ->
  Forall (fun l => strip l = l
                   /\ starts_with_space l = false
                   /\ ends_with_space l = false
                   /\ has_line_break l = false)
    ls.
Proof.
  intros Hls. eapply Forall_impl; [by eapply read_file_plain |]. simpl.
  intros l (Hs & He & Hb)%plain_spec. repeat split; [|done..].
  unfold strip. by rewrite lstrip_id, rstrip_id.
Qed.

Lemma read_file_lines_stripped_witness :
  Forall (fun l => strip l = l
                   /\ starts_with_space l = false
                   /\ ends_with_space l = false
                   /\ has_line_break l = false)
    ["2+2"].
Proof.
  apply (read_file_lines_stripped "questions" (padded_world [])).
  reflexivity.
Defined.

Lemma index_new (q : string) (l : list string) :
  q ∉ l -> index q (l ++ [q]) = Some (length l).
Proof.
  intros Hq. apply index_Some. split.
  - by rewrite list_lookup_middle.
  - intros j Hj Hl. rewrite lookup_app_l in Hl by done.
    apply Hq. by eapply list_elem_of_lookup_2.
Qed.

Lemma delete_last {A} (l : list A) (x : A) :
  delete (length l) (l ++ [x]) = l.
Proof. by rewrite delete_middle, app_nil_r. Qed.

(** The file system after a write depends on the file system before
    it; a second write to a path undoes the first; and a write to the
    answers file before the two writes of a save is undone by them. *)
Lemma files_write_file_eq (p : string) (data : list string) w w0 :
  files w0 = files w ->
  files (write_file p data w0) = files (write_file p data w).
Proof. intros H. by rewrite !files_write_file, H. Qed.

Lemma write_twice (p : string) (data data' : list string) w :
  files (write_file p data (write_file p data' w))
  = files (write_file p data w).
Proof.
  rewrite (files_write_file p data), write_entry_write_file.
  rewrite !(files_write_file _ _ w).
  destruct (write_entry p (files w)) as [k|]; [apply put_put_eq | done].
Qed.

Lemma write_absorb (q a : string) (Q A A' : list string) w :
  files (write_file a A (write_file q Q (write_file a A' w)))
  = files (write_file a A (write_file q Q w)).
Proof.
  rewrite !(files_write_file a A), !write_entry_write_file.
  rewrite !(files_write_file q Q), !write_entry_write_file.
  rewrite (files_write_file a A').
  destruct (write_entry a (files w)) as [ka|] eqn:Ha; [|done].
  destruct (write_entry q (files w)) as [kq|] eqn:Hq.
  - destruct (decide (ka = kq)) as [-> | Hne].
    + by rewrite !put_put_eq.
    + rewrite (put_put_comm kq ka) by done. by rewrite put_put_eq.
  - apply put_put_eq.
Qed.

(** X4. Deleting a question that has just been added, and that the deck
    did not hold before, undoes the addition: the deck has the questions
    and answers from before, cards for them in their order, and the file
    system is what saving the deck from before would have left - be the
    files writable or not, two or one. *)
Theorem delete_after_add (q a : string) d w :
  length (questions d) = length (answers d) ->
  q ∉ questions d ->
  (delete_question q (add_question q a d w).2 (add_question q a d w).1).2
  = Return tt
  /\ questions (delete_question q (add_question q a d w).2
                  (add_question q a d w).1).1.2
     = questions d
  /\ answers (delete_question q (add_question q a d w).2
                (add_question q a d w).1).1.2
     = answers d
  /\ card_text <$> flashcards (delete_question q (add_question q a d w).2
                                 (add_question q a d w).1).1.2
     = zip (questions d) (answers d)
  /\ files (delete_question q (add_question q a d w).2
              (add_question q a d w).1).1.1
     = files (save d w).
Proof.
  intros Hlen Hq. rewrite add_question_unfold. cbn [fst snd].
  set (w0 := mkWorld (files w) (stdin w) (stdout w) (S (next_id w)) (rng w)).
  set (w1 := write_file _ _ (write_file _ _ w0)).
  set (d1 := mkDeck _ _ _ _ _).
  assert (index q (questions d1) = Some (length (questions d))) as Hi
    by (by apply index_new).
  assert (length (questions d1) = length (answers d1)) as Hlen1.
  { simpl. rewrite !length_app. simpl. lia. }
  rewrite (delete_question_found q d1 w1 _ Hi Hlen1).
  destruct (build_flashcards_spec
              (zip (delete (length (questions d)) (questions d1))
                 (delete (length (questions d)) (answers d1))) w1)
    as (Hw & Htext & _).
  cbn [fst snd questions answers flashcards ques_file ans_file d1]
    in Hw, Htext |- *.
  rewrite Htext. rewrite delete_last. rewrite Hlen at 1 2.
  rewrite delete_last.
  repeat split.
  rewrite Hlen, delete_last.
  transitivity (files (write_file (ans_file d) (answers d)
                         (write_file (ques_file d) (questions d) w1))).
  { apply files_write_file_eq, files_write_file_eq.
    by destruct (build_flashcards_spec (zip (questions d) (answers d)) w1)
      as (-> & _). }
  unfold w1. rewrite write_absorb.
  transitivity (files (write_file (ans_file d) (answers d)
                         (write_file (ques_file d) (questions d) w0))).
  { apply files_write_file_eq, write_twice. }
  unfold save. by apply files_write_file_eq, files_write_file_eq.
Qed.

Lemma delete_after_add_witness :
  questions (delete_question "7+7"
               (add_question "7+7" "14" sample_deck locked_world).2
               (add_question "7+7" "14" sample_deck locked_world).1).1.2
  = questions sample_deck
  /\ files (delete_question "7+7"
              (add_question "7+7" "14" sample_deck locked_world).2
              (add_question "7+7" "14" sample_deck locked_world).1).1.1
     = files (save sample_deck locked_world).
Proof.
  destruct (delete_after_add "7+7" "14" sample_deck locked_world)
    as (_ & Hq & _ & _ & Hf).
  - reflexivity.
  - apply index_None. reflexivity.
  - split; [exact Hq | exact Hf].
Defined.

(** X8. A file whose opening fails with [FileNotFoundError] counts as a
    file without lines.  When the questions file is not found, the
    constructor reports it and then, if the answers file loads, builds
    the empty deck when that file has no line either and raises
    [ValueError] when it has one; if loading the answers file raises an
    exception, the constructor raises it.  In every case no file is
    created or changed. *)
Theorem deck_init_missing_questions (question_file answer_file : string) w
    (p : string) :
  open_r question_file (files w) = Raise (FileNotFoundError p) ->
  (forall ans : list string,
      (read_file answer_file w).2 = Return ans ->
      (ans = [] ->
       exists w',
         deck_init question_file answer_file w
         = (w', Return (mkDeck question_file answer_file [] [] []))
         /\ MsgFileNotFound question_file ∈ stdout w'
         /\ files w' = files w)
      /\ (ans <> [] ->
          exists w',
            deck_init question_file answer_file w
            = (w', Raise (ValueError
                           "Number of questions and answers must be the same"))
            /\ MsgFileNotFound question_file ∈ stdout w'
            /\ files w' = files w))
  /\ (forall e,
        (read_file answer_file w).2 = Raise e ->
        exists w',
          deck_init question_file answer_file w = (w', Raise e)
          /\ MsgFileNotFound question_file ∈ stdout w'
          /\ files w' = files w).
Proof.
  intros Hq. rewrite deck_init_unfold.
  assert (read_file question_file w
          = (print (MsgFileNotFound question_file) w, Return [])) as Hrq.
  { unfold read_file. by rewrite Hq. }
  rewrite Hrq. cbn [fst snd].
  assert (MsgFileNotFound question_file
          ∈ stdout (read_file answer_file
                      (print (MsgFileNotFound question_file) w)).1) as Hmsg.
  { destruct (read_file_stdout answer_file
                (print (MsgFileNotFound question_file) w)) as [-> | ->];
      simpl.
    - apply elem_of_app. right. apply list_elem_of_here.
    - rewrite elem_of_app. left. apply elem_of_app. right.
      apply list_elem_of_here. }
  assert (files (read_file answer_file
                   (print (MsgFileNotFound question_file) w)).1 = files w)
    as Hfiles.
  { by destruct (read_file_world answer_file
                   (print (MsgFileNotFound question_file) w)) as (-> & _). }
  split.
  - intros ans ->. split.
    + intros ->. simpl. eexists. split; [reflexivity |]. done.
    + intros Ha. destruct ans as [|l ls]; [done |].
      simpl. eexists. split; [reflexivity |]. done.
  - intros e ->. eexists. split; [reflexivity |]. done.
Qed.

Lemma deck_init_missing_questions_witness :
  exists w',
    deck_init "nowhere" "answers" (sample_world [])
    = (w', Raise (ValueError
                   "Number of questions and answers must be the same"))
    /\ MsgFileNotFound "nowhere" ∈ stdout w'
    /\ files w' = files (sample_world []).
Proof.
  apply (proj1 (deck_init_missing_questions "nowhere" "answers"
                  (sample_world []) "nowhere" eq_refl)
           ["4"; "6"; "10"]).
  - reflexivity.
  - discriminate.
Defined.

End DeckMore.

(** * The menu *)

#[local] Arguments run : simpl never.
#[local] Arguments app_input : simpl never.

Section Menu.

Implicit Types (w : World) (d : FlashcardDeck) (a : App).
Implicit Types (question_file answer_file : string).
Implicit Types (fs : FileSystem) (k : nat).

Lemma app_input_line (prompt : AppMsg) a (line : string)
    (rest : list string) :
  stdin (world a) = line :: rest ->
  app_input prompt a = (app_answered prompt rest a, Return line).
Proof. intros H. unfold app_input. simpl. by rewrite H. Qed.

(** What [input] of the menu does to the input and the files. *)
Lemma app_input_spec (prompt : AppMsg) a a' (o : Outcome string) :
  app_input prompt a = (a', o) ->
  files (world a') = files (world a)
  /\ last (screen a') = Some (FromApp prompt)
  /\ match o with
     | Return line => stdin (world a) = line :: stdin (world a')
     | Raise e => e = EOFError /\ stdin (world a) = []
                  /\ stdin (world a') = []
     end.
Proof.
  unfold app_input. simpl.
  destruct (stdin (world a)) as [|line rest] eqn:Hin;
    intros [= <- <-]; simpl; rewrite last_snoc, ?Hin; done.
Qed.

(** A method called from the menu does to the world what it does. *)
Lemma run_spec {A} (f : World -> World * A) a a' (x : A) :
  run f a = (a', x) -> world a' = (f (world a)).1 /\ x = (f (world a)).2.
Proof.
  unfold run. destruct (f (world a)) as [w' y]. by intros [= <- <-].
Qed.

(** Changes of the file system at the entries of two paths. *)
Lemma locate_place (path : string) fs fs' :
  place fs' = place fs -> locate path fs' = locate path fs.
Proof. intros H. unfold locate. by rewrite H. Qed.

Lemma only_written_refl (p1 p2 : string) fs : only_written p1 p2 fs fs.
Proof. by repeat split. Qed.

Lemma only_written_eq (p1 p2 : string) fs fs' :
  fs' = fs -> only_written p1 p2 fs fs'.
Proof. intros ->. apply only_written_refl. Qed.

Lemma only_written_trans (p1 p2 : string) fs fs1 fs2 :
  only_written p1 p2 fs fs1 -> only_written p1 p2 fs1 fs2 ->
  only_written p1 p2 fs fs2.
Proof.
  intros (Hp1 & Hc1 & Hn1) (Hp2 & Hc2 & Hn2).
  split; [congruence |]. split; [congruence |].
  intros k H1 H2. rewrite Hn2, Hn1; try done;
    by rewrite (locate_place _ _ _ Hp1).
Qed.

Lemma only_written_write_file (p1 p2 p : string) (data : list string) w :
  p = p1 \/ p = p2 ->
  only_written p1 p2 (files w) (files (write_file p data w)).
Proof.
  intros Hp. rewrite files_write_file.
  destruct (write_entry p (files w)) as [k|] eqn:Hk;
    [|apply only_written_refl].
  apply write_entry_locate in Hk.
  split; [done |]. split; [done |].
  intros j H1 H2. apply nodes_put_ne. destruct Hp as [-> | ->]; congruence.
Qed.

Lemma deck_init_frame question_file answer_file w :
  files (deck_init question_file answer_file w).1 = files w
  /\ stdin (deck_init question_file answer_file w).1 = stdin w.
Proof.
  rewrite deck_init_unfold.
  destruct (read_file_world question_file w) as (Hf1 & Hs1 & _).
  destruct (read_file_world answer_file (read_file question_file w).1)
    as (Hf2 & Hs2 & _).
  cbn zeta.
  destruct (read_file question_file w).2 as [qs|e]; [|done].
  destruct (read_file answer_file w).2 as [ans|e]; cbn [fst snd];
    [|by rewrite Hf2, Hf1, Hs2, Hs1].
  destruct (negb _); cbn [fst snd].
  - by rewrite Hf2, Hf1, Hs2, Hs1.
  - destruct (build_flashcards_spec (zip qs ans)
                (read_file answer_file (read_file question_file w).1).1)
      as (-> & _). cbn [files stdin]. by rewrite Hf2, Hf1, Hs2, Hs1.
Qed.

Lemma deck_init_paths question_file answer_file w w' d :
  deck_init question_file answer_file w = (w', Return d) ->
  ques_file d = question_file /\ ans_file d = answer_file.
Proof. by intros (qs & ans & _ & _ & _ & _ & ->)%deck_init_Return. Qed.

(** The quiz changes no file and only takes lines off the input. *)
Lemma ask_loop_frame (todo : list Flashcard) :
  forall (cards : list Flashcard) (score : Z) w,
    files (ask_loop cards todo score w).1 = files w
    /\ length (stdin (ask_loop cards todo score w).1) <= length (stdin w).
Proof.
  induction todo as [|c todo IH]; intros cards score w; simpl; [done |].
  unfold input. simpl. destruct (stdin w) as [|r rest] eqn:Hin; simpl.
  - by rewrite Hin.
  - destruct (String.eqb (lower r) "q").
    + destruct (index_obj c cards); simpl; split; try done; lia.
    + destruct (String.eqb (lower r) (lower (answer c))).
      * destruct (IH cards (score + 1)%Z
                    (print MsgCorrect
                       (mkWorld (files w) rest
                          (stdout w ++ [MsgPrompt (question c)])
                          (next_id w) (rng w)))) as [Hf Hl].
        split; [exact Hf | simpl in Hl; lia].
      * destruct (IH cards score
                    (print (MsgSorry (answer c))
                       (mkWorld (files w) rest
                          (stdout w ++ [MsgPrompt (question c)])
                          (next_id w) (rng w)))) as [Hf Hl].
        split; [exact Hf | simpl in Hl; lia].
Qed.

(** The two mutations write the two files of the deck and no other. *)
Lemma save_frame (qf af : string) (qs ans : list string) w :
  stdin (write_file af ans (write_file qf qs w)) = stdin w
  /\ only_written qf af (files w)
       (files (write_file af ans (write_file qf qs w))).
Proof.
  split.
  - destruct (write_file_world af ans (write_file qf qs w)) as (-> & _).
    by destruct (write_file_world qf qs w) as (-> & _).
  - eapply only_written_trans.
    + apply (only_written_write_file qf af qf). by left.
    + apply (only_written_write_file qf af af). by right.
Qed.

Lemma add_question_frame (q ans : string) d w :
  stdin (add_question q ans d w).1 = stdin w
  /\ only_written (ques_file d) (ans_file d) (files w)
       (files (add_question q ans d w).1).
Proof.
  rewrite add_question_unfold. cbn [fst].
  apply (save_frame (ques_file d) (ans_file d) (questions d ++ [q])
           (answers d ++ [ans])
           (mkWorld (files w) (stdin w) (stdout w) (S (next_id w)) (rng w))).
Qed.

Lemma delete_question_frame (q : string) d w :
  stdin (delete_question q d w).1.1 = stdin w
  /\ only_written (ques_file d) (ans_file d) (files w)
       (files (delete_question q d w).1.1).
Proof.
  unfold delete_question.
  destruct (contains q (questions d));
    [|split; [done | apply only_written_refl]].
  destruct (index q (questions d)) as [i|];
    [|split; [done | apply only_written_refl]].
  destruct (i <? length (answers d));
    [|split; [done | apply only_written_refl]].
  destruct (build_flashcards_spec
              (zip (delete i (questions d)) (delete i (answers d))) w)
    as (Hw & _).
  destruct (build_flashcards _ w) as [w1 cards]. simpl in Hw. subst w1.
  cbn [fst].
  apply (save_frame (ques_file d) (ans_file d) (delete i (questions d))
           (delete i (answers d))
           (mkWorld (files w) (stdin w) (stdout w) _ (rng w))).
Qed.

(** Goals on one turn of the menu: the input, how the turn ends, the
    last line, the files. *)
Ltac menu_goal :=
  split;
  [cbn; lia
  |split;
   [intros ?; first [done | cbn; lia]
   |split;
    [intros ?; done
    |first [assumption | apply only_written_eq; congruence]]]].

(** One turn of the menu: the input gets shorter when the loop goes on,
    the last line is [Thank you!] when it ends, and no file but the two of
    the deck is written. *)
Lemma menu_step_spec question_file answer_file a :
  length (stdin (world (menu_step question_file answer_file a).1))
  <= length (stdin (world a))
  /\ ((menu_step question_file answer_file a).2 = Continue ->
      length (stdin (world (menu_step question_file answer_file a).1))
      < length (stdin (world a)))
  /\ ((menu_step question_file answer_file a).2 = Break ->
      last (screen (menu_step question_file answer_file a).1)
      = Some (FromApp ThankYou))
  /\ only_written question_file answer_file (files (world a))
       (files (world (menu_step question_file answer_file a).1)).
Proof.
  unfold menu_step. cbn.
  destruct (open_r question_file (files (world a))) as [text|e];
    [|cbn; menu_goal].
  set (a1 := say Option4 _).
  assert (files (world a1) = files (world a)
          /\ stdin (world a1) = stdin (world a)) as [Hf1 Hs1].
  { unfold a1. by destruct (negb _). }
  clearbody a1.
  destruct (app_input AskOption a1) as [a2 [opt|e]] eqn:Hopt;
    apply app_input_spec in Hopt as (Hf2 & _ & Hs2); cbn.
  2: { destruct Hs2 as (_ & Hs2 & Hs2'). rewrite Hs2'. menu_goal. }
  assert (length (stdin (world a2)) < length (stdin (world a))) as Hlt.
  { rewrite <- Hs1, Hs2. cbn. lia. }
  assert (files (world a2) = files (world a)) as Hfa2 by congruence.
  clear Hf1 Hf2 Hs1 Hs2.
  destruct (String.eqb opt "1" && negb _).
  { destruct (run (deck_init question_file answer_file) a2)
      as [a3 [deck|e]] eqn:Hinit;
      apply run_spec in Hinit as [Hw3 Hdeck];
      destruct (deck_init_frame question_file answer_file (world a2))
        as [Hf3 Hs3]; rewrite <- Hw3 in Hf3, Hs3; cbn.
    2: { rewrite Hs3. menu_goal. }
    destruct (run (shuffle deck) a3) as [a4 deck'] eqn:Hsh.
    apply run_spec in Hsh as [Hw4 Hdeck'].
    destruct (shuffle_spec deck (world a3))
      as (_ & _ & _ & _ & _ & Hf4 & Hs4 & _).
    rewrite <- Hw4 in Hf4, Hs4.
    destruct (run (ask_questions deck') a4) as [a5 o] eqn:Hask.
    apply run_spec in Hask as [Hw5 _].
    destruct (ask_loop_frame (flashcards deck') (flashcards deck') 0%Z
                (world a4)) as [Hf5 Hs5].
    fold (ask_questions deck' (world a4)) in Hf5, Hs5.
    rewrite <- Hw5 in Hf5, Hs5.
    assert (length (stdin (world a5)) < length (stdin (world a))) as Hlt5.
    { rewrite Hs4, Hs3 in Hs5. lia. }
    destruct o; cbn; menu_goal. }
  destruct (String.eqb opt "2").
  { destruct (app_input AskQuestion a2) as [a3 [q|e]] eqn:Hq;
      apply app_input_spec in Hq as (Hf3 & _ & Hs3); cbn.
    2: { destruct Hs3 as (_ & _ & Hs3). rewrite Hs3. menu_goal. }
    destruct (app_input AskAnswer a3) as [a4 [ans|e]] eqn:Ha;
      apply app_input_spec in Ha as (Hf4 & _ & Hs4); cbn.
    2: { destruct Hs4 as (_ & _ & Hs4). rewrite Hs4. menu_goal. }
    assert (length (stdin (world a4)) < length (stdin (world a))) as Hlt4.
    { rewrite Hs3, Hs4 in Hlt. cbn in Hlt. lia. }
    destruct (run (deck_init question_file answer_file) a4)
      as [a5 [deck|e]] eqn:Hinit;
      apply run_spec in Hinit as [Hw5 Hdeck];
      destruct (deck_init_frame question_file answer_file (world a4))
        as [Hf5 Hs5]; rewrite <- Hw5 in Hf5, Hs5; cbn.
    2: { rewrite Hs5. menu_goal. }
    destruct (deck_init_paths question_file answer_file (world a4)
                (deck_init question_file answer_file (world a4)).1 deck)
      as [Hqf Haf].
    { rewrite Hdeck. by destruct (deck_init _ _ _). }
    destruct (run (add_question q ans deck) a5) as [a6 x] eqn:Hadd.
    apply run_spec in Hadd as [Hw6 _].
    destruct (add_question_frame q ans deck (world a5)) as [Hs6 Hf6].
    rewrite <- Hw6 in Hs6, Hf6. rewrite Hqf, Haf in Hf6.
    cbn. rewrite Hs6, Hs5.
    replace (files (world a5)) with (files (world a)) in Hf6 by congruence.
    menu_goal. }
  destruct (String.eqb opt "3").
  { destruct (app_input AskDelete a2) as [a3 [q|e]] eqn:Hq;
      apply app_input_spec in Hq as (Hf3 & _ & Hs3); cbn.
    2: { destruct Hs3 as (_ & _ & Hs3). rewrite Hs3. menu_goal. }
    assert (length (stdin (world a3)) < length (stdin (world a))) as Hlt3.
    { rewrite Hs3 in Hlt. cbn in Hlt. lia. }
    destruct (run (deck_init question_file answer_file) a3)
      as [a4 [deck|e]] eqn:Hinit;
      apply run_spec in Hinit as [Hw4 Hdeck];
      destruct (deck_init_frame question_file answer_file (world a3))
        as [Hf4 Hs4]; rewrite <- Hw4 in Hf4, Hs4; cbn.
    2: { rewrite Hs4. menu_goal. }
    destruct (deck_init_paths question_file answer_file (world a3)
                (deck_init question_file answer_file (world a3)).1 deck)
      as [Hqf Haf].
    { rewrite Hdeck. by destruct (deck_init _ _ _). }
    destruct (run (delete_call q deck) a4) as [a5 o] eqn:Hdel.
    apply run_spec in Hdel as [Hw5 _]. unfold delete_call in Hw5.
    cbn in Hw5.
    destruct (delete_question_frame q deck (world a4)) as [Hs5 Hf5].
    rewrite <- Hw5 in Hs5, Hf5. rewrite Hqf, Haf in Hf5.
    replace (files (world a4)) with (files (world a)) in Hf5 by congruence.
    destruct o; cbn; rewrite Hs5, Hs4; menu_goal. }
  destruct (String.eqb opt "4"); cbn.
  - rewrite last_snoc. menu_goal.
  - menu_goal.
Qed.

Lemma menu_loop_unroll (fuel : nat) question_file answer_file a :
  menu_loop (S fuel) question_file answer_file a
  = match (menu_step question_file answer_file a).2 with
    | Continue =>
        menu_loop fuel question_file answer_file
          (menu_step question_file answer_file a).1
    | Break => Some ((menu_step question_file answer_file a).1, None)
    | Throw e => Some ((menu_step question_file answer_file a).1, Some e)
    end.
Proof.
  simpl. by destruct (menu_step question_file answer_file a) as [a' []].
Qed.

(** With more turns than lines of input the loop comes to an end, by
    [Thank you!] when no exception ends it, and it has written no file but
    the two of the deck. *)
Lemma menu_loop_ends (fuel : nat) : forall question_file answer_file a,
  length (stdin (world a)) < fuel ->
  exists a' o,
    menu_loop fuel question_file answer_file a = Some (a', o)
    /\ (o = None -> last (screen a') = Some (FromApp ThankYou))
    /\ only_written question_file answer_file (files (world a))
         (files (world a')).
Proof.
  induction fuel as [|fuel IH]; intros question_file answer_file a Hlen;
    [lia |].
  rewrite menu_loop_unroll.
  destruct (menu_step_spec question_file answer_file a)
    as (_ & Hcont & Hbreak & Hframe).
  destruct (menu_step question_file answer_file a) as [a1 [| |e]];
    cbn [fst snd] in *.
  - destruct (IH question_file answer_file a1) as (a' & o & Hrun & Hl & Hf);
      [specialize (Hcont eq_refl); lia |].
    exists a', o. split; [done |]. split; [done |].
    by eapply only_written_trans.
  - exists a1, (@None Exn). split; [done |]. split; [|done].
    intros _. by apply Hbreak.
  - exists a1, (Some e). split; [done |]. split; [done | done].
Qed.

(** More fuel than enough changes nothing. *)
Lemma menu_loop_more_fuel (fuel : nat) :
  forall (fuel' : nat) question_file answer_file a r,
    menu_loop fuel question_file answer_file a = Some r ->
    fuel <= fuel' ->
    menu_loop fuel' question_file answer_file a = Some r.
Proof.
  induction fuel as [|fuel IH];
    intros fuel' question_file answer_file a r; [done |].
  destruct fuel' as [|fuel']; [lia |]. rewrite !menu_loop_unroll.
  destruct (menu_step question_file answer_file a).2; [|done..].
  intros Hrun Hle. apply IH; [done | lia].
Qed.

(** Making an empty file. *)
Lemma create_empty_spec (path : string) a :
  stdin (world (create_empty path a).1) = stdin (world a)
  /\ screen (create_empty path a).1 = screen a
  /\ files (world (create_empty path a).1)
     = match write_entry path (files (world a)) with
       | Some k => put k EmptyString (files (world a))
       | None => files (world a)
       end
  /\ (create_empty path a).2
     = match open_w path (files (world a)) with
       | Return _ => Return tt
       | Raise e => Raise e
       end.
Proof.
  unfold create_empty, write_entry.
  by destruct (open_w path (files (world a))).
Qed.

Lemma only_written_create (p1 p2 path : string) a :
  path = p1 \/ path = p2 ->
  only_written p1 p2 (files (world a))
    (files (world (create_empty path a).1)).
Proof.
  intros Hp. destruct (create_empty_spec path a) as (_ & _ & -> & _).
  destruct (write_entry path (files (world a))) as [k|] eqn:Hk;
    [|apply only_written_refl].
  apply write_entry_locate in Hk.
  split; [done |]. split; [done |].
  intros j H1 H2. apply nodes_put_ne. destruct Hp as [-> | ->]; congruence.
Qed.

(** Goals on the start of the application: the input, the files, the
    paths. *)
Ltac start_goal :=
  split;
  [cbn; lia
  |split; [first [assumption | apply only_written_eq; congruence] | try done]].

(** The start of the application: what it returns, and what it does to the
    files and the input. *)
Lemma startup_spec a :
  length (stdin (world (startup a).1)) <= length (stdin (world a))
  /\ only_written "questions" "answers" (files (world a))
       (files (world (startup a).1))
  /\ match (startup a).2 with
     | Raise e => True
     | Return (question_file, answer_file) =>
         (question_file = "questions" /\ answer_file = "answers")
         \/ (stdin (world a) !! 0 = Some question_file
             /\ stdin (world a) !! 1 = Some answer_file
             /\ files (world (startup a).1) = files (world a))
     end.
Proof.
  unfold startup.
  destruct (app_input AskQuestionFile a) as [a1 [qf|e]] eqn:H1;
    apply app_input_spec in H1 as (Hf1 & _ & Hs1); cbn.
  2: { destruct Hs1 as (_ & _ & Hs1). rewrite Hs1. start_goal. }
  destruct (app_input AskAnswerFile a1) as [a2 [af|e]] eqn:H2;
    apply app_input_spec in H2 as (Hf2 & _ & Hs2); cbn.
  2: { destruct Hs2 as (_ & _ & Hs2). rewrite Hs2. start_goal. }
  assert (length (stdin (world a2)) <= length (stdin (world a))) as Hlen.
  { rewrite Hs1, Hs2. cbn. lia. }
  match goal with
  | |- context [if ?b then say BothRequired a2 else a2] =>
      set (a3 := if b then say BothRequired a2 else a2)
  end.
  assert (files (world a3) = files (world a)
          /\ stdin (world a3) = stdin (world a2)) as [Hf3 Hs3].
  { unfold a3. destruct (_ || _); cbn; by rewrite Hf2, Hf1. }
  clearbody a3.
  destruct (negb (path_exists qf (world a3))
            || negb (path_exists af (world a3))); cbn.
  - set (a4 := say CreatingFiles a3).
    assert (files (world a4) = files (world a)
            /\ stdin (world a4) = stdin (world a2)) as [Hf4 Hs4] by done.
    clearbody a4.
    pose proof (only_written_create "questions" "answers" "questions" a4
                  (or_introl eq_refl)) as Hw5.
    destruct (create_empty_spec "questions" a4) as (Hs5 & _ & _ & _).
    destruct (create_empty "questions" a4) as [a5 o5]. cbn [fst snd] in *.
    rewrite Hf4 in Hw5.
    destruct o5 as [[]|e]; cbn [fst snd].
    2: { rewrite Hs5, Hs4. start_goal. }
    pose proof (only_written_create "questions" "answers" "answers" a5
                  (or_intror eq_refl)) as Hw6.
    destruct (create_empty_spec "answers" a5) as (Hs6 & _ & _ & _).
    destruct (create_empty "answers" a5) as [a6 o6]. cbn [fst snd] in *.
    assert (only_written "questions" "answers" (files (world a))
              (files (world a6))) as Hw.
    { by eapply only_written_trans. }
    destruct o6 as [[]|e]; cbn [fst snd]; rewrite Hs6, Hs5, Hs4;
      start_goal. by left.
  - rewrite Hs3. start_goal. right. rewrite Hs1, Hs2. done.
Qed.

(** X9. Whatever is typed and whatever the files are, [flashcard_app]
    comes to an end, and no exception leaves it: given more turns of its
    loop than there are lines of input it returns, the same state for any
    such number, and the last line on the screen is [Thank you!] or the
    report of an error. *)
Theorem flashcard_app_ends w :
  exists a,
    (forall fuel, length (stdin w) < fuel -> flashcard_app fuel w = Some a)
    /\ (last (screen a) = Some (FromApp ThankYou)
        \/ exists e, last (screen a) = Some (FromApp (ErrorOccurred e))).
Proof.
  unfold flashcard_app.
  destruct (startup_spec (mkApp w [])) as (Hlen & _ & _). cbn in Hlen.
  destruct (startup (mkApp w [])) as [a1 [[question_file answer_file]|e]];
    cbn in Hlen.
  - destruct (menu_loop_ends (S (length (stdin w))) question_file
                answer_file a1) as (a' & o & Hrun & Hlast & _); [lia |].
    destruct o as [e|].
    + exists (say (ErrorOccurred e) a'). split.
      * intros fuel Hfuel.
        by rewrite (menu_loop_more_fuel _ fuel _ _ _ _ Hrun) by lia.
      * right. exists e. cbn. apply last_snoc.
    + exists a'. split.
      * intros fuel Hfuel.
        by rewrite (menu_loop_more_fuel _ fuel _ _ _ _ Hrun) by lia.
      * left. by apply Hlast.
  - exists (say (ErrorOccurred e) a1). split; [done |].
    right. eexists. cbn. apply last_snoc.
Qed.

(** X10. [flashcard_app] writes no file but those that the two typed
    names and the names [questions] and [answers] lead to: every other
    entry of the file system holds, when the application ends, what it
    held at the start - also an entry that other names than these lead
    to - and every path leads where it led. *)
Theorem flashcard_app_frame (fuel : nat) w a k :
  flashcard_app fuel w = Some a ->
  (forall p, stdin w !! 0 = Some p -> locate p (files w) <> At k) ->
  (forall p, stdin w !! 1 = Some p -> locate p (files w) <> At k) ->
  locate "questions" (files w) <> At k ->
  locate "answers" (files w) <> At k ->
  nodes (files (world a)) !! k = nodes (files w) !! k
  /\ place (files (world a)) = place (files w).
Proof.
  unfold flashcard_app. intros Hrun H0 H1 Hq Ha.
  destruct (startup_spec (mkApp w [])) as (Hlen & Hframe & Hpaths).
  cbn in Hlen, Hframe, Hpaths.
  destruct (startup (mkApp w [])) as [a1 [[question_file answer_file]|e]];
    cbn in *.
  - destruct Hframe as (Hp1 & _ & Hn1).
    assert (locate question_file (files (world a1)) <> At k
            /\ locate answer_file (files (world a1)) <> At k) as [Hl1 Hl2].
    { rewrite !(locate_place _ _ _ Hp1).
      destruct Hpaths as [[-> ->] | (Hs0 & Hs1 & _)]; [done |].
      split; [by apply H0 | by apply H1]. }
    destruct (menu_loop_ends (S (length (stdin (world a1)))) question_file
                answer_file a1) as (a' & o & Hloop & _ & Hf); [lia |].
    destruct (menu_loop fuel question_file answer_file a1) as [[a2 o2]|]
      eqn:Hfuel; [|done].
    assert (a2 = a' /\ o2 = o) as [-> ->].
    { destruct (Nat.le_ge_cases fuel (S (length (stdin (world a1))))).
      - rewrite (menu_loop_more_fuel _ _ _ _ _ _ Hfuel) in Hloop by done.
        by injection Hloop as -> ->.
      - rewrite (menu_loop_more_fuel _ _ _ _ _ _ Hloop) in Hfuel by done.
        by injection Hfuel as -> ->. }
    destruct Hf as (Hp2 & _ & Hn2).
    destruct o; injection Hrun as <-; cbn;
      (split; [rewrite Hn2, Hn1 by done; done | congruence]).
  - injection Hrun as <-. cbn.
    destruct Hframe as (Hp1 & _ & Hn1). split; [by apply Hn1 | done].
Qed.

(** The entry of [notes] is none of those that [questions] and [answers]
    lead to. *)
Lemma flashcard_app_frame_witness :
  exists a,
    flashcard_app 3 (notes_world ["questions"; "answers"; "2"; "7+7"; "14"])
    = Some a
    /\ nodes (files (world a)) !! 3 = Some (text_file (written ["x"])).
Proof.
  eexists. split; [vm_compute; reflexivity |].
  apply (flashcard_app_frame 3
           (notes_world ["questions"; "answers"; "2"; "7+7"; "14"]));
    [vm_compute; reflexivity | intros p [= <-]; discriminate
     | intros p [= <-]; discriminate | discriminate..].
Defined.

(** What the constructor, called from the menu, gives: a deck of the lines
    of the two files when they are as many, [ValueError] when not. *)
Lemma run_deck_init question_file answer_file a (qs ans : list string) :
  (read_file question_file (world a)).2 = Return qs ->
  (read_file answer_file (world a)).2 = Return ans ->
  (length qs = length ans ->
   exists a' d,
     run (deck_init question_file answer_file) a = (a', Return d)
     /\ files (world a') = files (world a)
     /\ stdin (world a') = stdin (world a)
     /\ ques_file d = question_file /\ ans_file d = answer_file
     /\ questions d = qs /\ answers d = ans)
  /\ (length qs <> length ans ->
      exists a',
        run (deck_init question_file answer_file) a
        = (a', Raise (ValueError
                        "Number of questions and answers must be the same"))
        /\ files (world a') = files (world a)
        /\ stdin (world a') = stdin (world a)).
Proof.
  intros Hq Ha.
  destruct (deck_init_frame question_file answer_file (world a)) as [Hf Hs].
  unfold run. revert Hf Hs. rewrite deck_init_unfold. cbn zeta.
  rewrite Hq, Ha.
  destruct (Nat.eqb_spec (length qs) (length ans)) as [Hlen | Hlen];
    cbn; intros Hf Hs.
  - split; [|done]. intros _. eexists _, _. split; [reflexivity |]. done.
  - split; [done |]. intros _. eexists. split; [reflexivity |]. done.
Qed.

Lemma split_lines_empty (s : string) :
  split_lines s = [] <-> s = EmptyString.
Proof.
  split; [|by intros ->]. destruct s as [|c s]; [done |]. simpl.
  destruct (Ascii.eqb c LF); [done |]. by destruct (split_lines s).
Qed.

(** The test of the menu for an empty questions file. *)
Lemma question_file_empty (text : string) :
  String.eqb (universal_newlines text) EmptyString = true
  <-> map strip (readlines text) = [].
Proof.
  rewrite String.eqb_eq. unfold readlines. split.
  - by intros ->.
  - intros Hl. apply split_lines_empty.
    by destruct (split_lines (universal_newlines text)).
Qed.

(** Goals on the world behind the lines of the menu. *)
Ltac menu_world :=
  cbn;
  try match goal with
      | |- context [if ?b then _ else _] => destruct b
      end;
  cbn; done.

(** A questions file that cannot be read ends the loop. *)
Lemma menu_step_unreadable question_file answer_file a (e : Exn) :
  open_r question_file (files (world a)) = Raise e ->
  menu_step question_file answer_file a = (say OptionsAvailable a, Throw e).
Proof. intros Hf. unfold menu_step. cbn. by rewrite Hf. Qed.

(** Choice 4. *)
Lemma menu_step_quit question_file answer_file a (text : string)
    (rest : list string) :
  open_r question_file (files (world a)) = Return text ->
  stdin (world a) = "4" :: rest ->
  (menu_step question_file answer_file a).2 = Break
  /\ files (world (menu_step question_file answer_file a).1)
     = files (world a)
  /\ stdin (world (menu_step question_file answer_file a).1) = rest.
Proof.
  intros Hf Hin. unfold menu_step. cbn. rewrite Hf.
  rewrite (app_input_line AskOption _ "4" rest)
    by menu_world.
  menu_world.
Qed.

(** Choice 2, with as many lines in one file as in the other. *)
Lemma menu_step_add question_file answer_file a (text q ans : string)
    (rest : list string) (anss : list string) :
  open_r question_file (files (world a)) = Return text ->
  stdin (world a) = "2" :: q :: ans :: rest ->
  (read_file answer_file (world a)).2 = Return anss ->
  length (map strip (readlines text)) = length anss ->
  (menu_step question_file answer_file a).2 = Continue
  /\ files (world (menu_step question_file answer_file a).1)
     = files (write_file answer_file (anss ++ [ans])
                (write_file question_file
                   (map strip (readlines text) ++ [q]) (world a)))
  /\ stdin (world (menu_step question_file answer_file a).1) = rest.
Proof.
  intros Hf Hin Ha Hlen. unfold menu_step. cbn. rewrite Hf.
  rewrite (app_input_line AskOption _ "2" (q :: ans :: rest))
    by menu_world.
  cbn.
  rewrite (app_input_line AskQuestion _ q (ans :: rest)) by done.
  rewrite (app_input_line AskAnswer _ ans rest) by done.
  set (a4 := app_answered AskAnswer rest _).
  assert (files (world a4) = files (world a)) as Hf4
    by (unfold a4; menu_world).
  assert (stdin (world a4) = rest) as Hs4 by done.
  clearbody a4.
  destruct (run_deck_init question_file answer_file a4
              (map strip (readlines text)) anss) as [Hok _].
  { rewrite (read_file_lines _ (world a) (world a4) Hf4).
    by rewrite (read_file_open _ _ _ Hf). }
  { by rewrite (read_file_lines _ (world a) (world a4) Hf4). }
  destruct (Hok Hlen) as (a5 & d & -> & Hf5 & Hs5 & Hqf & Haf & Hqs & Has).
  unfold run. rewrite add_question_unfold. cbn [fst snd world].
  rewrite Hqf, Haf, Hqs, Has. split; [done |]. split.
  - apply files_write_file_eq, files_write_file_eq. cbn. congruence.
  - destruct (save_frame question_file answer_file
                (map strip (readlines text) ++ [q]) (anss ++ [ans])
                (mkWorld (files (world a5)) (stdin (world a5))
                   (stdout (world a5)) (S (next_id (world a5)))
                   (rng (world a5)))) as [-> _].
    cbn. congruence.
Qed.

(** Choice 3, with as many lines in one file as in the other. *)
Lemma menu_step_delete question_file answer_file a (text q : string)
    (rest : list string) (anss : list string) (i : nat) :
  open_r question_file (files (world a)) = Return text ->
  stdin (world a) = "3" :: q :: rest ->
  (read_file answer_file (world a)).2 = Return anss ->
  length (map strip (readlines text)) = length anss ->
  index q (map strip (readlines text)) = Some i ->
  (menu_step question_file answer_file a).2 = Continue
  /\ files (world (menu_step question_file answer_file a).1)
     = files (write_file answer_file (delete i anss)
                (write_file question_file
                   (delete i (map strip (readlines text))) (world a)))
  /\ stdin (world (menu_step question_file answer_file a).1) = rest.
Proof.
  intros Hf Hin Ha Hlen Hi. unfold menu_step. cbn. rewrite Hf.
  rewrite (app_input_line AskOption _ "3" (q :: rest))
    by menu_world.
  cbn.
  rewrite (app_input_line AskDelete _ q rest) by done.
  set (a3 := app_answered AskDelete rest _).
  assert (files (world a3) = files (world a)) as Hf3
    by (unfold a3; menu_world).
  assert (stdin (world a3) = rest) as Hs3 by done.
  clearbody a3.
  destruct (run_deck_init question_file answer_file a3
              (map strip (readlines text)) anss) as [Hok _].
  { rewrite (read_file_lines _ (world a) (world a3) Hf3).
    by rewrite (read_file_open _ _ _ Hf). }
  { by rewrite (read_file_lines _ (world a) (world a3) Hf3). }
  destruct (Hok Hlen) as (a4 & d & -> & Hf4 & Hs4 & Hqf & Haf & Hqs & Has).
  unfold run, delete_call.
  rewrite <- Hqs in Hi. rewrite <- Hqs, <- Has in Hlen.
  rewrite (delete_question_found q d (world a4) i Hi Hlen).
  cbn [fst snd world].
  destruct (build_flashcards_spec
              (zip (delete i (questions d)) (delete i (answers d)))
              (world a4)) as (Hw & _).
  rewrite Hqf, Haf, Hqs, Has in *. split; [done |]. split.
  - apply files_write_file_eq, files_write_file_eq. rewrite Hw. cbn.
    congruence.
  - destruct (save_frame question_file answer_file
                (delete i (map strip (readlines text))) (delete i anss)
                (build_flashcards
                   (zip (delete i (map strip (readlines text)))
                      (delete i anss)) (world a4)).1) as [-> _].
    rewrite Hw. cbn. congruence.
Qed.

(** A choice that builds the deck, with more lines in one file than in
    the other. *)
Lemma menu_step_mismatch question_file answer_file a (text opt : string)
    (rest : list string) (anss : list string) :
  open_r question_file (files (world a)) = Return text ->
  stdin (world a) = opt :: rest ->
  (read_file answer_file (world a)).2 = Return anss ->
  length (map strip (readlines text)) <> length anss ->
  (opt = "1" /\ map strip (readlines text) <> [])
  \/ (opt = "2" /\ 2 <= length rest)
  \/ (opt = "3" /\ 1 <= length rest) ->
  (menu_step question_file answer_file a).2
  = Throw (ValueError "Number of questions and answers must be the same")
  /\ files (world (menu_step question_file answer_file a).1)
     = files (world a).
Proof.
  intros Hf Hin Ha Hlen Hopt. unfold menu_step. cbn. rewrite Hf.
  rewrite (app_input_line AskOption _ opt rest)
    by menu_world.
  assert (forall a', files (world a') = files (world a) ->
            exists a'',
              run (deck_init question_file answer_file) a'
              = (a'', Raise (ValueError
                   "Number of questions and answers must be the same"))
              /\ files (world a'') = files (world a)) as Hbad.
  { intros a' Hf'.
    destruct (run_deck_init question_file answer_file a'
                (map strip (readlines text)) anss) as [_ Hbad].
    { rewrite (read_file_lines _ (world a) (world a') Hf').
      by rewrite (read_file_open _ _ _ Hf). }
    { by rewrite (read_file_lines _ (world a) (world a') Hf'). }
    destruct (Hbad Hlen) as (a'' & Hrun & Hf'' & _).
    exists a''. split; [done | congruence]. }
  destruct Hopt as [[-> Hne] | [[-> Hrest] | [-> Hrest]]].
  - destruct (String.eqb (universal_newlines text) EmptyString) eqn:He.
    { by apply question_file_empty in He. }
    cbn.
    set (a2 := app_answered AskOption rest _).
    destruct (Hbad a2) as (a3 & -> & Hf3); [done |]. by cbn.
  - destruct rest as [|q [|ans rest]]; cbn in Hrest; [lia.. |]. cbn.
    rewrite (app_input_line AskQuestion _ q (ans :: rest)) by done.
    rewrite (app_input_line AskAnswer _ ans rest) by done.
    set (a4 := app_answered AskAnswer rest _).
    destruct (Hbad a4) as (a5 & -> & Hf5); [unfold a4; menu_world |].
    by cbn.
  - destruct rest as [|q rest]; cbn in Hrest; [lia |]. cbn.
    rewrite (app_input_line AskDelete _ q rest) by done.
    set (a3 := app_answered AskDelete rest _).
    destruct (Hbad a3) as (a4 & -> & Hf4); [unfold a3; menu_world |].
    by cbn.
Qed.

(** [os.path.exists] looks at the file system only; a file that can be
    read exists. *)
Lemma path_exists_files (p : string) w w' :
  files w' = files w -> path_exists p w' = path_exists p w.
Proof. intros H. unfold path_exists. by rewrite H. Qed.

Lemma open_r_exists (p : string) w (text : string) :
  open_r p (files w) = Return text -> path_exists p w = true.
Proof.
  intros (k & f & Hloc & Hf & _)%open_r_Return.
  unfold path_exists. by rewrite Hloc, Hf.
Qed.

Lemma open_r_file_content (p : string) fs (text : string) :
  open_r p fs = Return text -> file_content p fs = Some (Text text).
Proof.
  intros (k & f & Hloc & Hf & _ & Hc)%open_r_Return.
  unfold file_content. by rewrite Hloc, Hf, <- Hc.
Qed.

Lemma own_file_intro (p : string) fs (text : string) (k : nat) :
  open_r p fs = Return text -> open_w p fs = Return k ->
  own_file p fs = Some k.
Proof.
  intros (j & f & Hloc & Hf & Hr & _)%open_r_Return Hw.
  pose proof (open_w_locate _ _ _ Hw) as Hloc'.
  unfold own_file, open_w in *. rewrite Hloc, Hf, Hr in *.
  destruct (writable f); [|done]. simpl. congruence.
Qed.

(** The start of the application when two names are typed: the world
    before a choice is made between the typed names and the names
    [questions] and [answers]. *)
Lemma startup_typed a (question_file answer_file : string)
    (rest : list string) :
  stdin (world a) = question_file :: answer_file :: rest ->
  exists a3,
    files (world a3) = files (world a)
    /\ stdin (world a3) = rest
    /\ startup a
       = if negb (path_exists question_file (world a))
            || negb (path_exists answer_file (world a))
         then
           match create_empty "questions" (say CreatingFiles a3) with
           | (a, Raise e) => (a, Raise e)
           | (a, Return _) =>
               match create_empty "answers" a with
               | (a, Raise e) => (a, Raise e)
               | (a, Return _) => (a, Return ("questions", "answers"))
               end
           end
         else (a3, Return (question_file, answer_file)).
Proof.
  intros Hin. unfold startup.
  rewrite (app_input_line AskQuestionFile a question_file
             (answer_file :: rest)) by done.
  rewrite (app_input_line AskAnswerFile _ answer_file rest) by done.
  cbn.
  match goal with
  | |- context [if ?b then say BothRequired ?x else ?x] =>
      set (a3 := if b then say BothRequired x else x)
  end.
  assert (files (world a3) = files (world a) /\ stdin (world a3) = rest)
    as [Hf Hs] by (unfold a3; by destruct (_ || _)).
  clearbody a3. exists a3.
  by rewrite !(path_exists_files _ (world a) (world a3) Hf).
Qed.

Lemma startup_exist a (question_file answer_file : string)
    (rest : list string) :
  stdin (world a) = question_file :: answer_file :: rest ->
  path_exists question_file (world a) = true ->
  path_exists answer_file (world a) = true ->
  exists a',
    startup a = (a', Return (question_file, answer_file))
    /\ stdin (world a') = rest
    /\ files (world a') = files (world a).
Proof.
  intros Hin Hq Ha.
  destruct (startup_typed a _ _ _ Hin) as (a3 & Hf & Hs & ->).
  rewrite Hq, Ha. cbn. by exists a3.
Qed.

(** Making the two new files. *)
Lemma startup_create a (question_file answer_file : string)
    (rest : list string) :
  stdin (world a) = question_file :: answer_file :: rest ->
  path_exists question_file (world a) && path_exists answer_file (world a)
  = false ->
  (forall e,
      open_w "questions" (files (world a)) = Raise e ->
      exists a',
        startup a = (a', Raise e)
        /\ stdin (world a') = rest
        /\ files (world a') = files (world a))
  /\ (forall kq ka : nat,
        open_w "questions" (files (world a)) = Return kq ->
        open_w "answers" (files (world a)) = Return ka ->
        exists a',
          startup a = (a', Return ("questions", "answers"))
          /\ stdin (world a') = rest
          /\ files (world a')
             = put ka EmptyString (put kq EmptyString (files (world a)))).
Proof.
  intros Hin Hex.
  destruct (startup_typed a _ _ _ Hin) as (a3 & Hf & Hs & ->).
  assert (negb (path_exists question_file (world a))
          || negb (path_exists answer_file (world a)) = true) as ->.
  { by destruct (path_exists question_file (world a)),
         (path_exists answer_file (world a)). }
  unfold create_empty. cbn [say world screen]. rewrite Hf.
  split.
  - intros e ->. eexists. split; [reflexivity |]. done.
  - intros kq ka Hq Ha. rewrite Hq. cbn [world set_files files].
    assert (open_w "answers" (put kq EmptyString (files (world a)))
            = Return ka) as ->.
    { apply write_entry_Some.
      rewrite (write_entry_put "answers" "questions");
        by apply write_entry_Some. }
    eexists. split; [reflexivity |]. cbn. by rewrite Hs.
Qed.

(** X11. Quitting at once, the first choice after the two names being
    [4].  When both names exist and the questions file can be read, the
    application ends with [Thank you!] and no file has changed.  When
    both exist but the questions file cannot be read - it is a directory,
    say - the application ends with the report of that error, the choice
    unread.  When a name does not exist - it is empty or mistyped - and
    the program can keep files at [questions] and [answers], these two
    files have been made empty, whatever they held, no other entry has
    changed, and the application ends with [Thank you!]; and when
    [questions] cannot be opened for writing, the application ends with
    the report of that error and no file has changed. *)
Theorem quit_at_once w (question_file answer_file : string)
    (rest : list string) (fuel : nat) :
  stdin w = question_file :: answer_file :: "4" :: rest ->
  0 < fuel ->
  (path_exists question_file w && path_exists answer_file w = true ->
   (forall text,
       open_r question_file (files w) = Return text ->
       exists a,
         flashcard_app fuel w = Some a
         /\ last (screen a) = Some (FromApp ThankYou)
         /\ stdin (world a) = rest
         /\ files (world a) = files w)
   /\ (forall e,
         open_r question_file (files w) = Raise e ->
         exists a,
           flashcard_app fuel w = Some a
           /\ last (screen a) = Some (FromApp (ErrorOccurred e))
           /\ stdin (world a) = "4" :: rest
           /\ files (world a) = files w))
  /\ (path_exists question_file w && path_exists answer_file w = false ->
      (forall kq ka : nat,
          own_file "questions" (files w) = Some kq ->
          own_file "answers" (files w) = Some ka ->
          exists a,
            flashcard_app fuel w = Some a
            /\ last (screen a) = Some (FromApp ThankYou)
            /\ stdin (world a) = rest
            /\ file_content "questions" (files (world a))
               = Some (Text EmptyString)
            /\ file_content "answers" (files (world a))
               = Some (Text EmptyString)
            /\ forall k, k <> kq -> k <> ka ->
                 nodes (files (world a)) !! k = nodes (files w) !! k)
      /\ (forall e,
            open_w "questions" (files w) = Raise e ->
            exists a,
              flashcard_app fuel w = Some a
              /\ last (screen a) = Some (FromApp (ErrorOccurred e))
              /\ stdin (world a) = "4" :: rest
              /\ files (world a) = files w)).
Proof.
  intros Hin Hfuel. destruct fuel as [|fuel]; [lia |].
  unfold flashcard_app. split.
  - intros [Hq Ha]%andb_true_iff.
    destruct (startup_exist (mkApp w []) question_file answer_file
                ("4" :: rest) Hin Hq Ha) as (a1 & -> & Hs1 & Hf1).
    cbn [world] in Hf1. split.
    + intros text Hr. rewrite <- Hf1 in Hr. rewrite menu_loop_unroll.
      destruct (menu_step_quit question_file answer_file a1 text rest Hr
                  Hs1) as (Hb & Hf & Hs).
      destruct (menu_step_spec question_file answer_file a1)
        as (_ & _ & Hlast & _).
      rewrite Hb in Hlast |- *.
      eexists. split; [reflexivity |]. by rewrite Hlast, Hs, Hf, Hf1.
    + intros e Hr. rewrite <- Hf1 in Hr. rewrite menu_loop_unroll.
      rewrite (menu_step_unreadable _ _ _ _ Hr). cbn.
      eexists. split; [reflexivity |]. cbn. by rewrite last_snoc.
  - intros Hex.
    destruct (startup_create (mkApp w []) question_file answer_file
                ("4" :: rest) Hin Hex) as [Hfail Hmade].
    cbn [world] in Hfail, Hmade. split.
    + intros kq ka Hkq Hka.
      destruct (Hmade kq ka) as (a1 & -> & Hs1 & Hf1);
        [by apply own_file_open_w.. |].
      assert (own_file "questions" (files (world a1)) = Some kq) as Hq1
        by (rewrite Hf1; by apply own_file_put, own_file_put).
      assert (own_file "answers" (files (world a1)) = Some ka) as Ha1
        by (rewrite Hf1; by apply own_file_put, own_file_put).
      assert (open_r "questions" (files (world a1)) = Return EmptyString)
        as Hr.
      { rewrite Hf1. destruct (decide (ka = kq)) as [-> | Hne].
        - apply own_file_put_eq. by apply own_file_put.
        - rewrite (open_r_put_ne "questions" _ kq ka).
          + by apply own_file_put_eq.
          + rewrite locate_put. by apply own_file_locate.
          + done. }
      assert (open_r "answers" (files (world a1)) = Return EmptyString)
        as Hr'.
      { rewrite Hf1. apply own_file_put_eq. by apply own_file_put. }
      rewrite menu_loop_unroll.
      destruct (menu_step_quit "questions" "answers" a1 _ rest Hr Hs1)
        as (Hb & Hf & Hs).
      destruct (menu_step_spec "questions" "answers" a1)
        as (_ & _ & Hlast & _).
      rewrite Hb in Hlast |- *.
      eexists. split; [reflexivity |]. rewrite Hlast, Hs, Hf by done.
      split; [done |]. split; [done |].
      split; [by apply open_r_file_content |].
      split; [by apply open_r_file_content |].
      intros k H1 H2. rewrite Hf1. by rewrite !nodes_put_ne.
    + intros e He. destruct (Hfail e He) as (a1 & -> & Hs1 & Hf1).
      eexists. split; [reflexivity |]. cbn. by rewrite last_snoc.
Qed.

(** Two names of the directory itself: the question file exists and
    cannot be read. *)
Lemma quit_at_once_witness :
  exists a,
    flashcard_app 1 (sample_world ["."; "."; "4"]) = Some a
    /\ last (screen a)
       = Some (FromApp (ErrorOccurred (IsADirectoryError ".")))
    /\ stdin (world a) = ["4"]
    /\ files (world a) = files (sample_world ["."; "."; "4"]).
Proof.
  apply (proj2 (proj1 (quit_at_once (sample_world ["."; "."; "4"])
                         "." "." [] 1 eq_refl ltac:(lia))
                  eq_refl)).
  reflexivity.
Defined.

(** X12. When the two files, both read without error, have different
    numbers of lines, the deck cannot be used from the menu: taking the
    test (offered when the questions file is not empty), adding a
    question, once question and answer are typed, and deleting one, once
    the question is typed, each end the application with the report of
    the [ValueError], and no file has changed. *)
Theorem mismatch_ends_app w (question_file answer_file opt : string)
    (rest : list string) (fuel : nat) (qs ans : list string) :
  stdin w = question_file :: answer_file :: opt :: rest ->
  path_exists question_file w = true ->
  path_exists answer_file w = true ->
  (read_file question_file w).2 = Return qs ->
  (read_file answer_file w).2 = Return ans ->
  length qs <> length ans ->
  (opt = "1" /\ qs <> [])
  \/ (opt = "2" /\ 2 <= length rest)
  \/ (opt = "3" /\ 1 <= length rest) ->
  0 < fuel ->
  exists a,
    flashcard_app fuel w = Some a
    /\ last (screen a)
       = Some (FromApp (ErrorOccurred (ValueError
            "Number of questions and answers must be the same")))
    /\ files (world a) = files w.
Proof.
  intros Hin Hq Ha Hqs Hans Hlen Hopt Hfuel.
  destruct fuel as [|fuel]; [lia |].
  unfold flashcard_app.
  destruct (startup_exist (mkApp w []) question_file answer_file
              (opt :: rest) Hin Hq Ha) as (a1 & -> & Hs1 & Hf1).
  cbn [world] in Hf1.
  assert (exists text, open_r question_file (files w) = Return text
                       /\ qs = map strip (readlines text))
    as (text & Hr & ->).
  { destruct (read_file_cases question_file w)
      as [(text & Hr & Hrf) | [(? & Hr & _) | (? & _ & _ & Hrf)]].
    - exists text. split; [done |]. rewrite Hrf in Hqs. by injection Hqs.
    - exfalso. unfold path_exists, open_r in *.
      destruct (locate question_file (files w)) as [k|k| |e]; try done.
      destruct (nodes (files w) !! k) as [f|]; [|done].
      destruct (readable f); [|done]. by destruct (content f).
    - rewrite Hrf in Hqs. done. }
  rewrite menu_loop_unroll.
  destruct (menu_step_mismatch question_file answer_file a1 text opt
              rest ans) as (Hthrow & Hf).
  - by rewrite Hf1.
  - done.
  - by rewrite (read_file_lines _ w (world a1) Hf1).
  - done.
  - done.
  - rewrite Hthrow. eexists. split; [reflexivity |]. cbn.
    by rewrite last_snoc, Hf, Hf1.
Qed.

Lemma mismatch_ends_app_witness :
  exists a,
    flashcard_app 1 (uneven_world ["questions"; "answers"; "3"; "2+2"])
    = Some a
    /\ last (screen a)
       = Some (FromApp (ErrorOccurred (ValueError
            "Number of questions and answers must be the same")))
    /\ files (world a)
       = files (uneven_world ["questions"; "answers"; "3"; "2+2"]).
Proof.
  apply (mismatch_ends_app
           (uneven_world ["questions"; "answers"; "3"; "2+2"])
           "questions" "answers" "3" ["2+2"] 1 ["2+2"; "3+3"] ["4"]).
  - reflexivity.
  - reflexivity.
  - reflexivity.
  - reflexivity.
  - reflexivity.
  - simpl. lia.
  - right. right. split; [reflexivity | simpl; lia].
  - lia.
Defined.

Lemma map_strip_plain (ls : list string) :
  Forall (fun l => plain l = true) ls -> map strip ls = ls.
Proof.
  induction 1 as [|l ls Hl _ IH]; simpl; [done |].
  apply plain_spec in Hl as (H1 & H2 & _).
  unfold strip at 1. by rewrite lstrip_id, rstrip_id, IH.
Qed.

(** Reading back what was written, when no entry holds a line break. *)
Lemma read_written (ls : list string) :
  Forall (fun l => has_line_break l = false) ls ->
  map strip (readlines (written ls)) = map strip ls.
Proof.
  intros H. unfold readlines.
  rewrite universal_newlines_written, split_lines_written by done.
  rewrite map_map. apply map_ext. intros l. apply strip_line.
Qed.

(** X13. Adding a question from the menu and deleting it again.  Take
    two names that lead to two different files, both of which can be read
    and opened for writing, with equally many lines; a question without
    whitespace at its ends and without line break that is none of the
    lines of the questions file; and an answer without line break.  After
    the choices [2] with this question and answer, [3] with this question,
    and [4], the application has ended with [Thank you!], the two files
    hold their lines from before, stripped, one a line, and nothing else,
    and no other entry of the file system has changed. *)
Theorem menu_add_then_delete w (question_file answer_file q ans : string)
    (rest : list string) (fuel : nat) (cq ca : string) (kq ka : nat) :
  stdin w
  = question_file :: answer_file :: "2" :: q :: ans :: "3" :: q :: "4"
      :: rest ->
  open_r question_file (files w) = Return cq ->
  open_r answer_file (files w) = Return ca ->
  open_w question_file (files w) = Return kq ->
  open_w answer_file (files w) = Return ka ->
  kq <> ka ->
  length (map strip (readlines cq)) = length (map strip (readlines ca)) ->
  plain q = true ->
  q ∉ map strip (readlines cq) ->
  has_line_break ans = false ->
  3 <= fuel ->
  exists a,
    flashcard_app fuel w = Some a
    /\ last (screen a) = Some (FromApp ThankYou)
    /\ stdin (world a) = rest
    /\ file_content question_file (files (world a))
       = Some (Text (written (map strip (readlines cq))))
    /\ file_content answer_file (files (world a))
       = Some (Text (written (map strip (readlines ca))))
    /\ forall k, k <> kq -> k <> ka ->
         nodes (files (world a)) !! k = nodes (files w) !! k.
Proof.
  intros Hin Hcq Hca Hwq Hwa Hne Hlen Hplain Hnew Hans Hfuel.
  destruct fuel as [|[|[|fuel]]]; [lia.. |].
  unfold flashcard_app.
  destruct (startup_exist (mkApp w []) question_file answer_file _ Hin)
    as (a1 & -> & Hs1 & Hf1); [by eapply open_r_exists.. |].
  cbn [world] in Hf1.
  set (qs := map strip (readlines cq)) in *.
  set (anss := map strip (readlines ca)) in *.
  assert (Forall (fun l => plain l = true) qs) as Hqs by apply lines_plain.
  assert (Forall (fun l => plain l = true) anss) as Hanss
    by apply lines_plain.
  pose proof (own_file_intro _ _ _ _ Hcq Hwq) as Hoq.
  pose proof (own_file_intro _ _ _ _ Hca Hwa) as Hoa.
  rewrite <- Hf1 in Hcq, Hca, Hoq, Hoa.
  (* the choice 2 *)
  rewrite menu_loop_unroll.
  destruct (menu_step_add question_file answer_file a1 cq q ans
              ("3" :: q :: "4" :: rest) anss) as (-> & Hf2 & Hs2);
    [done | done | by rewrite (read_file_open _ _ _ Hca) | done |].
  fold qs in Hf2.
  destruct (two_writes_read question_file answer_file (qs ++ [q])
              (anss ++ [ans]) (world a1) kq ka Hoq Hoa Hne)
    as (Hq2 & Ha2 & Hoq2 & Hoa2).
  pose proof (save_frame question_file answer_file (qs ++ [q])
                (anss ++ [ans]) (world a1)) as [_ Hw2].
  rewrite <- Hf2 in Hq2, Ha2, Hoq2, Hoa2, Hw2.
  set (a2 := (menu_step question_file answer_file a1).1) in *.
  clearbody a2.
  assert (map strip (readlines (written (qs ++ [q]))) = qs ++ [q]) as Hr2.
  { apply read_back. apply Forall_app. split; [done | by constructor]. }
  assert (map strip (readlines (written (anss ++ [ans])))
          = anss ++ [strip ans]) as Hra2.
  { rewrite read_written.
    - by rewrite map_app, map_strip_plain.
    - apply Forall_app. split; [|by constructor].
      eapply Forall_impl; [exact Hanss |]. simpl.
      by intros l (_ & _ & ?)%plain_spec. }
  (* the choice 3 *)
  rewrite menu_loop_unroll.
  destruct (menu_step_delete question_file answer_file a2 _ q
              ("4" :: rest) (anss ++ [strip ans]) (length qs) Hq2 Hs2)
    as (-> & Hf3 & Hs3).
  { by rewrite (read_file_open _ _ _ Ha2), Hra2. }
  { rewrite Hr2, !length_app. simpl. fold qs anss in Hlen. lia. }
  { rewrite Hr2. by apply index_new. }
  rewrite Hr2, delete_last in Hf3.
  fold qs anss in Hlen. rewrite Hlen, delete_last in Hf3.
  destruct (two_writes_read question_file answer_file qs anss (world a2)
              kq ka Hoq2 Hoa2 Hne) as (Hq3 & Ha3 & _).
  pose proof (save_frame question_file answer_file qs anss (world a2))
    as [_ Hw3].
  rewrite <- Hf3 in Hq3, Ha3, Hw3.
  set (a3 := (menu_step question_file answer_file a2).1) in *.
  clearbody a3.
  (* the choice 4 *)
  rewrite menu_loop_unroll.
  destruct (menu_step_quit question_file answer_file a3 _ rest Hq3 Hs3)
    as (Hb & Hf4 & Hs4).
  destruct (menu_step_spec question_file answer_file a3)
    as (_ & _ & Hlast & _).
  rewrite Hb in Hlast |- *.
  eexists. split; [reflexivity |]. rewrite Hlast, Hs4, Hf4 by done.
  split; [done |]. split; [done |].
  split; [by apply open_r_file_content |].
  split; [by apply open_r_file_content |].
  intros k H1 H2.
  pose proof (only_written_trans _ _ _ _ _ Hw2 Hw3) as (_ & _ & Hn).
  rewrite Hn, Hf1; [done | |].
  - rewrite (own_file_locate _ _ _ Hoq). congruence.
  - rewrite (own_file_locate _ _ _ Hoa). congruence.
Qed.

Lemma menu_add_then_delete_witness :
  exists a,
    flashcard_app 3
      (padded_world ["questions"; "answers"; "2"; "7+7"; " 14"; "3"; "7+7";
                     "4"])
    = Some a
    /\ last (screen a) = Some (FromApp ThankYou)
    /\ stdin (world a) = []
    /\ file_content "questions" (files (world a))
       = Some (Text ("2+2" +:+ String LF EmptyString))
    /\ file_content "answers" (files (world a))
       = Some (Text ("4" +:+ String LF EmptyString))
    /\ forall k, k <> 0 -> k <> 1 ->
         nodes (files (world a)) !! k
         = nodes (files (padded_world
                           ["questions"; "answers"; "2"; "7+7"; " 14";
                            "3"; "7+7"; "4"])) !! k.
Proof.
  apply (menu_add_then_delete
           (padded_world ["questions"; "answers"; "2"; "7+7"; " 14"; "3";
                          "7+7"; "4"])
           "questions" "answers" "7+7" " 14" [] 3
           (written ["  2+2 "]) (written [" 4"]) 0 1).
  - reflexivity.
  - reflexivity.
  - reflexivity.
  - reflexivity.
  - reflexivity.
  - discriminate.
  - reflexivity.
  - reflexivity.
  - apply index_None. reflexivity.
  - reflexivity.
  - lia.
Defined.

End Menu.
(** * Every order can come out of the shuffle *)

Section ShuffleReach.

Context {A : Type}.
Implicit Types (x t : list A).

(** Two arrangements of different items that agree from the second place
    on agree everywhere. *)
Lemma agree_from_second x t :
  NoDup x -> x ≡ₚ t ->
  (forall k, 0 < k -> x !! k = t !! k) ->
  x = t.
Proof.
  intros Hnd Hp Hk. apply list_eq. intros [|k]; [|apply Hk; lia].
  pose proof (Permutation_length Hp) as Hlen.
  destruct x as [|a xs], t as [|b ts]; try done. simpl. f_equal.
  assert (xs = ts) as ->.
  { apply list_eq. intros k. apply (Hk (S k)). lia. }
  apply NoDup_cons in Hnd as [Ha _].
  assert (a ∈ b :: ts) as Hin by (rewrite <- Hp; apply list_elem_of_here).
  by apply elem_of_cons in Hin as [-> | Hin].
Qed.

(** The item wanted at place [i] stands at a place up to [i], and swapping
    it there leaves the places after [i] as they are. *)
Lemma swap_into_place (i : nat) x t :
  NoDup x -> x ≡ₚ t -> i < length x ->
  (forall k, i < k -> x !! k = t !! k) ->
  exists j,
    j <= i
    /\ NoDup (swap i j x)
    /\ swap i j x ≡ₚ t
    /\ forall k, i <= k -> swap i j x !! k = t !! k.
Proof.
  intros Hnd Hp Hi Hk.
  pose proof (Permutation_length Hp) as Hlen.
  assert (NoDup t) as Hndt by (by rewrite <- Hp).
  destruct (lookup_lt_is_Some_2 t i) as [v Hv]; [lia |].
  destruct (lookup_lt_is_Some_2 x i) as [u Hu]; [lia |].
  assert (v ∈ x) as Hin.
  { rewrite Hp. by eapply list_elem_of_lookup_2. }
  apply list_elem_of_lookup_1 in Hin as [j Hj].
  assert (j <= i) as Hji.
  { destruct (decide (j <= i)) as [|Hgt]; [done |].
    rewrite Hk in Hj by lia.
    pose proof (NoDup_lookup _ _ _ _ Hndt Hj Hv). lia. }
  exists j. split; [done |].
  assert (swap i j x ≡ₚ x) as Hsw by apply swap_perm.
  split; [by rewrite Hsw |]. split; [by rewrite Hsw |].
  intros k Hik. unfold swap. rewrite Hj, Hu.
  destruct (decide (k = i)) as [-> | Hne].
  - destruct (decide (j = i)) as [-> | Hji'].
    + rewrite list_lookup_insert_eq by (rewrite length_insert; lia).
      congruence.
    + rewrite list_lookup_insert_ne by done.
      rewrite list_lookup_insert_eq by lia. done.
  - rewrite !list_lookup_insert_ne by lia. apply Hk. lia.
Qed.

(** The loop of the shuffle, run from place [i] down, reaches every
    arrangement that agrees with the list after place [i]. *)
Lemma shuffle_loop_reaches (i : nat) : forall x t (w : World),
  NoDup x -> x ≡ₚ t -> i < length x ->
  (forall k, i < k -> x !! k = t !! k) ->
  exists draws : nat -> nat,
    (shuffle_loop i x
       (mkWorld (files w) (stdin w) (stdout w) (next_id w) draws)).2 = t.
Proof.
  induction i as [|i IH]; intros x t w Hnd Hp Hi Hk.
  - exists (fun _ => 0). simpl. by apply agree_from_second.
  - destruct (swap_into_place (S i) x t Hnd Hp Hi Hk)
      as (j & Hj & Hnd' & Hp' & Hk').
    destruct (IH (swap (S i) j x) t w Hnd' Hp') as [draws Hdraws].
    { rewrite (Permutation_length (swap_perm (S i) j x)). lia. }
    { intros k Hik. apply Hk'. lia. }
    exists (fun k => match k with 0 => j | S k' => draws k' end).
    cbn [shuffle_loop randbelow rng fst snd].
    replace (j mod (S i + 1)) with j by (symmetry; apply Nat.mod_small; lia).
    exact Hdraws.
Qed.

End ShuffleReach.

Section ShuffleOrders.

Implicit Types (w : World) (d : FlashcardDeck).

(** X14. Every order of the cards can come out of [shuffle]: for a deck
    whose cards are different objects and any arrangement of these cards,
    there are draws of the random generator with which [shuffle] leaves
    the cards in that arrangement. *)
Theorem shuffle_reaches_every_order d w (cards : list Flashcard) :
  NoDup (oid <$> flashcards d) ->
  cards ≡ₚ flashcards d ->
  exists draws : nat -> nat,
    flashcards
      (shuffle d (mkWorld (files w) (stdin w) (stdout w) (next_id w)
                    draws)).2
    = cards.
Proof.
  intros Hnd Hp. apply NoDup_fmap_1 in Hnd.
  destruct (flashcards d) as [|c0 l] eqn:Hcards.
  - exists (fun _ => 0). unfold shuffle, random_shuffle. rewrite Hcards.
    simpl. by apply Permutation_nil_r in Hp.
  - destruct (shuffle_loop_reaches (length l) (c0 :: l) cards w Hnd)
      as [draws Hdraws]; [done | simpl; lia | |].
    { intros k Hk. rewrite !lookup_ge_None_2; [done | |simpl; lia].
      rewrite (Permutation_length Hp). simpl. lia. }
    exists draws. unfold shuffle, random_shuffle. rewrite Hcards.
    replace (length (c0 :: l) - 1) with (length l) by (simpl; lia).
    destruct (shuffle_loop _ _ _) as [w1 cards1]. simpl in *. done.
Qed.

Lemma shuffle_reaches_every_order_witness :
  exists draws : nat -> nat,
    flashcards
      (shuffle sample_deck
         (mkWorld (files (sample_world [])) (stdin (sample_world []))
            (stdout (sample_world [])) (next_id (sample_world [])) draws)).2
    = [mkFlashcard 2 "5+5" "10"; mkFlashcard 0 "2+2" "4";
       mkFlashcard 1 "3+3" "6"].
Proof.
  apply (shuffle_reaches_every_order sample_deck (sample_world [])).
  - by apply (bool_decide_unpack _).
  - simpl. apply Permutation_cons_append.
Defined.

End ShuffleOrders.
